(** * Commerce analytics dashboard: record parser, filter and aggregation
      dataflow, chart downsampler

    A shallow embedding of
    - [CsvImportService] (src/app/services/csv-import.service.ts),
    - [AnalyticsDataService] (src/app/services/analytics-data.service.ts),
    - [VirtualizedChartComponent.virtualizeData]
      (src/app/components/virtualized-chart/virtualized-chart.component.ts),
    together with the JavaScript built-ins these functions call.

    Conventions of the embedding.
    - A JavaScript string is a [string]: a sequence of code units below 256.
    - A JavaScript [number] is a value of binary64: NaN, +Infinity,
      -Infinity or a rational, and every arithmetic operation, numeric
      literal and conversion from a string rounds its exact result to the
      nearest such value, ties to even, and overflows to an infinity
      ([Js.round]).  The two zeros are one value: the program divides by
      record counts only and compares numbers with [<], [>=] and [===], none
      of which tells the zeros apart.
    - A value that may be [undefined] is an [option]; [None] is [undefined].
    - An insertion-ordered [Set] or [Map] is a list in insertion order.
    - A plain object used as a dictionary is a [gmap string _]. *)

From Stdlib Require Import String Ascii List ZArith QArith Qround Qpower Qreduction
  Qcanon Lia Lqa Bool DecimalString Permutation Sorted.
From Stdlib Require Floats.PrimFloat Floats.FloatOps.
From stdpp Require Import gmap strings.
Import ListNotations.

Local Open Scope string_scope.
Local Open Scope list_scope.

(** ** JavaScript values *)

Module Js.

(** *** Numbers *)

Inductive number : Type :=
| NaN
| Fin (q : Q)
| PInf
| NInf.

Definition zero : number := Fin 0.
Definition one : number := Fin 1.

(** **** Rounding to binary64 *)

(** [2^e] *)
Definition pow2 (e : Z) : Q := (2 ^ e)%Q.

(** The exponent [e] with [2^e <= q < 2^(e+1)], for a positive [q]. *)
Definition ilog2 (q : Q) : Z :=
  let e0 := (Z.log2 (Qnum q) - Z.log2 (Zpos (Qden q)))%Z in
  if Qle_bool (pow2 e0) q then e0 else (e0 - 1)%Z.

(** The nearest integer, a tie going to the even one. *)
Definition roundHalfEven (q : Q) : Z :=
  let fl := Qfloor q in
  match Qcompare (q - inject_Z fl) (1 # 2) with
  | Lt => fl
  | Gt => (fl + 1)%Z
  | Eq => if Z.even fl then fl else (fl + 1)%Z
  end.

(** The exponent of the last place of the numbers around a positive [a]:
    53 significant bits, and no exponent below that of the subnormal
    numbers. *)
Definition exponentOf (a : Q) : Z := Z.max (ilog2 a - 52) (-1074).

Definition ulp (a : Q) : Q := pow2 (exponentOf a).

(** The multiple of [ulp a] nearest to a positive [a]. *)
Definition nearest (a : Q) : Q := (inject_Z (roundHalfEven (a / ulp a)) * ulp a)%Q.

(** The Number value for the rational [q]: round to nearest, ties to even;
    a result of magnitude [2^1024] or more is an infinity.  A finite value
    is kept in lowest terms. *)
Definition round (q : Q) : number :=
  match Qcompare q 0 with
  | Eq => Fin 0
  | Gt => let v := nearest (Qred q) in
          if Qle_bool (pow2 1024) v then PInf else Fin (Qred v)
  | Lt => let v := nearest (Qred (- q)) in
          if Qle_bool (pow2 1024) v then NInf else Fin (Qred (- v))
  end.

(** A rational that is a number of binary64: rounding leaves it as it
    is. *)
Definition binary64 (q : Q) : Prop := round q = Fin q.

(** A numeric literal of the source text, such as [0.045]. *)
Definition literal (q : Q) : number := round q.

(** The Number value of an array length or a count. *)
Definition of_nat (n : nat) : number := round (inject_Z (Z.of_nat n)).

(** The number a float of the machine stands for, to compare [round] with
    the arithmetic of the floating-point unit. *)
Definition of_float (f : PrimFloat.float) : number :=
  match FloatOps.Prim2SF f with
  | SpecFloat.S754_zero _ => Fin 0
  | SpecFloat.S754_infinity false => PInf
  | SpecFloat.S754_infinity true => NInf
  | SpecFloat.S754_nan => NaN
  | SpecFloat.S754_finite s m e =>
      Fin (Qred ((if s then -1 else 1) * inject_Z (Zpos m) * pow2 e))
  end.

(** [a + b] *)
Definition add (a b : number) : number :=
  match a, b with
  | NaN, _ | _, NaN => NaN
  | Fin x, Fin y => round (x + y)
  | PInf, NInf | NInf, PInf => NaN
  | PInf, _ | _, PInf => PInf
  | NInf, _ | _, NInf => NInf
  end.

(** Sign of a rational: [-1], [0] or [1]. *)
Definition Qsgn (q : Q) : Z := Z.sgn (Qnum q).

Definition inf_of_sign (s : Z) : number :=
  if (s =? 0)%Z then NaN else if (0 <? s)%Z then PInf else NInf.

Definition sign (a : number) : Z :=
  match a with
  | NaN => 0
  | Fin x => Qsgn x
  | PInf => 1
  | NInf => -1
  end.

(** [a * b] *)
Definition mul (a b : number) : number :=
  match a, b with
  | NaN, _ | _, NaN => NaN
  | Fin x, Fin y => round (x * y)
  | _, _ => inf_of_sign (sign a * sign b)
  end.

(** [a / b]; the zero of the model stands for the positive zero. *)
Definition div (a b : number) : number :=
  match a, b with
  | NaN, _ | _, NaN => NaN
  | Fin x, Fin y =>
      if Qeq_bool y 0 then inf_of_sign (Qsgn x) else round (x / y)
  | Fin _, _ => zero
  | _, Fin y => if Qeq_bool y 0 then a else inf_of_sign (sign a * Qsgn y)
  | _, _ => NaN
  end.

(** [a <= b] *)
Definition leb (a b : number) : bool :=
  match a, b with
  | NaN, _ | _, NaN => false
  | Fin x, Fin y => Qle_bool x y
  | NInf, _ | _, PInf => true
  | _, _ => false
  end.

(** [a >= b] *)
Definition geb (a b : number) : bool := leb b a.

(** [a === b] *)
Definition strict_eq (a b : number) : bool :=
  match a, b with
  | Fin x, Fin y => Qeq_bool x y
  | PInf, PInf | NInf, NInf => true
  | _, _ => false
  end.

(** ToBoolean on a number: NaN and zero are falsy. *)
Definition truthy (a : number) : bool :=
  match a with
  | NaN => false
  | Fin x => negb (Qeq_bool x 0)
  | _ => true
  end.

(** [a || b] on numbers. *)
Definition or_else (a b : number) : number := if truthy a then a else b.

(** Equality of numbers as values: rationals up to [Qeq]. *)
Definition num_eq (a b : number) : Prop :=
  match a, b with
  | NaN, NaN | PInf, PInf | NInf, NInf => True
  | Fin x, Fin y => x == y
  | _, _ => False
  end.

(** *** Strings *)

(** WhiteSpace and LineTerminator code units below 256: TAB, LF, VT, FF, CR,
    SP and NBSP. *)
Definition isWhiteSpace (c : ascii) : bool :=
  let n := nat_of_ascii c in
  ((n =? 9) || (n =? 10) || (n =? 11) || (n =? 12) || (n =? 13)
   || (n =? 32) || (n =? 160))%nat.

Fixpoint trimStart (s : string) : string :=
  match s with
  | EmptyString => EmptyString
  | String c s' => if isWhiteSpace c then trimStart s' else s
  end.

Fixpoint trimEnd (s : string) : string :=
  match s with
  | EmptyString => EmptyString
  | String c s' =>
      match trimEnd s' with
      | EmptyString => if isWhiteSpace c then EmptyString else String c EmptyString
      | t => String c t
      end
  end.

(** [s.trim()] *)
Definition trim (s : string) : string := trimEnd (trimStart s).

(** [s.split(sep)] for a separator of one code unit. *)
Fixpoint split (sep : ascii) (s : string) : list string :=
  match s with
  | EmptyString => [EmptyString]
  | String c s' =>
      if Ascii.eqb c sep then EmptyString :: split sep s'
      else match split sep s' with
           | [] => [String c EmptyString]
           | field :: fields => String c field :: fields
           end
  end.

(** [parts.join(sep)] for a separator of one code unit. *)
Fixpoint join (sep : ascii) (parts : list string) : string :=
  match parts with
  | [] => EmptyString
  | [p] => p
  | p :: rest => (p ++ String sep (join sep rest))%string
  end.

(** ToBoolean on a string: only the empty string is falsy. *)
Definition nonempty (s : string) : bool :=
  match s with EmptyString => false | _ => true end.

(** [v || d] where [v] is a string or [undefined]. *)
Definition str_or (v : option string) (d : string) : string :=
  match v with
  | Some s => if nonempty s then s else d
  | None => d
  end.

(** ToString on a string or [undefined]. *)
Definition to_string (v : option string) : string :=
  match v with Some s => s | None => "undefined" end.

(** Template-literal rendering of a non-negative integer. *)
Definition of_index (i : nat) : string := NilZero.string_of_uint (Nat.to_uint i).

(** *** parseFloat and parseInt *)

Definition digit (c : ascii) : option Z :=
  let n := nat_of_ascii c in
  if ((48 <=? n) && (n <=? 57))%nat then Some (Z.of_nat (n - 48)) else None.

Definition hexdigit (c : ascii) : option Z :=
  let n := nat_of_ascii c in
  if ((48 <=? n) && (n <=? 57))%nat then Some (Z.of_nat (n - 48))
  else if ((97 <=? n) && (n <=? 102))%nat then Some (Z.of_nat (n - 87))
  else if ((65 <=? n) && (n <=? 70))%nat then Some (Z.of_nat (n - 55))
  else None.

(** The longest prefix of digits of [s] in the given radix, read as digit
    values, and what follows it. *)
Fixpoint span_digits (dig : ascii -> option Z) (s : string) : list Z * string :=
  match s with
  | EmptyString => ([], EmptyString)
  | String c s' =>
      match dig c with
      | Some d => let '(ds, rest) := span_digits dig s' in (d :: ds, rest)
      | None => ([], s)
      end
  end.

Definition digits_value (radix : Z) (ds : list Z) : Z :=
  fold_left (fun acc d => acc * radix + d)%Z ds 0%Z.

(** An optional sign: [true] for a leading minus. *)
Definition take_sign (s : string) : bool * string :=
  match s with
  | String "-" s' => (true, s')
  | String "+" s' => (false, s')
  | _ => (false, s)
  end.

Definition apply_sign (neg : bool) (z : Z) : Z := if neg then (- z)%Z else z.

(** The exponent part [e±ddd] when it is complete, else exponent 0. *)
Definition exponent_part (s : string) : Z :=
  match s with
  | String c s' =>
      if Ascii.eqb c "e" || Ascii.eqb c "E" then
        let '(neg, s'') := take_sign s' in
        match span_digits digit s'' with
        | ([], _) => 0%Z
        | (ds, _) => apply_sign neg (digits_value 10 ds)
        end
      else 0%Z
  | EmptyString => 0%Z
  end.

(** The mathematical value [m * 10^e] of a decimal literal. *)
Definition scale10 (m e : Z) : Q :=
  if (0 <=? e)%Z then inject_Z (m * 10 ^ e) else Qmake m (Z.to_pos (10 ^ (- e))).

(** [parseFloat(s)]: the longest prefix of the trimmed string that is a
    StrDecimalLiteral, or NaN when there is none; the mathematical value of
    the literal is rounded to its Number value. *)
Definition parseFloat (s : string) : number :=
  let '(neg, body) := take_sign (trimStart s) in
  if String.prefix "Infinity" body then (if neg then NInf else PInf)
  else
    let '(int_ds, after_int) := span_digits digit body in
    let '(frac_ds, after_frac) :=
      match after_int with
      | String "." s' => span_digits digit s'
      | _ => ([], after_int)
      end in
    match int_ds ++ frac_ds with
    | [] => NaN
    | ds =>
        let m := apply_sign neg (digits_value 10 ds) in
        let e := (exponent_part after_frac - Z.of_nat (length frac_ds))%Z in
        round (scale10 m e)
    end.

(** [parseInt(s)] with no radix argument; the integer read is rounded to
    its Number value. *)
Definition parseInt (s : string) : number :=
  let '(neg, body) := take_sign (trimStart s) in
  let '(radix, dig, body') :=
    match body with
    | String "0" (String "x" r) | String "0" (String "X" r) => (16%Z, hexdigit, r)
    | _ => (10%Z, digit, body)
    end in
  match span_digits dig body' with
  | ([], _) => NaN
  | (ds, _) => round (inject_Z (apply_sign neg (digits_value radix ds)))
  end.

(** *** More arithmetic *)

(** [- a] *)
Definition opp (a : number) : number :=
  match a with
  | NaN => NaN
  | Fin x => Fin (- x)
  | PInf => NInf
  | NInf => PInf
  end.

(** [a - b] *)
Definition sub (a b : number) : number := add a (opp b).

(** [a < b] *)
Definition ltb (a b : number) : bool :=
  match a, b with
  | NaN, _ | _, NaN => false
  | Fin x, Fin y => negb (Qle_bool y x)
  | Fin _, PInf | NInf, Fin _ | NInf, PInf => true
  | _, _ => false
  end.

(** [Math.floor(a)] *)
Definition floor (a : number) : number :=
  match a with
  | Fin x => Fin (inject_Z (Qfloor x))
  | _ => a
  end.

(** *** More on strings *)

(** [toLowerCase] on one code unit below 256: the letters A to Z, and the
    capital letters of the range 192 to 222, of which 215 is the
    multiplication sign. *)
Definition lowerChar (c : ascii) : ascii :=
  let n := nat_of_ascii c in
  if ((65 <=? n) && (n <=? 90))%nat then ascii_of_nat (n + 32)
  else if ((192 <=? n) && (n <=? 222) && negb (n =? 215))%nat then ascii_of_nat (n + 32)
  else c.

(** [s.toLowerCase()] *)
Fixpoint toLowerCase (s : string) : string :=
  match s with
  | EmptyString => EmptyString
  | String c s' => String (lowerChar c) (toLowerCase s')
  end.

(** [s.endsWith(suffix)] *)
Fixpoint endsWith (s suffix : string) : bool :=
  String.eqb s suffix
  || match s with
     | EmptyString => false
     | String _ s' => endsWith s' suffix
     end.

(** *** Exceptions, observables and promises *)

Inductive exception : Type :=
| TypeError (message : string)
| Error (message : string).

(** The outcome of a call that may throw. *)
Inductive outcome (A : Type) : Type :=
| Returned (a : A)
| Thrown (e : exception).
Arguments Returned {A} a.
Arguments Thrown {A} e.

(** What a one-shot [Observable] delivers to its subscriber: [next(value)]
    followed by [complete()], or [error(e)]. *)
Inductive notification (A : Type) : Type :=
| Next (value : A)
| ErrorNotification (e : exception).
Arguments Next {A} value.
Arguments ErrorNotification {A} e.

(** How a [Promise] settles. *)
Inductive settled (A : Type) : Type :=
| Resolved (value : A)
| Rejected (reason : exception).
Arguments Resolved {A} value.
Arguments Rejected {A} reason.

(** *** Insertion-ordered sets *)

Section JsSet.
Context {A : Type} (eqb : A -> A -> bool).

Definition set_has (s : list A) (x : A) : bool := existsb (eqb x) s.

(** [s.add(x)] *)
Definition set_add (s : list A) (x : A) : list A :=
  if set_has s x then s else s ++ [x].

(** [new Set(xs)] *)
Definition set_of (xs : list A) : list A := fold_left set_add xs [].
End JsSet.

End Js.

(** ** Data model (src/app/models/analytics.models.ts) *)

Module Models.

(** A [moment.Moment]: an instant in milliseconds since the epoch, or an
    invalid date. *)
Inductive Moment : Type :=
| InvalidDate
| Instant (ms : Z).

(** [m.isValid()] *)
Definition isValid (m : Moment) : bool :=
  match m with Instant _ => true | InvalidDate => false end.

(** [m.isBetween(from, to)] with the default inclusivity ["()"]: false when
    one of the three is invalid, else [m.isAfter(from) && m.isBefore(to)],
    both of which compare [valueOf()] strictly. *)
Definition isBetween (m from to : Moment) : bool :=
  match m, from, to with
  | Instant t, Instant a, Instant b => (a <? t)%Z && (t <? b)%Z
  | _, _, _ => false
  end.

Record SalesData : Type := {
  id : string;
  date : Moment;
  revenue : Js.number;
  orders : Js.number;
  customerId : string;
  productId : string;
  productName : option string;
  category : string;
  region : string
}.

Record ProductMetrics : Type := {
  pm_productId : string;
  name : string;
  pm_category : string;
  pm_totalRevenue : Js.number;
  pm_totalOrders : nat;
  pm_averageOrderValue : Js.number;
  pm_conversionRate : Js.number
}.

Record PeriodComparison : Type := {
  pc_revenue : Js.number;
  pc_orders : Js.number;
  pc_customers : Js.number
}.

Record DashboardMetrics : Type := {
  totalRevenue : Js.number;
  totalOrders : nat;
  averageOrderValue : Js.number;
  customerCount : nat;
  conversionRate : Js.number;
  periodComparison : PeriodComparison
}.

Record DateRange : Type := { start : Moment; end_ : Moment }.

Record FilterOptions : Type := {
  dateRange : DateRange;
  regions : list string;
  categories : list string;
  customerSegments : list string
}.

(** [TimeSeriesData | ChartDataPoint]: the chart input.  [x] of a chart
    point is a number or a moment. *)
Inductive XCoord : Type :=
| XNumber (n : Js.number)
| XMoment (m : Moment).

Inductive ChartDatum : Type :=
| TimeSeriesData (timestamp : Moment) (value : Js.number)
| ChartDataPoint (x : XCoord) (y : Js.number) (label : option string).

Record CustomerSegment : Type := {
  segmentId : string;
  cs_name : string;
  cs_customerCount : Js.number;
  cs_totalRevenue : Js.number;
  averageLifetimeValue : Js.number;
  retentionRate : Js.number
}.

Record RegionalPerformance : Type := {
  rp_region : string;
  rp_revenue : Js.number;
  rp_orders : nat;
  customers : nat;
  growthRate : Js.number
}.

(** [m.valueOf()]: NaN for an invalid date. *)
Definition valueOf (m : Moment) : Js.number :=
  match m with
  | Instant ms => Js.Fin (inject_Z ms)
  | InvalidDate => Js.NaN
  end.

End Models.

(** ** CsvImportService (src/app/services/csv-import.service.ts) *)

Module CsvImportService.
Import Models.

Definition newline : ascii := ascii_of_nat 10.
Definition comma : ascii := ascii_of_nat 44.
Definition dquote : ascii := ascii_of_nat 34.

(** The loop of [parseCsvLine]: [result], [current] and [inQuotes] are the
    three locals, [line] is what is left to scan. *)
Fixpoint parseCsvLine_from (line : string) (result : list string)
    (current : string) (inQuotes : bool) : list string :=
  match line with
  | EmptyString => result ++ [Js.trim current]
  | String char rest =>
      if Ascii.eqb char dquote then
        parseCsvLine_from rest result current (negb inQuotes)
      else if Ascii.eqb char comma && negb inQuotes then
        parseCsvLine_from rest (result ++ [Js.trim current]) EmptyString inQuotes
      else
        parseCsvLine_from rest result (current ++ String char EmptyString)%string inQuotes
  end.

Definition parseCsvLine (line : string) : list string :=
  parseCsvLine_from line [] EmptyString false.

(** [isValidSalesData]: [data.date] is an object, hence truthy, and
    [typeof data.revenue] is ['number'] for every [number]. *)
Definition isValidSalesData (data : SalesData) : bool :=
  Js.nonempty (id data)
  && isValid (date data)
  && Js.geb (revenue data) Js.zero
  && Js.nonempty (customerId data)
  && Js.nonempty (productId data)
  && Js.nonempty (category data)
  && Js.nonempty (region data).

(** The members [Object.prototype] gives every plain object. *)
Definition objectPrototype : list string :=
  ["constructor"; "__defineGetter__"; "__defineSetter__"; "hasOwnProperty";
   "__lookupGetter__"; "__lookupSetter__"; "isPrototypeOf";
   "propertyIsEnumerable"; "toString"; "valueOf"; "__proto__"; "toLocaleString"].

(** The row object [{}] is the map of its own properties, each holding a
    string or [undefined] ([None]).  Reading a property gives a string,
    [undefined], or the member of [Object.prototype] of that name. *)
Inductive PropertyValue : Type :=
| StringValue (value : string)
| UndefinedValue
| PrototypeMember (name : string).

(** [row[key]]: the own property when the row has one, otherwise what
    [Object.prototype] has under that name. *)
Definition getProperty (row : gmap string (option string)) (key : string) : PropertyValue :=
  match row !! key with
  | Some (Some value) => StringValue value
  | Some None => UndefinedValue
  | None =>
      if Js.set_has String.eqb objectPrototype key then PrototypeMember key
      else UndefinedValue
  end.

(** [row.key] for a [key] that [Object.prototype] does not define: the own
    string, or [undefined]. *)
Definition field (row : gmap string (option string)) (key : string) : option string :=
  match row !! key with
  | Some value => value
  | None => None
  end.

(** [row[header] = value] on a plain object: an own property is created or
    overwritten, also with [undefined]; [__proto__] is an accessor of
    [Object.prototype] whose setter ignores a string and [undefined]. *)
Definition assign (row : gmap string (option string)) (header : string)
    (value : option string) : gmap string (option string) :=
  if String.eqb header "__proto__" then row
  else <[header := value]> row.

(** [headers.forEach((header, index) => { row[header] = values[index]; })]
    from position [index] on. *)
Fixpoint forEach_assign (headers : list string) (index : nat)
    (values : list string) (row : gmap string (option string)) : gmap string (option string) :=
  match headers with
  | [] => row
  | header :: headers' =>
      forEach_assign headers' (S index) values (assign row header (values !! index))
  end.

Definition buildRow (headers values : list string) : gmap string (option string) :=
  forEach_assign headers 0 values ∅.

(** The warnings the parser itself writes with [console.warn], one for each
    row it skips.  What the date library writes to the console on its own
    (moment's deprecation notice for a date that is neither ISO 8601 nor
    RFC 2822) is not part of this list. *)
Inductive ParserWarning : Type :=
| WarnColumnCountMismatch (lineNumber : nat)
| WarnInvalidData (lineNumber : nat) (salesItem : SalesData).

(** The two locals the loop of [parseCsvToSalesData] updates. *)
Record ParseState : Type := {
  salesData : list SalesData;
  warnings : list ParserWarning
}.

(** [csvText.split('\n').filter((line) => line.trim() !== '')] *)
Definition nonBlankLines (csvText : string) : list string :=
  List.filter (fun line => negb (String.eqb (Js.trim line) EmptyString))
              (Js.split newline csvText).

Section Parser.
(** The date library is a collaborator: [momentParse s] is [moment(s)] for
    a non-empty string [s], and [clock i] is the instant [moment()] returns
    while row [i] is processed. *)
Variable momentParse : string -> Moment.
Variable clock : nat -> Z.

(** [moment(row.date)]: [moment(undefined)] is the current instant and
    [moment('')] is invalid. *)
Definition moment (i : nat) (input : option string) : Moment :=
  match input with
  | None => Instant (clock i)
  | Some EmptyString => InvalidDate
  | Some s => momentParse s
  end.

(** The object literal [salesItem] of row [i].  None of the eight names it
    reads is a member of [Object.prototype], so each read is [field]. *)
Definition salesItem (i : nat) (row : gmap string (option string)) : SalesData :=
  {| id := Js.str_or (field row "id") ("order_" ++ Js.of_index i)%string;
     date := moment i (field row "date");
     revenue := Js.or_else (Js.parseFloat (Js.to_string (field row "revenue"))) Js.zero;
     orders := Js.or_else (Js.parseInt (Js.to_string (field row "orders"))) Js.one;
     customerId := Js.str_or (field row "customerId") ("customer_" ++ Js.of_index i)%string;
     productId := Js.str_or (field row "productId") ("product_" ++ Js.of_index i)%string;
     productName := None;
     category := Js.str_or (field row "category") "Unknown";
     region := Js.str_or (field row "region") "Unknown" |}.

(** The body of the [for] loop at index [i].  No operation of the [try]
    block throws on strings, so its [catch] arm is never entered. *)
Definition parseRow (headers : list string) (i : nat) (line : string)
    (st : ParseState) : ParseState :=
  let values := parseCsvLine line in
  if negb (length values =? length headers)%nat then
    {| salesData := salesData st;
       warnings := warnings st ++ [WarnColumnCountMismatch (i + 1)] |}
  else
    let item := salesItem i (buildRow headers values) in
    if isValidSalesData item then
      {| salesData := salesData st ++ [item]; warnings := warnings st |}
    else
      {| salesData := salesData st;
         warnings := warnings st ++ [WarnInvalidData (i + 1) item] |}.

(** [for (let i = ...; i < lines.length; i++)] over [lines[i..]]. *)
Fixpoint parseRows (headers : list string) (i : nat) (lines : list string)
    (st : ParseState) : ParseState :=
  match lines with
  | [] => st
  | line :: lines' => parseRows headers (S i) lines' (parseRow headers i line st)
  end.

(** [parseCsvToSalesData] with what it logs.  When no line is left after
    the filter, [lines[0]] is [undefined] and [.split] throws. *)
Definition parseCsv (csvText : string) : Js.outcome ParseState :=
  match nonBlankLines csvText with
  | [] => Js.Thrown (Js.TypeError "Cannot read properties of undefined (reading 'split')")
  | header :: rows =>
      let headers := map Js.trim (Js.split comma header) in
      Js.Returned (parseRows headers 1 rows {| salesData := []; warnings := [] |})
  end.

Definition parseCsvToSalesData (csvText : string) : Js.outcome (list SalesData) :=
  match parseCsv csvText with
  | Js.Returned st => Js.Returned (salesData st)
  | Js.Thrown e => Js.Thrown e
  end.

(** [loadSalesDataFromCsv]: [http.get(path, {responseType: 'text'})] piped
    through [map]; a projection that throws becomes an error
    notification. *)
Definition loadSalesDataFromCsv (response : Js.notification string)
    : Js.notification (list SalesData) :=
  match response with
  | Js.Next csvText =>
      match parseCsvToSalesData csvText with
      | Js.Returned data => Js.Next data
      | Js.Thrown e => Js.ErrorNotification e
      end
  | Js.ErrorNotification e => Js.ErrorNotification e
  end.

(** [parseUploadedFile]: [reader.onload] parses the text and resolves, or
    rejects with what the parser threw; [reader.onerror] rejects. *)
Definition parseUploadedFile (read : option string) : Js.settled (list SalesData) :=
  match read with
  | Some csvText =>
      match parseCsvToSalesData csvText with
      | Js.Returned data => Js.Resolved data
      | Js.Thrown e => Js.Rejected e
      end
  | None => Js.Rejected (Js.Error "Failed to read file")
  end.
End Parser.

(** [generateSampleCsvContent] *)
Definition sampleHeaders : list string :=
  ["id"; "date"; "revenue"; "orders"; "customerId"; "productId"; "productName";
   "category"; "region"].

Definition sampleRows : list (list string) :=
  [ ["order_001"; "2025-10-01"; "125.99"; "1"; "customer_1001"; "product_501";
     "Wireless Headphones"; "Electronics"; "North America"];
    ["order_002"; "2025-10-01"; "89.50"; "1"; "customer_1002"; "product_502";
     "Cotton T-Shirt"; "Clothing"; "Europe"];
    ["order_003"; "2025-10-02"; "234.75"; "1"; "customer_1003"; "product_503";
     "Garden Tools"; "Home & Garden"; "Asia Pacific"];
    ["order_004"; "2025-10-02"; "67.25"; "1"; "customer_1004"; "product_504";
     "Running Shoes"; "Sports"; "North America"];
    ["order_005"; "2025-10-03"; "29.99"; "1"; "customer_1005"; "product_505";
     "Programming Book"; "Books"; "Europe"];
    ["order_006"; "2025-10-06"; "29.99"; "1"; "customer_1005"; "product_505";
     "Programming Book"; "Books"; "Europe"] ].

Definition generateSampleCsvContent : string :=
  Js.join newline (Js.join comma sampleHeaders :: map (Js.join comma) sampleRows).

End CsvImportService.

(** ** AnalyticsDataService (src/app/services/analytics-data.service.ts) *)

Module AnalyticsDataService.
Import Models.

(** [xs.includes(x)] on strings. *)
Definition includes (xs : list string) (x : string) : bool :=
  existsb (String.eqb x) xs.

(** [applyFilters]; the [console.log] of the callback does not take part in
    the result. *)
Definition applyFilters (data : list SalesData) (filters : FilterOptions)
    : list SalesData :=
  List.filter
    (fun item =>
       let dateInRange :=
         isBetween (date item) (start (dateRange filters)) (end_ (dateRange filters)) in
       let regionMatch :=
         (length (regions filters) =? 0)%nat || includes (regions filters) (region item) in
       let categoryMatch :=
         (length (categories filters) =? 0)%nat
         || includes (categories filters) (category item) in
       dateInRange && regionMatch && categoryMatch)
    data.

Definition calculateDashboardMetrics (data : list SalesData) : DashboardMetrics :=
  let totalRevenue := fold_left (fun sum item => Js.add sum (revenue item)) data Js.zero in
  let totalOrders := length data in
  let uniqueCustomers := length (Js.set_of String.eqb (map customerId data)) in
  {| totalRevenue := totalRevenue;
     totalOrders := totalOrders;
     averageOrderValue :=
       if (0 <? totalOrders)%nat then Js.div totalRevenue (Js.of_nat totalOrders)
       else Js.zero;
     customerCount := uniqueCustomers;
     conversionRate := Js.literal 0.045;
     periodComparison :=
       {| pc_revenue := Js.literal 0.12; pc_orders := Js.literal 0.08;
          pc_customers := Js.literal 0.15 |} |}.

(** *** [Map<string, V>] in insertion order *)

Section JsMap.
Context {V : Type}.

Fixpoint map_get (m : list (string * V)) (key : string) : option V :=
  match m with
  | [] => None
  | (k, v) :: m' => if String.eqb k key then Some v else map_get m' key
  end.

Definition map_has (m : list (string * V)) (key : string) : bool :=
  match map_get m key with Some _ => true | None => false end.

(** [m.set(key, value)]: an existing key keeps its position. *)
Fixpoint map_set (m : list (string * V)) (key : string) (value : V)
    : list (string * V) :=
  match m with
  | [] => [(key, value)]
  | (k, v) :: m' =>
      if String.eqb k key then (k, value) :: m' else (k, v) :: map_set m' key value
  end.

(** [Array.from(m.values())] *)
Definition map_values (m : list (string * V)) : list V := map snd m.
End JsMap.

(** [s.startsWith(p)] *)
Definition startsWith (s p : string) : bool := String.prefix p s.

(** ToBoolean on an optional string. *)
Definition truthy_opt (v : option string) : bool :=
  match v with Some s => Js.nonempty s | None => false end.

Section ProductMetrics.
(** [random k] is what the [k]-th call of [Math.random()] returns. *)
Variable random : nat -> Js.number.

(** The callback of [data.forEach] in [calculateProductMetrics]; the state
    is the map and the number of calls of [Math.random()] so far.  The
    object [productMap.get] returns is updated in place. *)
Definition addToProduct (st : list (string * ProductMetrics) * nat)
    (item : SalesData) : list (string * ProductMetrics) * nat :=
  let '(productMap, calls) := st in
  let '(productMap, calls) :=
    if negb (map_has productMap (productId item)) then
      (map_set productMap (productId item)
         {| pm_productId := productId item;
            name := ("Product " ++ productId item)%string;
            pm_category := category item;
            pm_totalRevenue := Js.zero;
            pm_totalOrders := 0;
            pm_averageOrderValue := Js.zero;
            pm_conversionRate :=
              Js.add (Js.mul (random calls) (Js.literal 0.1)) (Js.literal 0.02) |},
       S calls)
    else (productMap, calls) in
  match map_get productMap (productId item) with
  | None => (productMap, calls)
  | Some product =>
      let totalRevenue := Js.add (pm_totalRevenue product) (revenue item) in
      let totalOrders := (pm_totalOrders product + 1)%nat in
      (map_set productMap (productId item)
         {| pm_productId := pm_productId product;
            name :=
              match productName item with
              | Some actual =>
                  if Js.nonempty actual && startsWith (name product) "Product "
                  then actual else name product
              | None => name product
              end;
            pm_category := pm_category product;
            pm_totalRevenue := totalRevenue;
            pm_totalOrders := totalOrders;
            pm_averageOrderValue := Js.div totalRevenue (Js.of_nat totalOrders);
            pm_conversionRate := pm_conversionRate product |},
       calls)
  end.

Definition calculateProductMetrics (data : list SalesData) : list ProductMetrics :=
  map_values (fst (fold_left addToProduct data ([], 0%nat))).
End ProductMetrics.

(** *** The service as a state machine *)

Inductive ServiceLog : Type :=
| WarnSampleLoadFailed (error : Js.exception).

(** The two [BehaviorSubject]s and what the service has sent to the console. *)
Record Service : Type := {
  salesDataSubject : list SalesData;
  filtersSubject : FilterOptions;
  serviceConsole : list ServiceLog
}.

Definition next_salesData (svc : Service) (data : list SalesData) : Service :=
  {| salesDataSubject := data;
     filtersSubject := filtersSubject svc;
     serviceConsole := serviceConsole svc |}.

Definition warn (svc : Service) (entry : ServiceLog) : Service :=
  {| salesDataSubject := salesDataSubject svc;
     filtersSubject := filtersSubject svc;
     serviceConsole := serviceConsole svc ++ [entry] |}.

Definition msPerDay : Z := 86400000.

Section Imports.
Variable momentParse : string -> Moment.
Variable clock : nat -> Z.

(** [http path] is what [HttpClient.get(path)] delivers, [readFile file]
    is what the [FileReader] reads from the file with that name. *)
Variable http : string -> Js.notification string.
Variable readFile : string -> option string.

(** [loadSampleDataFromAssets]: [catchError] replaces a failed load by
    [of([])] after a warning; the subscriber stores what arrives. *)
Definition loadSampleDataFromAssets (svc : Service) : Service :=
  match CsvImportService.loadSalesDataFromCsv momentParse clock
          (http "/assets/sample-sales-data.csv") with
  | Js.Next data => next_salesData svc data
  | Js.ErrorNotification error =>
      next_salesData (warn svc (WarnSampleLoadFailed error)) []
  end.

(** The field initialisers and the constructor, at instant [now]. *)
Definition construct (now : Z) : Service :=
  loadSampleDataFromAssets
    {| salesDataSubject := [];
       filtersSubject :=
         {| dateRange := {| start := Instant (now - 30 * msPerDay); end_ := Instant now |};
            regions := []; categories := []; customerSegments := [] |};
       serviceConsole := [] |}.

(** [importSalesDataFromCsv(path).subscribe(...)]: the projection of [map]
    runs on a value only; an error goes to the subscriber untouched. *)
Definition importSalesDataFromCsv (csvFilePath : string) (svc : Service)
    : Service * Js.notification (list SalesData) :=
  match CsvImportService.loadSalesDataFromCsv momentParse clock (http csvFilePath) with
  | Js.Next data => (next_salesData svc data, Js.Next data)
  | Js.ErrorNotification e => (svc, Js.ErrorNotification e)
  end.

(** [importSalesDataFromFile(file)]: [await] rethrows a rejection before
    the subject is touched. *)
Definition importSalesDataFromFile (file : string) (svc : Service)
    : Service * Js.settled (list SalesData) :=
  match CsvImportService.parseUploadedFile momentParse clock (readFile file) with
  | Js.Resolved data => (next_salesData svc data, Js.Resolved data)
  | Js.Rejected e => (svc, Js.Rejected e)
  end.
End Imports.

(** *** Filters *)

(** A [Partial<FilterOptions>]: a property is present with a value, or
    absent. *)
Record PartialFilterOptions : Type := {
  p_dateRange : option DateRange;
  p_regions : option (list string);
  p_categories : option (list string);
  p_customerSegments : option (list string)
}.

(** [{ ...currentFilters, ...filters }] *)
Definition spread (currentFilters : FilterOptions) (filters : PartialFilterOptions)
    : FilterOptions :=
  {| dateRange := default (dateRange currentFilters) (p_dateRange filters);
     regions := default (regions currentFilters) (p_regions filters);
     categories := default (categories currentFilters) (p_categories filters);
     customerSegments :=
       default (customerSegments currentFilters) (p_customerSegments filters) |}.

Definition updateFilters (filters : PartialFilterOptions) (svc : Service) : Service :=
  {| salesDataSubject := salesDataSubject svc;
     filtersSubject := spread (filtersSubject svc) filters;
     serviceConsole := serviceConsole svc |}.

(** What [filteredSalesData$] holds: [combineLatest] of the two subjects
    through [applyFilters]. *)
Definition filteredSalesData (svc : Service) : list SalesData :=
  applyFilters (salesDataSubject svc) (filtersSubject svc).

(** *** Regions, segments and time series *)

(** The object [calculateRegionalPerformance] keeps per region. *)
Record RegionEntry : Type := {
  re_region : string;
  re_revenue : Js.number;
  re_orders : nat;
  re_customers : list string;
  re_growthRate : Js.number
}.

Section Aggregates.
(** [random k] is what the [k]-th call of [Math.random()] returns. *)
Variable random : nat -> Js.number.

(** The callback of [data.forEach] in [calculateRegionalPerformance]; the
    state is the map and the number of calls of [Math.random()] so far. *)
Definition addToRegion (st : list (string * RegionEntry) * nat) (item : SalesData)
    : list (string * RegionEntry) * nat :=
  let '(regionMap, calls) := st in
  let '(regionMap, calls) :=
    if negb (map_has regionMap (region item)) then
      (map_set regionMap (region item)
         {| re_region := region item;
            re_revenue := Js.zero;
            re_orders := 0;
            re_customers := [];
            re_growthRate :=
              Js.sub (Js.mul (random calls) (Js.literal 0.4)) (Js.literal 0.1) |},
       S calls)
    else (regionMap, calls) in
  match map_get regionMap (region item) with
  | None => (regionMap, calls)
  | Some entry =>
      (map_set regionMap (region item)
         {| re_region := re_region entry;
            re_revenue := Js.add (re_revenue entry) (revenue item);
            re_orders := (re_orders entry + 1)%nat;
            re_customers := Js.set_add String.eqb (re_customers entry) (customerId item);
            re_growthRate := re_growthRate entry |},
       calls)
  end.

(** [{ ...region, customers: region.customers.size }] *)
Definition toRegionalPerformance (entry : RegionEntry) : RegionalPerformance :=
  {| rp_region := re_region entry;
     rp_revenue := re_revenue entry;
     rp_orders := re_orders entry;
     customers := length (re_customers entry);
     growthRate := re_growthRate entry |}.

Definition calculateRegionalPerformance (data : list SalesData)
    : list RegionalPerformance :=
  map toRegionalPerformance (map_values (fst (fold_left addToRegion data ([], 0%nat)))).

Definition segments : list string := ["High Value"; "Regular"; "New Customer"; "At Risk"].

(** The callback of [segments.map]: the four calls of [Math.random()] of
    the segment at [index] are the calls [4 * index] to [4 * index + 3], in
    the order of the properties. *)
Definition toSegment (index : nat) (segment : string) : CustomerSegment :=
  {| segmentId := ("segment_" ++ Js.of_index index)%string;
     cs_name := segment;
     cs_customerCount :=
       Js.add (Js.floor (Js.mul (random (4 * index)) (Js.Fin 1000))) (Js.Fin 100);
     cs_totalRevenue :=
       Js.add (Js.floor (Js.mul (random (4 * index + 1)) (Js.Fin 100000))) (Js.Fin 10000);
     averageLifetimeValue :=
       Js.add (Js.floor (Js.mul (random (4 * index + 2)) (Js.Fin 5000))) (Js.Fin 500);
     retentionRate :=
       Js.add (Js.mul (random (4 * index + 3)) (Js.literal 0.3)) (Js.literal 0.6) |}.

(** [calculateCustomerSegments]; the data is not looked at. *)
Definition calculateCustomerSegments (data : list SalesData) : list CustomerSegment :=
  map (fun '(index, segment) => toSegment index segment)
      (combine (seq 0 (length segments)) segments).
End Aggregates.

(** The entry [aggregateTimeSeriesData] keeps per time key. *)
Record TimeEntry : Type := { te_value : Js.number; te_count : nat }.

Section TimeSeries.
(** The date library and the array sort are collaborators:
    [format m f] is [m.format(f)], [startOfWeek m] is
    [m.clone().startOf('week')], [momentParse s] is [moment(s)] for a
    non-empty string, and [arraySort compare xs] is [xs.sort(compare)]. *)
Variable format : Moment -> string -> string.
Variable startOfWeek : Moment -> Moment.
Variable momentParse : string -> Moment.
Variable arraySort : (ChartDatum -> ChartDatum -> Js.number) -> list ChartDatum -> list ChartDatum.

Definition getTimeKey (date : Moment) (granularity : string) : string :=
  if String.eqb granularity "hour" then format date "YYYY-MM-DD HH"
  else if String.eqb granularity "day" then format date "YYYY-MM-DD"
  else if String.eqb granularity "week" then format (startOfWeek date) "YYYY-MM-DD"
  else if String.eqb granularity "month" then format date "YYYY-MM"
  else format date "YYYY-MM-DD".

(** The callback of [data.forEach] in [aggregateTimeSeriesData]. *)
Definition addToBucket (metric granularity : string)
    (timeMap : list (string * TimeEntry)) (item : SalesData)
    : list (string * TimeEntry) :=
  let timeKey := getTimeKey (date item) granularity in
  let timeMap :=
    if negb (map_has timeMap timeKey)
    then map_set timeMap timeKey {| te_value := Js.zero; te_count := 0 |}
    else timeMap in
  match map_get timeMap timeKey with
  | None => timeMap
  | Some entry =>
      map_set timeMap timeKey
        {| te_value :=
             Js.add (te_value entry)
                    (if String.eqb metric "revenue" then revenue item else Js.one);
           te_count := (te_count entry + 1)%nat |}
  end.

(** [moment(timeKey)] *)
Definition momentOfKey (timeKey : string) : Moment :=
  match timeKey with
  | EmptyString => InvalidDate
  | _ => momentParse timeKey
  end.

(** The timestamp of an element of the series. *)
Definition timestampOf (item : ChartDatum) : Moment :=
  match item with
  | TimeSeriesData timestamp _ => timestamp
  | ChartDataPoint _ _ _ => InvalidDate
  end.

(** [(a, b) => a.timestamp.valueOf() - b.timestamp.valueOf()] *)
Definition byTimestamp (a b : ChartDatum) : Js.number :=
  Js.sub (valueOf (timestampOf a)) (valueOf (timestampOf b)).

(** The series before it is sorted: [Array.from(timeMap.entries()).map(...)] *)
Definition timeSeriesOf (timeMap : list (string * TimeEntry)) : list ChartDatum :=
  map (fun '(timeKey, entry) => TimeSeriesData (momentOfKey timeKey) (te_value entry))
      timeMap.

Definition aggregateTimeSeriesData (data : list SalesData) (metric granularity : string)
    : list ChartDatum :=
  arraySort byTimestamp
    (timeSeriesOf (fold_left (addToBucket metric granularity) data [])).

(** What [getTimeSeriesData(metric, granularity)] emits for the service. *)
Definition getTimeSeriesData (metric granularity : string) (svc : Service)
    : list ChartDatum :=
  aggregateTimeSeriesData (filteredSalesData svc) metric granularity.
End TimeSeries.

Definition clearData (svc : Service) : Service := next_salesData svc [].

End AnalyticsDataService.

(** ** VirtualizedChartComponent.virtualizeData
       (src/app/components/virtualized-chart/virtualized-chart.component.ts) *)

Module VirtualizedChartComponent.
Import Models.

(** ['value' in item ? item.value : item.y] *)
Definition valueOfDatum (item : ChartDatum) : Js.number :=
  match item with
  | TimeSeriesData _ value => value
  | ChartDataPoint _ y _ => y
  end.

Definition min2 (a b : Js.number) : Js.number :=
  match a, b with
  | Js.NaN, _ | _, Js.NaN => Js.NaN
  | _, _ => if Js.leb a b then a else b
  end.

Definition max2 (a b : Js.number) : Js.number :=
  match a, b with
  | Js.NaN, _ | _, Js.NaN => Js.NaN
  | _, _ => if Js.leb a b then b else a
  end.

(** [Math.min(...values)]: +Infinity for no argument, NaN when an argument
    is NaN. *)
Definition Math_min (values : list Js.number) : Js.number :=
  fold_left min2 values Js.PInf.

(** [Math.max(...values)] *)
Definition Math_max (values : list Js.number) : Js.number :=
  fold_left max2 values Js.NInf.

Fixpoint indexOf_from (values : list Js.number) (target : Js.number) (i : Z) : Z :=
  match values with
  | [] => (-1)%Z
  | v :: values' =>
      if Js.strict_eq v target then i else indexOf_from values' target (i + 1)%Z
  end.

(** [values.indexOf(target)] *)
Definition indexOf (values : list Js.number) (target : Js.number) : Z :=
  indexOf_from values target 0%Z.

(** [chunk[index]]: [undefined] outside of the array. *)
Definition at_index (chunk : list ChartDatum) (index : Z) : option ChartDatum :=
  if (index <? 0)%Z then None else nth_error chunk (Z.to_nat index).

(** [data.slice(from, to)] for [from <= to]. *)
Definition slice (data : list ChartDatum) (from to : nat) : list ChartDatum :=
  firstn (to - from) (skipn from data).

(** [new Set([0, minIndex, maxIndex, chunk.length - 1])] *)
Definition indicesToAdd (chunk : list ChartDatum) : list Z :=
  let values := map valueOfDatum chunk in
  let minIndex := indexOf values (Math_min values) in
  let maxIndex := indexOf values (Math_max values) in
  Js.set_of Z.eqb [0%Z; minIndex; maxIndex; (Z.of_nat (length chunk) - 1)%Z].

(** What one iteration pushes for its chunk; an entry [None] is an
    [undefined] element. *)
Definition pushChunk (virtualizedData : list (option ChartDatum))
    (chunk : list ChartDatum) : list (option ChartDatum) :=
  if (length chunk =? 1)%nat then virtualizedData ++ [at_index chunk 0]
  else
    fold_left
      (fun out index =>
         if (index <? Z.of_nat (length chunk))%Z then out ++ [at_index chunk index]
         else out)
      (indicesToAdd chunk) virtualizedData.

(** [for (let i = ...; i < data.length; i += step)], at most [fuel]
    iterations. *)
Fixpoint sampleFrom (fuel : nat) (data : list ChartDatum) (step i : nat)
    (virtualizedData : list (option ChartDatum)) : list (option ChartDatum) :=
  match fuel with
  | O => virtualizedData
  | S fuel' =>
      if (i <? length data)%nat then
        let chunk := slice data i (Nat.min (i + step) (length data)) in
        sampleFrom fuel' data step (i + step) (pushChunk virtualizedData chunk)
      else virtualizedData
  end.

(** [Math.ceil(n / m)] on non-negative integers.  [n / 0] is +Infinity for
    [n > 0]; a step of [n] slices and advances like an infinite one. *)
Definition ceilDiv (n m : nat) : nat :=
  if (m =? 0)%nat then n else ((n + m - 1) / m)%nat.

(** [virtualizeData] with [this.maxDataPoints], a non-negative integer, as
    an argument.  The step is at least 1 where the loop runs, so
    [data.length] iterations are enough (see [sampleFrom_fuel]). *)
Definition virtualizeData (maxDataPoints : nat) (data : list ChartDatum)
    : list (option ChartDatum) :=
  if (length data <=? maxDataPoints)%nat then map Some data
  else
    let step := ceilDiv (length data) maxDataPoints in
    sampleFrom (length data) data step 0 [].

(** *** Feeding the chart *)

(** A point in the format of Chart.js. *)
Record Point : Type := { px : Js.number; py : Js.number }.

(** The component: the points of [chart.data.datasets[0].data] when there
    is a chart, and the two inputs. *)
Record Component : Type := {
  chart : option (list Point);
  data : list ChartDatum;
  maxDataPoints : nat
}.

(** The callback of [virtualizedData.map] on an element. *)
Definition toPoint (item : ChartDatum) : Point :=
  match item with
  | TimeSeriesData timestamp value => {| px := valueOf timestamp; py := value |}
  | ChartDataPoint x y _ =>
      {| px := match x with XNumber n => n | XMoment m => valueOf m end; py := y |}
  end.

(** [virtualizedData.map(...)]: ['timestamp' in item] throws on an
    [undefined] entry. *)
Fixpoint toChartData (virtualizedData : list (option ChartDatum))
    : Js.outcome (list Point) :=
  match virtualizedData with
  | [] => Js.Returned []
  | None :: _ =>
      Js.Thrown
        (Js.TypeError "Cannot use 'in' operator to search for 'timestamp' in undefined")
  | Some item :: rest =>
      match toChartData rest with
      | Js.Returned points => Js.Returned (toPoint item :: points)
      | Js.Thrown e => Js.Thrown e
      end
  end.

Definition updateChartData (c : Component) : Js.outcome Component :=
  match chart c, data c with
  | None, _ | _, [] => Js.Returned c
  | Some _, _ :: _ =>
      match toChartData (virtualizeData (maxDataPoints c) (data c)) with
      | Js.Returned chartData =>
          Js.Returned {| chart := Some chartData; data := data c;
                         maxDataPoints := maxDataPoints c |}
      | Js.Thrown e => Js.Thrown e
      end
  end.

End VirtualizedChartComponent.

(** ** DataImportComponent
       (src/app/components/data-import/data-import.component.ts) *)

Module DataImportComponent.
Import Models.

Record ImportStats : Type := {
  recordsImported : nat;
  is_dateRange : string;
  is_totalRevenue : Js.number;
  uniqueProducts : nat
}.

(** A [File]: its name and its size in bytes. *)
Record File : Type := { file_name : string; file_size : N }.

(** The signals of the component and what it has shown in the snack bar,
    message and duration. *)
Record Component : Type := {
  isDragOver : bool;
  isUploading : bool;
  uploadedFileName : option string;
  importStats : option ImportStats;
  snackBar : list (string * nat)
}.

Definition open (c : Component) (message : string) (duration : nat) : Component :=
  {| isDragOver := isDragOver c; isUploading := isUploading c;
     uploadedFileName := uploadedFileName c; importStats := importStats c;
     snackBar := snackBar c ++ [(message, duration)] |}.

Definition set_isUploading (c : Component) (value : bool) : Component :=
  {| isDragOver := isDragOver c; isUploading := value;
     uploadedFileName := uploadedFileName c; importStats := importStats c;
     snackBar := snackBar c |}.

Definition set_uploadedFileName (c : Component) (value : option string) : Component :=
  {| isDragOver := isDragOver c; isUploading := isUploading c;
     uploadedFileName := value; importStats := importStats c;
     snackBar := snackBar c |}.

Definition set_importStats (c : Component) (value : option ImportStats) : Component :=
  {| isDragOver := isDragOver c; isUploading := isUploading c;
     uploadedFileName := uploadedFileName c; importStats := value;
     snackBar := snackBar c |}.

Section Component.
(** Collaborators: the date library ([format m f] is [m.format(f)]), the
    array sort, the HTTP client and the file reader. *)
Variable momentParse : string -> Moment.
Variable clock : nat -> Z.
Variable format : Moment -> string -> string.
Variable arraySort : (Moment -> Moment -> Js.number) -> list Moment -> list Moment.
Variable http : string -> Js.notification string.
Variable readFile : string -> option string.

(** [(a, b) => a.valueOf() - b.valueOf()] *)
Definition byInstant (a b : Moment) : Js.number := Js.sub (valueOf a) (valueOf b).

Definition calculateImportStats (salesData : list SalesData) : ImportStats :=
  match salesData with
  | [] =>
      {| recordsImported := 0; is_dateRange := "No data"; is_totalRevenue := Js.zero;
         uniqueProducts := 0 |}
  | _ :: _ =>
      let dates := arraySort byInstant (map date salesData) in
      let startDate := nth_error dates 0 in
      let endDate := nth_error dates (length dates - 1) in
      {| recordsImported := length salesData;
         is_dateRange :=
           match startDate, endDate with
           | Some startDate, Some endDate =>
               (format startDate "MM/DD/YYYY" ++ " - " ++ format endDate "MM/DD/YYYY")%string
           | _, _ => EmptyString
           end;
         is_totalRevenue :=
           fold_left (fun sum item => Js.add sum (Js.or_else (revenue item) Js.zero))
                     salesData Js.zero;
         uniqueProducts := length (Js.set_of String.eqb (map productId salesData)) |}
  end.

Definition maxFileSize : N := 10 * 1024 * 1024.

(** [processFile], run to the end of its promise. *)
Definition processFile (file : File) (st : Component * AnalyticsDataService.Service)
    : Component * AnalyticsDataService.Service :=
  let '(c, svc) := st in
  if negb (Js.endsWith (Js.toLowerCase (file_name file)) ".csv") then
    (open c "Please select a CSV file" 3000, svc)
  else if (maxFileSize <? file_size file)%N then
    (open c "File size must be less than 10MB" 3000, svc)
  else
    let c := set_uploadedFileName (set_isUploading c true) (Some (file_name file)) in
    match AnalyticsDataService.importSalesDataFromFile momentParse clock readFile
            (file_name file) svc with
    | (svc, Js.Resolved salesData) =>
        let c := set_importStats c (Some (calculateImportStats salesData)) in
        let c :=
          open c ("Successfully imported " ++ Js.of_index (length salesData)
                  ++ " records")%string 5000 in
        (set_isUploading c false, svc)
    | (svc, Js.Rejected _) =>
        let c := open c "Error importing CSV file. Please check the format." 5000 in
        let c := set_uploadedFileName c None in
        (set_isUploading c false, svc)
    end.

(** [onFileSelected] and [onDrop] hand the first file, if there is one, to
    [processFile]. *)
Definition onFileSelected (files : list File)
    (st : Component * AnalyticsDataService.Service)
    : Component * AnalyticsDataService.Service :=
  match files with
  | file :: _ => processFile file st
  | [] => st
  end.

(** [loadSampleData], run to the end of the subscription: [complete]
    follows [next] and does not follow [error]. *)
Definition loadSampleData (st : Component * AnalyticsDataService.Service)
    : Component * AnalyticsDataService.Service :=
  let '(c, svc) := st in
  let c := set_isUploading c true in
  match AnalyticsDataService.importSalesDataFromCsv momentParse clock http
          "assets/sample-sales-data.csv" svc with
  | (svc, Js.Next data) =>
      let c := set_importStats c (Some (calculateImportStats data)) in
      let c := set_uploadedFileName c (Some "sample-sales-data.csv") in
      let c :=
        open c ("Sample data loaded: " ++ Js.of_index (length data) ++ " records")%string
             3000 in
      (set_isUploading c false, svc)
  | (svc, Js.ErrorNotification _) => (open c "Error loading sample data" 3000, svc)
  end.
End Component.

Definition clearData (st : Component * AnalyticsDataService.Service)
    : Component * AnalyticsDataService.Service :=
  let '(c, svc) := st in
  let c := set_importStats (set_uploadedFileName c None) None in
  (open c "Data cleared" 3000, AnalyticsDataService.clearData svc).

End DataImportComponent.

(** ** DashboardComponent (src/app/components/dashboard/dashboard.component.ts) *)

Module DashboardComponent.
Import Models.

Section Dashboard.
(** [subtractDays t n] is the instant of [moment(t).subtract(n, 'days')]. *)
Variable subtractDays : Z -> Z -> Z.

(** [onDateRangeChange]; [now] and [later] are the instants the two calls
    of [moment()] return. *)
Definition onDateRangeChange (dateRange : string) (now later : Z)
    (svc : AnalyticsDataService.Service) : AnalyticsDataService.Service :=
  let end_ := Instant now in
  let start :=
    if String.eqb dateRange "7days" then Instant (subtractDays later 7)
    else if String.eqb dateRange "30days" then Instant (subtractDays later 30)
    else if String.eqb dateRange "90days" then Instant (subtractDays later 90)
    else Instant (subtractDays later 30) in
  AnalyticsDataService.updateFilters
    {| AnalyticsDataService.p_dateRange := Some {| start := start; end_ := end_ |};
       AnalyticsDataService.p_regions := None;
       AnalyticsDataService.p_categories := None;
       AnalyticsDataService.p_customerSegments := None |}
    svc.
End Dashboard.

End DashboardComponent.

(** ** The aggregation loops, entry by entry *)

Module Aggregation.
Import Models AnalyticsDataService.

(** A product aggregate without its random conversion rate. *)
Definition productView (p : ProductMetrics) : ProductMetrics :=
  {| pm_productId := pm_productId p; name := name p; pm_category := pm_category p;
     pm_totalRevenue := pm_totalRevenue p; pm_totalOrders := pm_totalOrders p;
     pm_averageOrderValue := pm_averageOrderValue p; pm_conversionRate := Js.zero |}.

(** The aggregate [calculateProductMetrics] creates for the product of
    [item], seen through [productView]. *)
Definition productFirst (item : SalesData) : ProductMetrics :=
  {| pm_productId := productId item;
     name := ("Product " ++ productId item)%string;
     pm_category := category item;
     pm_totalRevenue := Js.zero;
     pm_totalOrders := 0;
     pm_averageOrderValue := Js.zero;
     pm_conversionRate := Js.zero |}.

(** The name of an aggregate after [item]. *)
Definition nextName (item : SalesData) (current : string) : string :=
  match productName item with
  | Some actual =>
      if Js.nonempty actual && startsWith current "Product " then actual else current
  | None => current
  end.

(** What [item] makes of the aggregate of its product. *)
Definition productNext (item : SalesData) (product : ProductMetrics) : ProductMetrics :=
  {| pm_productId := pm_productId product;
     name := nextName item (name product);
     pm_category := pm_category product;
     pm_totalRevenue := Js.add (pm_totalRevenue product) (revenue item);
     pm_totalOrders := (pm_totalOrders product + 1)%nat;
     pm_averageOrderValue :=
       Js.div (Js.add (pm_totalRevenue product) (revenue item))
              (Js.of_nat (pm_totalOrders product + 1));
     pm_conversionRate := pm_conversionRate product |}.

(** A region entry without its random growth rate. *)
Definition regionView (entry : RegionEntry) : RegionEntry :=
  {| re_region := re_region entry; re_revenue := re_revenue entry;
     re_orders := re_orders entry; re_customers := re_customers entry;
     re_growthRate := Js.zero |}.

Definition regionFirst (item : SalesData) : RegionEntry :=
  {| re_region := region item; re_revenue := Js.zero; re_orders := 0;
     re_customers := []; re_growthRate := Js.zero |}.

Definition regionNext (item : SalesData) (entry : RegionEntry) : RegionEntry :=
  {| re_region := re_region entry;
     re_revenue := Js.add (re_revenue entry) (revenue item);
     re_orders := (re_orders entry + 1)%nat;
     re_customers := Js.set_add String.eqb (re_customers entry) (customerId item);
     re_growthRate := re_growthRate entry |}.

(** What a record adds to its bucket of the time series. *)
Definition contribution (metric : string) (item : SalesData) : Js.number :=
  if String.eqb metric "revenue" then revenue item else Js.one.

Definition bucketNext (metric : string) (item : SalesData) (entry : TimeEntry)
    : TimeEntry :=
  {| te_value := Js.add (te_value entry) (contribution metric item);
     te_count := (te_count entry + 1)%nat |}.

(** The non-empty product names of [records], in their order. *)
Definition productNames (records : list SalesData) : list string :=
  flat_map (fun r => match productName r with
                     | Some actual => if Js.nonempty actual then [actual] else []
                     | None => []
                     end) records.

(** The name an aggregate ends with, from the product names of its records:
    the first that does not start with "Product ", else the last of them,
    else the name it started with. *)
Definition displayName (initial : string) (names : list string) : string :=
  match find (fun n => negb (startsWith n "Product ")) names with
  | Some actual => actual
  | None => List.last names initial
  end.

(** The time key of a record. *)
Definition timeKeyOf (format : Moment -> string -> string)
    (startOfWeek : Moment -> Moment) (granularity : string) (r : SalesData) : string :=
  getTimeKey format startOfWeek (date r) granularity.

(** The records of [data] with the time key [timeKey]. *)
Definition ofBucket (format : Moment -> string -> string)
    (startOfWeek : Moment -> Moment) (granularity timeKey : string)
    (data : list SalesData) : list SalesData :=
  List.filter (fun r => String.eqb (timeKeyOf format startOfWeek granularity r) timeKey)
              data.

(** The value of the point of a bucket: the revenue of its records for the
    metric "revenue", their number for every other metric. *)
Definition bucketValue (metric : string) (records : list SalesData) : Js.number :=
  if String.eqb metric "revenue" then totalRevenue (calculateDashboardMetrics records)
  else Js.of_nat (length records).

(** [{ ...earlier, ...later }] on two partial filter objects: what two
    calls of [updateFilters] amount to. *)
Definition spreadPartial (earlier later : PartialFilterOptions) : PartialFilterOptions :=
  {| p_dateRange :=
       match p_dateRange later with Some v => Some v | None => p_dateRange earlier end;
     p_regions :=
       match p_regions later with Some v => Some v | None => p_regions earlier end;
     p_categories :=
       match p_categories later with Some v => Some v | None => p_categories earlier end;
     p_customerSegments :=
       match p_customerSegments later with
       | Some v => Some v
       | None => p_customerSegments earlier
       end |}.

(** The number of days [onDateRangeChange] goes back for a key. *)
Definition daysOf (dateRange : string) : Z :=
  if String.eqb dateRange "7days" then 7
  else if String.eqb dateRange "90days" then 90
  else 30.

(** The records of [data] with the product id [productId]. *)
Definition ofProduct (productId : string) (data : list SalesData) : list SalesData :=
  List.filter (fun r => String.eqb (Models.productId r) productId) data.

(** The records of [data] in the region [region]. *)
Definition ofRegion (region : string) (data : list SalesData) : list SalesData :=
  List.filter (fun r => String.eqb (Models.region r) region) data.

End Aggregation.

(** ** The specification's own words, for comparison with the code *)

Module Spec.
Import Models.

(** "date lies within [dateRange.start, dateRange.end] inclusive" *)
Definition withinRange (m : Moment) (range : DateRange) : bool :=
  match m, start range, end_ range with
  | Instant t, Instant a, Instant b => (a <=? t)%Z && (t <=? b)%Z
  | _, _, _ => false
  end.

(** "a record passes iff date lies within the range, AND (regions empty OR
    record.region in regions), AND (categories empty OR record.category in
    categories)" *)
Definition passes (filters : FilterOptions) (r : SalesData) : Prop :=
  withinRange (date r) (dateRange filters) = true
  /\ (regions filters = [] \/ In (region r) (regions filters))
  /\ (categories filters = [] \/ In (category r) (categories filters)).

(** "Σ": the sum of a sequence of numbers, taken from 0 in the order of the
    sequence.  Every addition rounds, so the order is part of the sum: the
    sums of 0.1, 0.2, 0.3 and of 0.3, 0.2, 0.1 differ. *)
Definition sum (xs : list Js.number) : Js.number := fold_left Js.add xs Js.zero.

(** [ids] lists the distinct values of [xs], each once. *)
Definition distinctValues (xs ids : list string) : Prop :=
  List.NoDup ids /\ forall x, In x ids <-> In x xs.

(** A mapped field that is absent from the row or blank in it. *)
Definition absentOrBlank (v : option string) : Prop :=
  v = None \/ v = Some EmptyString.

(** A numeric field that is absent from the row, or whose token the
    coercion [parse] does not read as a number. *)
Definition notNumeric (parse : string -> Js.number) (v : option string) : Prop :=
  v = None \/ exists token, v = Some token /\ parse token = Js.NaN.

(** The record the defaulting policy gives row [i] when only [date] is
    supplied. *)
Definition defaultRecord (i : nat) (date : Moment) : SalesData :=
  {| id := ("order_" ++ Js.of_index i)%string;
     date := date;
     revenue := Js.Fin 0;
     orders := Js.Fin 1;
     customerId := ("customer_" ++ Js.of_index i)%string;
     productId := ("product_" ++ Js.of_index i)%string;
     productName := None;
     category := "Unknown";
     region := "Unknown" |}.

(** "partition points into consecutive chunks of that size (last chunk may
    be shorter)" *)
Definition chunks (step : nat) (data : list ChartDatum) : list (list ChartDatum) :=
  map (fun k =>
         VirtualizedChartComponent.slice data (k * step)
           (Nat.min (k * step + step) (length data)))
      (seq 0 (VirtualizedChartComponent.ceilDiv (length data) step)).

(** A point whose ordinate is a number. *)
Definition numeric (item : ChartDatum) : Prop :=
  VirtualizedChartComponent.valueOfDatum item <> Js.NaN.

(** An order count as the parser leaves it: an infinity, or an integer
    other than 0. *)
Definition nonZeroCount (v : Js.number) : Prop :=
  v = Js.PInf \/ v = Js.NInf \/ exists z, v = Js.Fin (inject_Z z) /\ z <> 0%Z.

(** The fields of a row that the defaulting policy covers. *)
Definition defaultedFields : list string :=
  ["id"; "revenue"; "orders"; "customerId"; "productId"; "category"; "region"].

(** "sorted by timestamp": of two points the earlier in the list has the
    timestamp that is not the later one. *)
Definition chronological (points : list ChartDatum) : Prop :=
  StronglySorted
    (fun a b =>
       Js.leb (valueOf (AnalyticsDataService.timestampOf a))
              (valueOf (AnalyticsDataService.timestampOf b)) = true)
    points.

(** What [Array.prototype.sort] guarantees for the comparison by timestamp,
    which is consistent on points whose timestamps are valid dates: the
    elements of the array, in ascending order. *)
Definition sortsByTimestamp
    (arraySort : (ChartDatum -> ChartDatum -> Js.number)
                 -> list ChartDatum -> list ChartDatum) : Prop :=
  forall points,
    Forall (fun point => isValid (AnalyticsDataService.timestampOf point) = true) points ->
    Permutation points (arraySort AnalyticsDataService.byTimestamp points)
    /\ chronological (arraySort AnalyticsDataService.byTimestamp points).

(** A product aggregate that carries the default name. *)
Definition defaultName (p : ProductMetrics) : Prop :=
  name p = ("Product " ++ pm_productId p)%string.

End Spec.

(** ** Fixtures of the test suites *)

Module Fixtures.
Import Models.

(** Midnight UTC of a day of January 2024, as [moment('2024-01-dd')] gives
    it on a host in UTC. *)
Definition jan2024 (day : Z) : Moment :=
  Instant (1704067200000 + (day - 1) * 86400000).

Definition num (z : Z) : Js.number := Js.Fin (inject_Z z).

(** [mockSalesData] of analytics-data.service.spec.ts *)
Definition mockSalesData : list SalesData :=
  [ {| id := "order1"; date := jan2024 15; customerId := "customer1";
       productId := "product1"; productName := Some "Widget A";
       category := "Electronics"; region := "North";
       revenue := num 250; orders := num 2 |};
    {| id := "order2"; date := jan2024 16; customerId := "customer2";
       productId := "product2"; productName := Some "Widget B";
       category := "Electronics"; region := "South";
       revenue := num 150; orders := num 1 |};
    {| id := "order3"; date := jan2024 17; customerId := "customer1";
       productId := "product1"; productName := Some "Widget A";
       category := "Electronics"; region := "North";
       revenue := num 300; orders := num 3 |};
    {| id := "order4"; date := jan2024 18; customerId := "customer3";
       productId := "product3"; productName := Some "Widget C";
       category := "Home"; region := "East";
       revenue := num 50; orders := num 1 |} ].

(** The filter of the test "should filter data by date range". *)
Definition dateRangeFilter : FilterOptions :=
  {| dateRange := {| start := jan2024 15; end_ := jan2024 16 |};
     regions := []; categories := []; customerSegments := [] |}.

(** The filter the test suite sets up before each case, narrowed to some
    regions and categories. *)
Definition year2024Filter (regions categories : list string) : FilterOptions :=
  {| dateRange := {| start := jan2024 1; end_ := jan2024 366 |};
     regions := regions; categories := categories; customerSegments := [] |}.

(** [headersLine] of csv-import.service.spec.ts *)
Definition headersLine : string :=
  "id,date,revenue,orders,customerId,productId,productName,category,region".

(** A field between double quotes. *)
Definition quoted (field : string) : string :=
  String (ascii_of_nat 34) (field ++ String (ascii_of_nat 34) EmptyString).

(** [[headersLine, row, ...].join('\n')] *)
Definition csv (rows : list string) : string :=
  Js.join (ascii_of_nat 10) (headersLine :: rows).

(** A stable insertion sort, as an instance of [Array.prototype.sort]:
    [a] goes before [b] when [compare a b] is negative. *)
Section Sort.
Context {A : Type}.
Variable compare : A -> A -> Js.number.

Fixpoint insert (x : A) (sorted : list A) : list A :=
  match sorted with
  | [] => [x]
  | y :: ys =>
      if Js.ltb (compare y x) Js.zero then y :: insert x ys else x :: y :: ys
  end.

Definition sort (xs : list A) : list A := fold_right insert [] xs.
End Sort.

(** A chart point with an integer ordinate. *)
Definition point (x y : Z) : ChartDatum := ChartDataPoint (XNumber (num x)) (num y) None.

End Fixtures.

(** ** An instance of the date library: calendar dates [YYYY-MM-DD] *)

Module IsoDate.
Import Models.

Definition isLeap (y : Z) : bool :=
  ((y mod 4 =? 0) && negb (y mod 100 =? 0) || (y mod 400 =? 0))%Z.

Definition daysInMonth (y m : Z) : Z :=
  if (m =? 2)%Z then (if isLeap y then 29 else 28)
  else if ((m =? 4) || (m =? 6) || (m =? 9) || (m =? 11))%Z then 30 else 31.

(** Days from 1970-01-01 to the civil date [y-m-d]. *)
Definition daysFromCivil (y m d : Z) : Z :=
  let y' := (if (m <=? 2)%Z then y - 1 else y)%Z in
  let era := (y' / 400)%Z in
  let yoe := (y' - era * 400)%Z in
  let mp := ((m + 9) mod 12)%Z in
  let doy := ((153 * mp + 2) / 5 + d - 1)%Z in
  let doe := (yoe * 365 + yoe / 4 - yoe / 100 + doy)%Z in
  (era * 146097 + doe - 719468)%Z.

Definition number_of (ds : list ascii) : option Z :=
  match Js.span_digits Js.digit (string_of_list_ascii ds) with
  | (zs, EmptyString) =>
      if (length zs =? length ds)%nat then Some (Js.digits_value 10 zs) else None
  | _ => None
  end.

(** Midnight UTC of a date written [YYYY-MM-DD]; every other string is left
    unresolved. *)
Definition momentParse (s : string) : Moment :=
  match list_ascii_of_string s with
  | [y1; y2; y3; y4; "-"%char; m1; m2; "-"%char; d1; d2] =>
      match number_of [y1; y2; y3; y4], number_of [m1; m2], number_of [d1; d2] with
      | Some y, Some m, Some d =>
          if ((1 <=? m) && (m <=? 12) && (1 <=? d) && (d <=? daysInMonth y m))%Z
          then Instant (daysFromCivil y m d * 86400000)
          else InvalidDate
      | _, _, _ => InvalidDate
      end
  | _ => InvalidDate
  end.

(** The civil date of a day number. *)
Definition civilFromDays (days : Z) : Z * Z * Z :=
  let z := (days + 719468)%Z in
  let era := (z / 146097)%Z in
  let doe := (z - era * 146097)%Z in
  let yoe := ((doe - doe / 1460 + doe / 36524 - doe / 146096) / 365)%Z in
  let doy := (doe - (365 * yoe + yoe / 4 - yoe / 100))%Z in
  let mp := ((5 * doy + 2) / 153)%Z in
  let d := (doy - (153 * mp + 2) / 5 + 1)%Z in
  let m := (if (mp <? 10)%Z then mp + 3 else mp - 9)%Z in
  let y := (yoe + era * 400 + (if (m <=? 2)%Z then 1 else 0))%Z in
  (y, m, d).

Definition pad2 (n : Z) : string :=
  ((if (n <? 10)%Z then "0" else EmptyString) ++ Js.of_index (Z.to_nat n))%string.

Definition pad4 (n : Z) : string :=
  ((if (n <? 10)%Z then "000" else if (n <? 100)%Z then "00"
    else if (n <? 1000)%Z then "0" else EmptyString) ++ Js.of_index (Z.to_nat n))%string.

(** [m.format(f)] in UTC for the formats the program uses; every other
    format is left as it is. *)
Definition format (m : Moment) (f : string) : string :=
  match m with
  | InvalidDate => "Invalid date"
  | Instant ms =>
      let '(y, mo, d) := civilFromDays (ms / 86400000) in
      let hour := ((ms mod 86400000) / 3600000)%Z in
      if String.eqb f "YYYY-MM-DD" then (pad4 y ++ "-" ++ pad2 mo ++ "-" ++ pad2 d)%string
      else if String.eqb f "YYYY-MM" then (pad4 y ++ "-" ++ pad2 mo)%string
      else if String.eqb f "YYYY-MM-DD HH"
      then (pad4 y ++ "-" ++ pad2 mo ++ "-" ++ pad2 d ++ " " ++ pad2 hour)%string
      else if String.eqb f "MM/DD/YYYY" then (pad2 mo ++ "/" ++ pad2 d ++ "/" ++ pad4 y)%string
      else f
  end.

(** [m.clone().startOf('week')] in UTC, the week starting on Sunday. *)
Definition startOfWeek (m : Moment) : Moment :=
  match m with
  | InvalidDate => InvalidDate
  | Instant ms =>
      let days := (ms / 86400000)%Z in
      Instant ((days - (days + 4) mod 7) * 86400000)
  end.

(** A host clock that does not advance. *)
Definition clock (_ : nat) : Z := 1759276800000.

(** The parser on this host. *)
Definition parseCsv : string -> Js.outcome CsvImportService.ParseState :=
  CsvImportService.parseCsv momentParse clock.

Definition parseCsvToSalesData : string -> Js.outcome (list SalesData) :=
  CsvImportService.parseCsvToSalesData momentParse clock.

End IsoDate.

(** ** Shapes of texts and lines, for the statements below *)

Module Shape.

(** The code unit [c] occurs in [s]. *)
Fixpoint contains (c : ascii) (s : string) : bool :=
  match s with
  | EmptyString => false
  | String c' s' => Ascii.eqb c' c || contains c s'
  end.

(** Every code unit of [s] is white space. *)
Fixpoint allWhiteSpace (s : string) : bool :=
  match s with
  | EmptyString => true
  | String c s' => Js.isWhiteSpace c && allWhiteSpace s'
  end.

(** [s] does not begin with white space. *)
Definition startsClean (s : string) : Prop :=
  match s with
  | EmptyString => True
  | String c _ => Js.isWhiteSpace c = false
  end.

(** A field as a line writes it: between double quotes, or bare. *)
Definition written (field : bool * string) : string :=
  if fst field then Fixtures.quoted (snd field) else snd field.

(** A field a line can carry: it holds no double quote, and no comma
    unless it is written between double quotes. *)
Definition writable (field : bool * string) : Prop :=
  contains CsvImportService.dquote (snd field) = false
  /\ (fst field = false -> contains CsvImportService.comma (snd field) = false).

(** [line.trim() !== ''] *)
Definition nonBlank (line : string) : bool :=
  negb (String.eqb (Js.trim line) EmptyString).

End Shape.

(** * Properties *)

Import Models CsvImportService AnalyticsDataService VirtualizedChartComponent.

(** ** Binary64

    What [Js.round] does: it is monotone, it keeps the integers below
    [2^53] and sends every integer to an integer or to an infinity. *)

Section Binary64.
Local Open Scope Q_scope.

Lemma pow2_pos e : 0 < Js.pow2 e.
Proof. apply Qpower_0_lt. reflexivity. Qed.

Lemma pow2_le e e' : (e <= e')%Z -> Js.pow2 e <= Js.pow2 e'.
Proof. intros H. apply Qpower_le_compat_l; [exact H|discriminate]. Qed.

Lemma pow2_lt e e' : (e < e')%Z -> Js.pow2 e < Js.pow2 e'.
Proof. intros H. apply Qpower_lt_compat_l; [exact H|reflexivity]. Qed.

Lemma pow2_add a b : Js.pow2 (a + b) == Js.pow2 a * Js.pow2 b.
Proof. apply Qpower_plus. discriminate. Qed.

Lemma pow2_succ e : Js.pow2 (e + 1) == 2 * Js.pow2 e.
Proof. rewrite pow2_add. change (Js.pow2 1) with 2. ring. Qed.

Lemma pow2_int e : (0 <= e)%Z -> Js.pow2 e == inject_Z (2 ^ e).
Proof. intros H. unfold Js.pow2. symmetry. exact (Zpower_Qpower 2 e H). Qed.

Lemma Q_as_fraction (q : Q) : q * inject_Z (Zpos (Qden q)) == inject_Z (Qnum q).
Proof.
  destruct q as [n d]. unfold Qeq, Qmult, inject_Z. simpl.
  rewrite Pos.mul_1_r. ring.
Qed.

Lemma ilog2_spec q : 0 < q -> Js.pow2 (Js.ilog2 q) <= q /\ q < Js.pow2 (Js.ilog2 q + 1).
Proof.
  intros Hq. unfold Js.ilog2.
  set (n := Qnum q). set (d := Zpos (Qden q)).
  assert (Hn : (0 < n)%Z) by (destruct q as [[|p|p] ?]; unfold Qlt in Hq; simpl in *; lia).
  assert (Hd : (0 < d)%Z) by (subst d; lia).
  pose proof (Z.log2_spec n Hn) as [Hn1 Hn2].
  pose proof (Z.log2_spec d Hd) as [Hd1 Hd2].
  pose proof (Z.log2_nonneg n) as Hln. pose proof (Z.log2_nonneg d) as Hld.
  set (ln := Z.log2 n) in *. set (ld := Z.log2 d) in *.
  pose proof (Q_as_fraction q) as Hfrac. fold n d in Hfrac.
  assert (HA : Js.pow2 (ln - ld) * Js.pow2 ld == Js.pow2 ln).
  { rewrite <- pow2_add. replace (ln - ld + ld)%Z with ln by lia. reflexivity. }
  rewrite (pow2_int ld Hld), (pow2_int ln Hln) in HA.
  assert (Hn1q : inject_Z (2 ^ ln) <= inject_Z n) by (rewrite <- Zle_Qle; exact Hn1).
  assert (Hn2q : inject_Z n < 2 * inject_Z (2 ^ ln)).
  { change 2 with (inject_Z 2). rewrite <- inject_Z_mult, <- Zlt_Qlt.
    replace (Z.succ ln) with (ln + 1)%Z in Hn2 by lia.
    rewrite Z.pow_add_r in Hn2 by lia. lia. }
  assert (Hd1q : inject_Z (2 ^ ld) <= inject_Z d) by (rewrite <- Zle_Qle; exact Hd1).
  assert (Hd2q : inject_Z d < 2 * inject_Z (2 ^ ld)).
  { change 2 with (inject_Z 2). rewrite <- inject_Z_mult, <- Zlt_Qlt.
    replace (Z.succ ld) with (ld + 1)%Z in Hd2 by lia.
    rewrite Z.pow_add_r in Hd2 by lia. lia. }
  assert (HB : 0 < inject_Z (2 ^ ld)).
  { change 0 with (inject_Z 0). rewrite <- Zlt_Qlt. apply Z.pow_pos_nonneg; lia. }
  assert (HD : 0 < inject_Z d) by (change 0 with (inject_Z 0); rewrite <- Zlt_Qlt; exact Hd).
  pose proof (pow2_pos (ln - ld)) as HP.
  set (P := Js.pow2 (ln - ld)) in *. set (A := inject_Z (2 ^ ln)) in *.
  set (B := inject_Z (2 ^ ld)) in *. set (N := inject_Z n) in *. set (D := inject_Z d) in *.
  destruct (Qle_bool P q) eqn:Htest.
  - apply Qle_bool_iff in Htest. split; [exact Htest|].
    rewrite pow2_succ. fold P.
    apply Qnot_le_lt. intros Hle. nra.
  - assert (Hlt : q < P).
    { apply Qnot_le_lt. intros Hle. apply Qle_bool_iff in Hle. congruence. }
    replace (ln - ld - 1 + 1)%Z with (ln - ld)%Z by lia. split; [|exact Hlt].
    assert (Hhalf : 2 * Js.pow2 (ln - ld - 1) == P).
    { rewrite <- pow2_succ. replace (ln - ld - 1 + 1)%Z with (ln - ld)%Z by lia. reflexivity. }
    apply Qnot_lt_le. intros Hlt'. nra.
Qed.

Lemma pow2_lt_inv e e' : Js.pow2 e < Js.pow2 e' -> (e < e')%Z.
Proof. intros H. apply (Qpower_lt_compat_l_inv 2); [exact H|reflexivity]. Qed.

Lemma ilog2_unique q e : Js.pow2 e <= q -> q < Js.pow2 (e + 1) -> Js.ilog2 q = e.
Proof.
  intros Hlo Hhi.
  assert (Hq : 0 < q) by (pose proof (pow2_pos e); lra).
  destruct (ilog2_spec q Hq) as [Hlo' Hhi'].
  assert (H1 : (e < Js.ilog2 q + 1)%Z) by (apply pow2_lt_inv; lra).
  assert (H2 : (Js.ilog2 q < e + 1)%Z) by (apply pow2_lt_inv; lra).
  lia.
Qed.

Lemma ilog2_mono a b : 0 < a -> a <= b -> (Js.ilog2 a <= Js.ilog2 b)%Z.
Proof.
  intros Ha Hab.
  destruct (ilog2_spec a Ha) as [Hlo _].
  destruct (ilog2_spec b) as [_ Hhi]; [lra|].
  assert (H : (Js.ilog2 a < Js.ilog2 b + 1)%Z) by (apply pow2_lt_inv; lra).
  lia.
Qed.

(** Rounding to the Js.nearest integer *)

Lemma floor_bounds q : inject_Z (Qfloor q) <= q /\ q < inject_Z (Qfloor q) + 1.
Proof.
  split; [apply Qfloor_le|].
  pose proof (Qlt_floor q) as H. rewrite inject_Z_plus in H. exact H.
Qed.

Lemma roundHalfEven_cases q :
  let fl := Qfloor q in
  (Js.roundHalfEven q = fl /\ q - inject_Z fl <= 1 # 2)
  \/ (Js.roundHalfEven q = (fl + 1)%Z /\ 1 # 2 <= q - inject_Z fl).
Proof.
  intros fl. unfold Js.roundHalfEven. fold fl.
  destruct (Qcompare (q - inject_Z fl) (1 # 2)) eqn:Hcmp.
  - apply Qeq_alt in Hcmp. destruct (Z.even fl); [left|right]; split; try reflexivity; lra.
  - apply Qlt_alt in Hcmp. left. split; [reflexivity|lra].
  - apply Qgt_alt in Hcmp. right. split; [reflexivity|lra].
Qed.

Lemma roundHalfEven_le q M : q <= inject_Z M -> (Js.roundHalfEven q <= M)%Z.
Proof.
  intros Hq. destruct (floor_bounds q) as [Hlo Hhi].
  assert (Hfl : (Qfloor q <= M)%Z) by (rewrite Zle_Qle; lra).
  destruct (roundHalfEven_cases q) as [[-> _] | [-> Hhalf]]; [exact Hfl|].
  assert (Hlt : (Qfloor q < M)%Z); [|lia].
  rewrite Zlt_Qlt. lra.
Qed.

Lemma roundHalfEven_ge q M : inject_Z M <= q -> (M <= Js.roundHalfEven q)%Z.
Proof.
  intros Hq. destruct (floor_bounds q) as [Hlo Hhi].
  assert (Hfl : (M <= Qfloor q)%Z).
  { assert (H : (M < Qfloor q + 1)%Z); [|lia].
    rewrite Zlt_Qlt, inject_Z_plus. change (inject_Z 1) with 1. lra. }
  destruct (roundHalfEven_cases q) as [[-> _] | [-> _]]; lia.
Qed.

Lemma roundHalfEven_integer q z : q == inject_Z z -> Js.roundHalfEven q = z.
Proof.
  intros Hq.
  pose proof (roundHalfEven_le q z ltac:(lra)).
  pose proof (roundHalfEven_ge q z ltac:(lra)). lia.
Qed.

Lemma roundHalfEven_mono q q' : q <= q' -> (Js.roundHalfEven q <= Js.roundHalfEven q')%Z.
Proof.
  intros Hle.
  destruct (floor_bounds q) as [Hlo Hhi]. destruct (floor_bounds q') as [Hlo' Hhi'].
  assert (Hfl : (Qfloor q <= Qfloor q')%Z) by (apply Qfloor_resp_le; exact Hle).
  destruct (Z.eq_dec (Qfloor q) (Qfloor q')) as [Heq | Hne].
  - unfold Js.roundHalfEven. rewrite <- Heq.
    destruct (Qcompare_spec (q - inject_Z (Qfloor q)) (1 # 2)) as [Hc | Hc | Hc];
      destruct (Qcompare_spec (q' - inject_Z (Qfloor q)) (1 # 2)) as [Hc' | Hc' | Hc'];
      try (destruct (Z.even (Qfloor q))); try lia; exfalso; lra.
  - destruct (roundHalfEven_cases q) as [[-> _] | [-> _]];
      destruct (roundHalfEven_cases q') as [[-> _] | [-> _]]; lia.
Qed.

(** Rounding a positive rational to Js.binary64 *)

Lemma ulp_pos a : 0 < Js.ulp a.
Proof. apply pow2_pos. Qed.

Lemma scaled_le a u M : 0 < u -> a <= inject_Z M * u -> a / u <= inject_Z M.
Proof. intros Hu H. apply Qle_shift_div_r; assumption. Qed.

Lemma scaled_ge a u M : 0 < u -> inject_Z M * u <= a -> inject_Z M <= a / u.
Proof. intros Hu H. apply Qle_shift_div_l; assumption. Qed.

Lemma nearest_le a M : a <= inject_Z M * Js.ulp a -> Js.nearest a <= inject_Z M * Js.ulp a.
Proof.
  intros H. unfold Js.nearest. pose proof (ulp_pos a) as Hu.
  apply Qmult_le_compat_r; [|lra].
  rewrite <- Zle_Qle. apply roundHalfEven_le, scaled_le; assumption.
Qed.

Lemma nearest_ge a M : inject_Z M * Js.ulp a <= a -> inject_Z M * Js.ulp a <= Js.nearest a.
Proof.
  intros H. unfold Js.nearest. pose proof (ulp_pos a) as Hu.
  apply Qmult_le_compat_r; [|lra].
  rewrite <- Zle_Qle. apply roundHalfEven_ge, scaled_ge; assumption.
Qed.

Lemma nearest_nonneg a : 0 <= a -> 0 <= Js.nearest a.
Proof.
  intros Ha. pose proof (nearest_ge a 0) as H.
  change (inject_Z 0) with 0 in H. lra.
Qed.

(** A positive number rounds to a value from the least to the greatest
    number of its binade. *)
Lemma nearest_binade a :
  0 < a ->
  (Z.max (Js.ilog2 a - 52) (-1074) = (Js.ilog2 a - 52)%Z -> Js.pow2 (Js.ilog2 a) <= Js.nearest a)
  /\ Js.nearest a <= Js.pow2 (Z.max (Js.ilog2 a + 1) (Js.exponentOf a)).
Proof.
  intros Ha. destruct (ilog2_spec a Ha) as [Hlo Hhi].
  set (e := Js.ilog2 a) in *. split.
  - intros Hnormal.
    assert (Hu : Js.ulp a == Js.pow2 (e - 52)) by (unfold Js.ulp, Js.exponentOf; fold e; rewrite Hnormal; reflexivity).
    assert (Hgrid : Js.pow2 e == inject_Z (2 ^ 52) * Js.ulp a).
    { rewrite Hu, <- (pow2_int 52) by lia. rewrite <- pow2_add.
      replace (52 + (e - 52))%Z with e by lia. reflexivity. }
    rewrite Hgrid. apply nearest_ge. rewrite <- Hgrid. exact Hlo.
  - set (g := Z.max 0 (e + 1 - Js.exponentOf a)).
    assert (Hg : (0 <= g)%Z) by lia.
    assert (Hgrid : Js.pow2 (g + Js.exponentOf a) == inject_Z (2 ^ g) * Js.ulp a).
    { rewrite pow2_add, (pow2_int g Hg). reflexivity. }
    replace (Z.max (e + 1) (Js.exponentOf a)) with (g + Js.exponentOf a)%Z by lia.
    rewrite Hgrid. apply nearest_le. rewrite <- Hgrid.
    assert (Hle : Js.pow2 (e + 1) <= Js.pow2 (g + Js.exponentOf a)) by (apply pow2_le; lia).
    lra.
Qed.

Lemma nearest_mono a b : 0 < a -> a <= b -> Js.nearest a <= Js.nearest b.
Proof.
  intros Ha Hab. assert (Hb : 0 < b) by lra.
  pose proof (ilog2_mono a b Ha Hab) as He.
  destruct (Z.eq_dec (Js.exponentOf a) (Js.exponentOf b)) as [Heq | Hne].
  - unfold Js.nearest, Js.ulp. rewrite Heq. pose proof (pow2_pos (Js.exponentOf b)) as Hu.
    apply Qmult_le_compat_r; [|lra].
    rewrite <- Zle_Qle. apply roundHalfEven_mono.
    apply Qmult_le_compat_r; [exact Hab|]. apply Qlt_le_weak, Qinv_lt_0_compat, Hu.
  - destruct (nearest_binade a Ha) as [_ Hupper].
    destruct (nearest_binade b Hb) as [Hlower _].
    unfold Js.exponentOf in *.
    specialize (Hlower ltac:(lia)).
    assert (Hle : Js.pow2 (Z.max (Js.ilog2 a + 1) (Z.max (Js.ilog2 a - 52) (-1074)))
                  <= Js.pow2 (Js.ilog2 b)) by (apply pow2_le; lia).
    lra.
Qed.

Lemma round_comp q q' : q == q' -> Js.round q = Js.round q'.
Proof.
  intros Heq. unfold Js.round. rewrite <- (Qcompare_comp q q' Heq 0 0) by reflexivity.
  assert (H1 : Qred q = Qred q') by (apply Qred_complete; exact Heq).
  assert (H2 : Qred (- q) = Qred (- q')) by (apply Qred_complete; rewrite Heq; reflexivity).
  rewrite H1, H2. reflexivity.
Qed.

Lemma round_zero : Js.round 0 = Js.Fin 0.
Proof. reflexivity. Qed.

(** What [Js.round] gives, by the sign of its argument. *)
Lemma round_pos q :
  0 < q ->
  exists v, v == Js.nearest (Qred q) /\ 0 <= v
            /\ Js.round q = if Qle_bool (Js.pow2 1024) v then Js.PInf else Js.Fin (Qred v).
Proof.
  intros Hq. exists (Js.nearest (Qred q)). split; [reflexivity|]. split.
  - apply nearest_nonneg. rewrite Qred_correct. lra.
  - unfold Js.round. rewrite (proj1 (Qgt_alt q 0) Hq). reflexivity.
Qed.

Lemma round_neg q :
  q < 0 ->
  exists v, v == Js.nearest (Qred (- q)) /\ 0 <= v
            /\ Js.round q = if Qle_bool (Js.pow2 1024) v then Js.NInf else Js.Fin (Qred (- v)).
Proof.
  intros Hq. exists (Js.nearest (Qred (- q))). split; [reflexivity|]. split.
  - apply nearest_nonneg. rewrite Qred_correct. lra.
  - unfold Js.round. rewrite (proj1 (Qlt_alt q 0) Hq). reflexivity.
Qed.

Lemma round_mono x y : x <= y -> Js.leb (Js.round x) (Js.round y) = true.
Proof.
  intros Hxy.
  destruct (Qcompare_spec x 0) as [Hx | Hx | Hx];
    destruct (Qcompare_spec y 0) as [Hy | Hy | Hy]; try (exfalso; lra).
  - rewrite (round_comp x 0 Hx), (round_comp y 0 Hy). reflexivity.
  - rewrite (round_comp x 0 Hx). destruct (round_pos y Hy) as (v & _ & Hv & ->).
    cbn [Js.round Qcompare]. change (Js.round 0) with (Js.Fin 0).
    destruct (Qle_bool (Js.pow2 1024) v); [reflexivity|].
    cbn [Js.leb]. apply Qle_bool_iff. rewrite Qred_correct. exact Hv.
  - rewrite (round_comp y 0 Hy). destruct (round_neg x Hx) as (v & _ & Hv & ->).
    change (Js.round 0) with (Js.Fin 0).
    destruct (Qle_bool (Js.pow2 1024) v); [reflexivity|].
    cbn [Js.leb]. apply Qle_bool_iff. rewrite Qred_correct. lra.
  - destruct (round_neg x Hx) as (v & Hvx & Hv & ->).
    destruct (round_neg y Hy) as (w & Hwy & Hw & ->).
    assert (Hwv : w <= v).
    { rewrite Hvx, Hwy. apply nearest_mono; rewrite !Qred_correct; lra. }
    destruct (Qle_bool (Js.pow2 1024) v) eqn:Hov; [destruct (Qle_bool (Js.pow2 1024) w); reflexivity|].
    destruct (Qle_bool (Js.pow2 1024) w) eqn:How.
    + apply Qle_bool_iff in How.
      assert (Hbad : Qle_bool (Js.pow2 1024) v = true) by (apply Qle_bool_iff; lra).
      congruence.
    + cbn [Js.leb]. apply Qle_bool_iff. rewrite !Qred_correct. lra.
  - destruct (round_neg x Hx) as (v & _ & Hv & ->).
    destruct (round_pos y Hy) as (w & _ & Hw & ->).
    destruct (Qle_bool (Js.pow2 1024) v), (Qle_bool (Js.pow2 1024) w); try reflexivity.
    cbn [Js.leb]. apply Qle_bool_iff. rewrite !Qred_correct. lra.
  - destruct (round_pos x Hx) as (v & Hvx & Hv & ->).
    destruct (round_pos y Hy) as (w & Hwy & Hw & ->).
    assert (Hvw : v <= w).
    { rewrite Hvx, Hwy. apply nearest_mono; rewrite !Qred_correct; lra. }
    destruct (Qle_bool (Js.pow2 1024) w) eqn:How; [destruct (Qle_bool (Js.pow2 1024) v); reflexivity|].
    destruct (Qle_bool (Js.pow2 1024) v) eqn:Hov.
    + apply Qle_bool_iff in Hov.
      assert (Hbad : Qle_bool (Js.pow2 1024) w = true) by (apply Qle_bool_iff; lra).
      congruence.
    + cbn [Js.leb]. apply Qle_bool_iff. rewrite !Qred_correct. lra.
Qed.

(** *** Integers *)

Lemma Qred_inject_Z z : Qred (inject_Z z) = inject_Z z.
Proof. apply Qred_identity. simpl. apply Z.gcd_1_r. Qed.

Lemma ilog2_integer z : (1 <= z)%Z -> (0 <= Js.ilog2 (inject_Z z))%Z.
Proof.
  intros Hz.
  assert (H1 : 1 <= inject_Z z) by (change 1 with (inject_Z 1); rewrite <- Zle_Qle; exact Hz).
  change 0%Z with (Js.ilog2 1). apply ilog2_mono; [reflexivity|exact H1].
Qed.

Lemma scaled_exact a u t : 0 < u -> a == t * u -> a / u == t.
Proof.
  intros Hu Ha. rewrite Ha. apply Qdiv_mult_l. lra.
Qed.

Lemma nearest_exact a k : 0 < a -> a == inject_Z k * Js.ulp a -> Js.nearest a == a.
Proof.
  intros Ha Hgrid. unfold Js.nearest.
  rewrite (roundHalfEven_integer (a / Js.ulp a) k).
  - symmetry. exact Hgrid.
  - apply scaled_exact; [apply ulp_pos|exact Hgrid].
Qed.

(** A positive integer rounds to an integer; below [2^53] to itself. *)
Lemma nearest_integer z :
  (1 <= z)%Z ->
  exists z', Js.nearest (inject_Z z) == inject_Z z'
             /\ ((z < 2 ^ 53)%Z -> z' = z).
Proof.
  intros Hz. set (a := inject_Z z).
  assert (Ha : 0 < a) by (change 0 with (inject_Z 0); subst a; rewrite <- Zlt_Qlt; lia).
  pose proof (ilog2_integer z Hz) as He. fold a in He.
  destruct (ilog2_spec a Ha) as [Hlo Hhi].
  assert (Hf : Js.exponentOf a = (Js.ilog2 a - 52)%Z) by (unfold Js.exponentOf; lia).
  destruct (Z_le_gt_dec (Js.ilog2 a) 52) as [Hsmall | Hbig].
  - exists z. split; [|reflexivity].
    set (g := (52 - Js.ilog2 a)%Z).
    apply (nearest_exact a (z * 2 ^ g)); [exact Ha|].
    unfold Js.ulp. rewrite Hf, inject_Z_mult, <- (pow2_int g) by (subst g; lia).
    rewrite <- Qmult_assoc, <- pow2_add.
    replace (g + (Js.ilog2 a - 52))%Z with 0%Z by (subst g; lia).
    change (Js.pow2 0) with 1. fold a. ring.
  - exists (Js.roundHalfEven (a / Js.ulp a) * 2 ^ (Js.ilog2 a - 52))%Z. split.
    + unfold Js.nearest at 1. unfold Js.ulp at 2. rewrite Hf.
      rewrite (pow2_int (Js.ilog2 a - 52)) by lia.
      rewrite inject_Z_mult. reflexivity.
    + intros Hlt. exfalso.
      assert (H53 : Js.pow2 53 <= a).
      { eapply Qle_trans; [|exact Hlo]. apply pow2_le. lia. }
      rewrite (pow2_int 53) in H53 by lia. subst a. rewrite <- Zle_Qle in H53. lia.
Qed.

Lemma round_positive_integer z :
  (1 <= z)%Z ->
  Js.round (inject_Z z) = Js.PInf
  \/ exists z', Js.round (inject_Z z) = Js.Fin (inject_Z z') /\ (1 <= z')%Z
                /\ ((z < 2 ^ 53)%Z -> z' = z).
Proof.
  intros Hz.
  assert (Ha : 0 < inject_Z z) by (change 0 with (inject_Z 0); rewrite <- Zlt_Qlt; lia).
  destruct (round_pos _ Ha) as (v & Hv & _ & ->).
  rewrite Qred_inject_Z in Hv.
  destruct (nearest_integer z Hz) as (z' & Hz' & Hsame).
  destruct (Qle_bool (Js.pow2 1024) v); [left; reflexivity|right].
  exists z'. rewrite Hz' in Hv. rewrite (Qred_complete _ _ Hv), Qred_inject_Z.
  split; [reflexivity|]. split; [|exact Hsame].
  assert (H1 : inject_Z 1 <= inject_Z z').
  { rewrite <- Hz'.
    assert (Hone : Js.nearest 1 == 1) by (vm_compute; reflexivity).
    change (inject_Z 1) with 1. rewrite <- Hone.
    apply nearest_mono; [reflexivity|].
    change 1 with (inject_Z 1). rewrite <- Zle_Qle. exact Hz. }
  rewrite <- Zle_Qle in H1. exact H1.
Qed.

Lemma round_of_integer z :
  match Js.round (inject_Z z) with
  | Js.Fin q => exists z', q = inject_Z z' /\ Z.sgn z' = Z.sgn z
                        /\ ((Z.abs z < 2 ^ 53)%Z -> z' = z)
  | Js.PInf => (2 ^ 53 <= z)%Z
  | Js.NInf => (z <= - 2 ^ 53)%Z
  | Js.NaN => False
  end.
Proof.
  destruct (Z.lt_trichotomy z 0) as [Hneg | [-> | Hpos]].
  - assert (Hq : inject_Z z < 0) by (change 0 with (inject_Z 0); rewrite <- Zlt_Qlt; lia).
    destruct (round_neg _ Hq) as (v & Hv & _ & ->).
    change (- inject_Z z) with (inject_Z (- z)) in Hv. rewrite Qred_inject_Z in Hv.
    destruct (nearest_integer (- z) ltac:(lia)) as (z' & Hz' & Hsame).
    assert (H1 : (1 <= z')%Z).
    { rewrite Zle_Qle, <- Hz'.
      assert (Hone : Js.nearest 1 == 1) by (vm_compute; reflexivity).
      change (inject_Z 1) with 1. rewrite <- Hone.
      apply nearest_mono; [reflexivity|].
      change 1 with (inject_Z 1). rewrite <- Zle_Qle. lia. }
    destruct (Qle_bool (Js.pow2 1024) v) eqn:Hov.
    + destruct (Z_lt_ge_dec (- z) (2 ^ 53)) as [Hsmall | Hbig]; [|lia].
      rewrite (Hsame Hsmall) in Hz'. apply Qle_bool_iff in Hov.
      rewrite Hv, Hz', (pow2_int 1024), <- Zle_Qle in Hov by lia.
      assert (2 ^ 53 < 2 ^ 1024)%Z by (apply Z.pow_lt_mono_r; lia). lia.
    + exists (- z')%Z. split.
      * assert (Heq : - v == inject_Z (- z')) by (rewrite Hv, Hz', inject_Z_opp; reflexivity).
        rewrite (Qred_complete _ _ Heq). apply Qred_inject_Z.
      * split; [lia|]. intros Hsmall. rewrite Hsame by lia. lia.
  - exists 0%Z. repeat split.
  - assert (Hq : 0 < inject_Z z) by (change 0 with (inject_Z 0); rewrite <- Zlt_Qlt; lia).
    destruct (round_pos _ Hq) as (v & Hv & _ & ->).
    rewrite Qred_inject_Z in Hv.
    destruct (nearest_integer z ltac:(lia)) as (z' & Hz' & Hsame).
    assert (H1 : (1 <= z')%Z).
    { rewrite Zle_Qle, <- Hz'.
      assert (Hone : Js.nearest 1 == 1) by (vm_compute; reflexivity).
      change (inject_Z 1) with 1. rewrite <- Hone.
      apply nearest_mono; [reflexivity|].
      change 1 with (inject_Z 1). rewrite <- Zle_Qle. lia. }
    destruct (Qle_bool (Js.pow2 1024) v) eqn:Hov.
    + destruct (Z_lt_ge_dec z (2 ^ 53)) as [Hsmall | Hbig]; [|lia].
      rewrite (Hsame Hsmall) in Hz'. apply Qle_bool_iff in Hov.
      rewrite Hv, Hz', (pow2_int 1024), <- Zle_Qle in Hov by lia.
      assert (2 ^ 53 < 2 ^ 1024)%Z by (apply Z.pow_lt_mono_r; lia). lia.
    + exists z'. split.
      * rewrite Hz' in Hv. rewrite (Qred_complete _ _ Hv). apply Qred_inject_Z.
      * split; [lia|]. intros Hsmall. apply Hsame. lia.
Qed.

Lemma round_number q : Js.round q <> Js.NaN.
Proof.
  unfold Js.round. destruct (Qcompare q 0); [discriminate| |];
    destruct (Qle_bool _ _); discriminate.
Qed.

Lemma round_small_integer z :
  (Z.abs z < 2 ^ 53)%Z -> Js.round (inject_Z z) = Js.Fin (inject_Z z).
Proof.
  intros Hz. pose proof (round_of_integer z) as Hround.
  destruct (Js.round (inject_Z z)) as [|q| |]; [contradiction| |lia|lia].
  destruct Hround as (z' & -> & _ & Hsame). by rewrite (Hsame Hz).
Qed.

Lemma of_nat_small n :
  (Z.of_nat n < 2 ^ 53)%Z -> Js.of_nat n = Js.Fin (inject_Z (Z.of_nat n)).
Proof. intros Hn. unfold Js.of_nat. apply round_small_integer. lia. Qed.

Lemma binary64_below_one q :
  Js.binary64 q -> 0 <= q -> q < 1 -> q <= 9007199254740991 # 9007199254740992.
Proof.
  intros Hq H0 H1.
  destruct (Qcompare_spec q 0) as [Hz | Hz | Hz]; [lra|lra|].
  destruct (round_pos q Hz) as (v & Hv & _ & Hround).
  unfold Js.binary64 in Hq. rewrite Hq in Hround.
  destruct (Qle_bool (Js.pow2 1024) v); [discriminate|]. injection Hround as Hqv.
  assert (Hnear : q == Js.nearest (Qred q)) by (rewrite Hqv at 1; rewrite Qred_correct; exact Hv).
  set (a := Qred q) in *.
  assert (Haq : a == q) by apply Qred_correct.
  assert (Ha : 0 < a) by lra.
  destruct (ilog2_spec a Ha) as [Hlo Hhi].
  assert (He : (Js.ilog2 a < 0)%Z).
  { apply pow2_lt_inv. change (Js.pow2 0) with 1. lra. }
  destruct (Z.eq_dec (Js.ilog2 a) (-1)%Z) as [Hedge | Hlow].
  - assert (Hu : Js.ulp a == 1 # 9007199254740992).
    { unfold Js.ulp, Js.exponentOf. rewrite Hedge. reflexivity. }
    unfold Js.nearest in Hnear.
    set (k := Js.roundHalfEven (a / Js.ulp a)) in *. rewrite Hu in Hnear.
    assert (Hk : (k < 9007199254740992)%Z).
    { rewrite Zlt_Qlt. change (inject_Z 9007199254740992) with 9007199254740992. lra. }
    assert (Hk' : inject_Z k <= inject_Z 9007199254740991) by (rewrite <- Zle_Qle; lia).
    change (inject_Z 9007199254740991) with 9007199254740991 in Hk'. lra.
  - assert (Hhalf : Js.pow2 (Js.ilog2 a + 1) <= Js.pow2 (-1)) by (apply pow2_le; lia).
    change (Js.pow2 (-1)) with (1 # 2) in Hhalf. lra.
Qed.
End Binary64.

(** The arithmetic of the model against the floating-point unit: literals,
    sums in both orders, a product, a quotient, overflow and underflow of
    [parseFloat], and [parseInt] beyond [2^53] and beyond the largest
    number. *)
Section FloatingPointUnit.
Import PrimFloat.
Local Open Scope float_scope.

Example round_agrees_with_hardware :
  Js.literal 0.1 = Js.of_float (1 / 10)
  /\ Js.literal 0.2 = Js.of_float (2 / 10)
  /\ Js.literal 0.3 = Js.of_float (3 / 10)
  /\ Js.add (Js.literal 0.1) (Js.literal 0.2) = Js.of_float (1 / 10 + 2 / 10)
  /\ Js.add (Js.add (Js.literal 0.1) (Js.literal 0.2)) (Js.literal 0.3)
     = Js.of_float (1 / 10 + 2 / 10 + 3 / 10)
  /\ Js.add (Js.add (Js.literal 0.3) (Js.literal 0.2)) (Js.literal 0.1)
     = Js.of_float (3 / 10 + 2 / 10 + 1 / 10)
  /\ Js.mul (Js.parseFloat "125.99") (Js.literal 0.045)
     = Js.of_float (12599 / 100 * (45 / 1000))
  /\ Js.div (Js.parseFloat "89.50") (Js.of_nat 3) = Js.of_float (895 / 10 / 3)
  /\ Js.parseFloat "1e400" = Js.of_float infinity
  /\ Js.parseFloat "-1e400" = Js.of_float neg_infinity
  /\ Js.parseFloat "-1e-400" = Js.of_float 0
  /\ Js.parseFloat "4.9e-324" = Js.of_float (1 / 9007199254740992 / 9007199254740992
                                 / 9007199254740992 / 9007199254740992
                                 / 9007199254740992 / 9007199254740992
                                 / 9007199254740992 / 9007199254740992
                                 / 9007199254740992 / 9007199254740992
                                 / 9007199254740992 / 9007199254740992
                                 / 9007199254740992 / 9007199254740992
                                 / 9007199254740992 / 9007199254740992
                                 / 9007199254740992 / 9007199254740992
                                 / 9007199254740992 / 9007199254740992
                                 / 16384)
  /\ Js.parseInt "9007199254740993" = Js.of_float (9007199254740992 + 1)
  /\ Js.parseInt "9007199254740995" = Js.of_float (9007199254740992 + 3)
  /\ Js.parseInt "1000000000000000000000000000000000000000000000000000000000000000000000000000000000000000000000000000000000000000000000000000000000000000000000000000000000000000000000000000000000000000000000000000000000000000000000000000000000000000000000000000000000000000000000000000000000000000000000000000000000000000000000"
     = Js.of_float infinity.
Proof. vm_compute. repeat split; reflexivity. Qed.
End FloatingPointUnit.

(** ** The record parser *)

Section ParserInvariants.
Variable momentParse : string -> Moment.
Variable clock : nat -> Z.

(** A property of every valid [salesItem] holds of every record the loop
    adds. *)
Lemma parseRows_Forall (P : SalesData -> Prop) :
  (forall i row, isValidSalesData (salesItem momentParse clock i row) = true ->
                 P (salesItem momentParse clock i row)) ->
  forall headers lines i st,
    Forall P (salesData st) ->
    Forall P (salesData (parseRows momentParse clock headers i lines st)).
Proof.
  intros HP headers lines.
  induction lines as [|line lines IH]; intros i st Hst; simpl; [exact Hst|].
  apply IH. unfold parseRow.
  destruct (negb _); simpl; [exact Hst|].
  destruct (isValidSalesData _) eqn:Hvalid; simpl; [|exact Hst].
  apply Forall_app. split; [exact Hst|].
  constructor; [|constructor]. apply HP, Hvalid.
Qed.

Lemma parseCsvToSalesData_Forall (P : SalesData -> Prop) :
  (forall i row, isValidSalesData (salesItem momentParse clock i row) = true ->
                 P (salesItem momentParse clock i row)) ->
  forall csvText records,
    parseCsvToSalesData momentParse clock csvText = Js.Returned records ->
    Forall P records.
Proof.
  intros HP csvText records. unfold parseCsvToSalesData, parseCsv.
  destruct (nonBlankLines csvText) as [|header rows]; [discriminate|].
  intros [= <-]. apply parseRows_Forall; [exact HP|constructor].
Qed.
End ParserInvariants.

(** [parseInt] gives NaN or the Number value of an integer. *)
Lemma parseInt_integer s :
  Js.parseInt s = Js.NaN \/ exists z, Js.parseInt s = Js.round (inject_Z z).
Proof.
  unfold Js.parseInt.
  destruct (Js.take_sign _) as [neg body].
  destruct (match body with
            | String "0" (String "x" r) | String "0" (String "X" r) =>
                (16%Z, Js.hexdigit, r)
            | _ => (10%Z, Js.digit, body)
            end) as [[radix dig] body'].
  destruct (Js.span_digits dig body') as [[|d ds] rest]; [left|right]; eauto.
Qed.

Lemma truthy_inject_Z z : Js.truthy (Js.Fin (inject_Z z)) = true -> z <> 0%Z.
Proof. intros H ->. discriminate H. Qed.

(** [parseInt(token) || 1] is an infinity or an integer other than 0. *)
Lemma orders_default_nonzero s :
  Spec.nonZeroCount (Js.or_else (Js.parseInt s) Js.one).
Proof.
  unfold Js.or_else, Spec.nonZeroCount.
  destruct (parseInt_integer s) as [-> | [z ->]].
  - right. right. exists 1%Z. split; [reflexivity|lia].
  - pose proof (round_of_integer z) as Hround.
    destruct (Js.round (inject_Z z)) as [|q| |] eqn:Hq; cbn [Js.truthy]; try tauto.
    destruct Hround as (z' & -> & _ & _).
    destruct (negb (Qeq_bool (inject_Z z') 0)) eqn:Ht.
    + right. right. exists z'. split; [reflexivity|].
      by apply truthy_inject_Z.
    + right. right. exists 1%Z. split; [reflexivity|lia].
Qed.

(** ** Product aggregation *)

Section ProductNames.
Variable random : nat -> Js.number.

Lemma map_get_Forall {V} (P : V -> Prop) (m : list (string * V)) key v :
  Forall (fun kv => P (snd kv)) m -> map_get m key = Some v -> P v.
Proof.
  induction 1 as [|[k w] m Hw _ IH]; simpl; [discriminate|].
  destruct (String.eqb k key); [intros [= <-]; exact Hw|exact IH].
Qed.

Lemma map_set_Forall {V} (P : V -> Prop) (m : list (string * V)) key v :
  Forall (fun kv => P (snd kv)) m -> P v ->
  Forall (fun kv => P (snd kv)) (map_set m key v).
Proof.
  intros Hm Hv. induction Hm as [|[k w] m Hw Hm IH]; simpl.
  - constructor; [exact Hv|constructor].
  - destruct (String.eqb k key); constructor; simpl; auto.
Qed.

(** Records without a product name leave every name at its default. *)
Lemma addToProduct_defaultName st item :
  productName item = None ->
  Forall (fun kv => Spec.defaultName (snd kv)) (fst st) ->
  Forall (fun kv => Spec.defaultName (snd kv)) (fst (addToProduct random st item)).
Proof.
  intros Hname Hst. destruct st as [productMap calls]. simpl in Hst.
  unfold addToProduct.
  set (fresh := {| pm_productId := productId item |}).
  assert (Hensured :
    Forall (fun kv => Spec.defaultName (snd kv))
      (fst (if negb (map_has productMap (productId item))
            then (map_set productMap (productId item) fresh, S calls)
            else (productMap, calls)))).
  { destruct (negb _); simpl; [|exact Hst].
    apply map_set_Forall; [exact Hst|reflexivity]. }
  destruct (if negb _ then _ else _) as [productMap' calls'].
  simpl in Hensured.
  destruct (map_get productMap' (productId item)) as [product|] eqn:Hget;
    simpl; [|exact Hensured].
  apply map_set_Forall; [exact Hensured|].
  unfold Spec.defaultName. simpl. rewrite Hname.
  exact (map_get_Forall Spec.defaultName _ _ _ Hensured Hget).
Qed.

Lemma calculateProductMetrics_defaultName data :
  Forall (fun r => productName r = None) data ->
  Forall Spec.defaultName (calculateProductMetrics random data).
Proof.
  intros Hdata. unfold calculateProductMetrics, map_values.
  apply Forall_map.
  assert (Hinit : Forall (fun kv : string * ProductMetrics => Spec.defaultName (snd kv))
                    (fst (([], 0%nat) : list (string * ProductMetrics) * nat)))
    by constructor.
  revert Hinit. generalize (([], 0%nat) : list (string * ProductMetrics) * nat).
  induction Hdata as [|item data Hitem _ IH]; intros st Hst; simpl; [exact Hst|].
  apply IH. by apply addToProduct_defaultName.
Qed.
End ProductNames.

(** C10.  Every record the parser returns has no productName, whatever the
    header declares and the rows supply; hence every product aggregated from
    parser output keeps the default name "Product {productId}". *)
Theorem parser_never_sets_productName momentParse clock random csvText records :
  parseCsvToSalesData momentParse clock csvText = Js.Returned records ->
  Forall (fun r => productName r = None) records
  /\ Forall (fun p => name p = ("Product " ++ pm_productId p)%string)
            (calculateProductMetrics random records).
Proof.
  intros Hparse.
  assert (Hnone : Forall (fun r => productName r = None) records).
  { revert Hparse. apply parseCsvToSalesData_Forall. reflexivity. }
  split; [exact Hnone|].
  by apply calculateProductMetrics_defaultName.
Qed.

(** The sample text declares a productName column and fills it in every
    row. *)
Lemma parser_never_sets_productName_witness :
  exists records,
    parseCsvToSalesData IsoDate.momentParse IsoDate.clock generateSampleCsvContent
      = Js.Returned records
    /\ In "productName" sampleHeaders
    /\ Forall (fun r => productName r = None) records
    /\ Forall (fun p => name p = ("Product " ++ pm_productId p)%string)
              (calculateProductMetrics (fun _ => Js.literal 0.5) records).
Proof.
  eexists. split; [vm_compute; reflexivity|].
  split; [simpl; tauto|].
  apply (parser_never_sets_productName IsoDate.momentParse IsoDate.clock
           (fun _ => Js.literal 0.5) generateSampleCsvContent).
  vm_compute; reflexivity.
Defined.

(** ** Defaulting *)

Section Defaulting.
Variable momentParse : string -> Moment.
Variable clock : nat -> Z.

Lemma parseRow_keeps headers i line st r :
  In r (salesData st) -> In r (salesData (parseRow momentParse clock headers i line st)).
Proof.
  intros Hr. unfold parseRow.
  destruct (negb _); simpl; [exact Hr|].
  destruct (isValidSalesData _); simpl; [|exact Hr].
  apply in_or_app. by left.
Qed.

Lemma parseRows_keeps headers lines i st r :
  In r (salesData st) ->
  In r (salesData (parseRows momentParse clock headers i lines st)).
Proof.
  revert i st. induction lines as [|line lines IH]; intros i st Hr; simpl; [exact Hr|].
  by apply IH, parseRow_keeps.
Qed.

(** The [k]-th line after the header is processed with index [k]. *)
Lemma parseRows_app headers before line after i st :
  parseRows momentParse clock headers i (before ++ line :: after) st
  = parseRows momentParse clock headers (S (i + length before)) after
      (parseRow momentParse clock headers (i + length before) line
         (parseRows momentParse clock headers i before st)).
Proof.
  revert i st. induction before as [|l before IH]; intros i st; simpl.
  - by rewrite Nat.add_0_r.
  - rewrite IH. by rewrite Nat.add_succ_r.
Qed.

Lemma str_or_default v d : Spec.absentOrBlank v -> Js.str_or v d = d.
Proof. by intros [-> | ->]. Qed.

Lemma or_else_default parse v d :
  Spec.notNumeric parse v -> parse "undefined" = Js.NaN ->
  Js.or_else (parse (Js.to_string v)) d = d.
Proof. intros [-> | (token & -> & Hnan)] Hundef; simpl; by rewrite ?Hundef, ?Hnan. Qed.

(** A blank token is not numeric for either coercion. *)
Lemma absentOrBlank_notNumeric parse v :
  parse EmptyString = Js.NaN -> Spec.absentOrBlank v -> Spec.notNumeric parse v.
Proof. intros Hblank [-> | ->]; [by left|right; eauto]. Qed.

Lemma salesItem_defaults i row d :
  field row "date" = Some d ->
  (forall name, In name ["id"; "customerId"; "productId"; "category"; "region"] ->
                 Spec.absentOrBlank (field row name)) ->
  Spec.notNumeric Js.parseFloat (field row "revenue") ->
  Spec.notNumeric Js.parseInt (field row "orders") ->
  salesItem momentParse clock i row
  = Spec.defaultRecord i (moment momentParse clock i (Some d)).
Proof.
  intros Hdate Hblank Hrevenue Horders.
  unfold salesItem, Spec.defaultRecord. rewrite Hdate.
  rewrite !str_or_default by (apply Hblank; simpl; tauto).
  rewrite (or_else_default Js.parseFloat) by done.
  by rewrite (or_else_default Js.parseInt).
Qed.

Lemma defaultRecord_valid i m :
  isValid m = true -> isValidSalesData (Spec.defaultRecord i m) = true.
Proof. intros Hm. unfold isValidSalesData. simpl. by rewrite Hm. Qed.

Lemma str_or_nonempty v d : Js.nonempty d = true -> Js.nonempty (Js.str_or v d) = true.
Proof.
  intros Hd. unfold Js.str_or. destruct v as [s|]; [|exact Hd].
  destruct (Js.nonempty s) eqn:Hs; [exact Hs|exact Hd].
Qed.

(** After defaulting, a row is valid exactly when its date is valid and its
    revenue is not negative. *)
Lemma salesItem_valid i row :
  isValidSalesData (salesItem momentParse clock i row)
  = isValid (date (salesItem momentParse clock i row))
    && Js.geb (revenue (salesItem momentParse clock i row)) Js.zero.
Proof.
  unfold isValidSalesData. cbn [id customerId productId category region salesItem].
  rewrite !str_or_nonempty by reflexivity.
  rewrite !andb_true_r. reflexivity.
Qed.

(** The record of a row is in the output when the row has as many values
    as the header has columns and its record is valid. *)
Lemma parseCsvToSalesData_keeps csvText header before line after :
  let headers := map Js.trim (Js.split comma header) in
  let item := salesItem momentParse clock (S (length before))
                (buildRow headers (parseCsvLine line)) in
  nonBlankLines csvText = header :: before ++ line :: after ->
  length (parseCsvLine line) = length headers ->
  isValidSalesData item = true ->
  exists records,
    parseCsvToSalesData momentParse clock csvText = Js.Returned records
    /\ In item records.
Proof.
  intros headers item Hlines Hcount Hvalid.
  unfold parseCsvToSalesData, parseCsv. rewrite Hlines. fold headers.
  eexists. split; [reflexivity|].
  rewrite parseRows_app. apply parseRows_keeps. simpl Nat.add.
  unfold parseRow. rewrite Hcount, Nat.eqb_refl. simpl negb. cbv iota.
  fold item. rewrite Hvalid.
  simpl. apply in_or_app. right. by left.
Qed.
End Defaulting.

(** C6.  A data row at 1-based index [i] (the header excluded) whose column
    count matches and which supplies a parseable date yields a record in the
    output unless its revenue token reads as a negative number.  In that
    record every field the row leaves absent or blank has its default: id
    "order_{i}", customerId "customer_{i}", productId "product_{i}",
    category "Unknown", region "Unknown"; a revenue token that is absent,
    blank or not numeric gives revenue 0 and such an orderCount token gives
    orderCount 1, whatever the other fields hold, and does not fail the
    row.  A row that supplies the date only yields the record made of the
    defaults. *)
Theorem parser_defaults momentParse clock csvText header before line after d :
  let headers := map Js.trim (Js.split comma header) in
  let row := buildRow headers (parseCsvLine line) in
  let i := S (length before) in
  let item := salesItem momentParse clock i row in
  nonBlankLines csvText = header :: before ++ line :: after ->
  length (parseCsvLine line) = length headers ->
  field row "date" = Some d ->
  isValid (moment momentParse clock i (Some d)) = true ->
  Spec.notNumeric Js.parseFloat (field row "revenue")
  \/ Js.geb (revenue item) Js.zero = true ->
  (exists records,
     parseCsvToSalesData momentParse clock csvText = Js.Returned records
     /\ In item records)
  /\ date item = moment momentParse clock i (Some d)
  /\ (Spec.absentOrBlank (field row "id") -> id item = ("order_" ++ Js.of_index i)%string)
  /\ (Spec.notNumeric Js.parseFloat (field row "revenue") -> revenue item = Js.zero)
  /\ (Spec.notNumeric Js.parseInt (field row "orders") -> orders item = Js.one)
  /\ (Spec.absentOrBlank (field row "customerId") ->
      customerId item = ("customer_" ++ Js.of_index i)%string)
  /\ (Spec.absentOrBlank (field row "productId") ->
      productId item = ("product_" ++ Js.of_index i)%string)
  /\ (Spec.absentOrBlank (field row "category") -> category item = "Unknown")
  /\ (Spec.absentOrBlank (field row "region") -> region item = "Unknown")
  /\ ((forall name, In name Spec.defaultedFields -> Spec.absentOrBlank (field row name)) ->
      item = Spec.defaultRecord i (moment momentParse clock i (Some d))).
Proof.
  intros headers row i item Hlines Hcount Hdate Hvalid Hrevenue.
  assert (Hzero : Spec.notNumeric Js.parseFloat (field row "revenue") ->
                  revenue item = Js.zero).
  { intros Hnot. subst item. unfold salesItem. cbn [revenue].
    by apply or_else_default. }
  assert (Hkept : isValidSalesData item = true).
  { unfold item. rewrite salesItem_valid. fold item.
    assert (Hd : date item = moment momentParse clock i (Some d))
      by (unfold item, salesItem; cbn [date]; by rewrite Hdate).
    rewrite Hd, Hvalid. cbn [andb].
    destruct Hrevenue as [Hnot | Hge]; [|exact Hge].
    by rewrite (Hzero Hnot). }
  split; [by apply (parseCsvToSalesData_keeps momentParse clock csvText header before
                      line after)|].
  split; [subst item; unfold salesItem; cbn [date]; by rewrite Hdate|].
  split; [intros Hblank; subst item; unfold salesItem; cbn [id];
          by apply str_or_default|].
  split; [exact Hzero|].
  split; [intros Hnot; subst item; unfold salesItem; cbn [orders];
          by apply or_else_default|].
  split; [intros Hblank; subst item; unfold salesItem; cbn [customerId];
          by apply str_or_default|].
  split; [intros Hblank; subst item; unfold salesItem; cbn [productId];
          by apply str_or_default|].
  split; [intros Hblank; subst item; unfold salesItem; cbn [category];
          by apply str_or_default|].
  split; [intros Hblank; subst item; unfold salesItem; cbn [region];
          by apply str_or_default|].
  intros Hblank. subst item. apply salesItem_defaults; [exact Hdate| | |].
  - intros field Hfield. apply Hblank. unfold Spec.defaultedFields.
    simpl in Hfield. simpl. tauto.
  - apply absentOrBlank_notNumeric; [reflexivity|]. apply Hblank. simpl. tauto.
  - apply absentOrBlank_notNumeric; [reflexivity|]. apply Hblank. simpl. tauto.
Qed.

(** Row 2 of this text supplies an id and a date and has the tokens [abc]
    and [n/a] for revenue and orders. *)
Lemma parser_defaults_witness :
  let csvText := Js.join newline ["id,date,revenue,orders"; "a1,2025-10-01,10,2";
                                  "a2,2025-10-02,abc,n/a"] in
  exists records item,
    parseCsvToSalesData IsoDate.momentParse IsoDate.clock csvText = Js.Returned records
    /\ In item records
    /\ id item = "a2" /\ revenue item = Js.zero /\ orders item = Js.one
    /\ customerId item = "customer_2" /\ region item = "Unknown".
Proof.
  intros csvText.
  destruct (parser_defaults IsoDate.momentParse IsoDate.clock csvText
              "id,date,revenue,orders" ["a1,2025-10-01,10,2"] "a2,2025-10-02,abc,n/a" []
              "2025-10-02")
    as ((records & Hparse & Hin) & _ & _ & Hrevenue & Horders & Hcustomer & _ & _
        & Hregion & _).
  - reflexivity.
  - reflexivity.
  - reflexivity.
  - reflexivity.
  - left. right. exists "abc". split; reflexivity.
  - exists records. eexists. split; [exact Hparse|]. split; [exact Hin|].
    split; [reflexivity|].
    split; [apply Hrevenue; right; exists "abc"; split; reflexivity|].
    split; [apply Horders; right; exists "n/a"; split; reflexivity|].
    split; [apply Hcustomer; left; reflexivity|].
    apply Hregion. left. reflexivity.
Defined.

(** ** The record invariant *)

(** C9, counterexample: with the header [date,orders], the row
    [2025-10-01,-5] is accepted and its record has orderCount -5, which is
    below 1. *)
Lemma negative_orderCount_accepted :
  exists r,
    parseCsvToSalesData IsoDate.momentParse IsoDate.clock
      (Js.join newline ["date,orders"; "2025-10-01,-5"]) = Js.Returned [r]
    /\ orders r = Js.Fin (inject_Z (-5))
    /\ Js.geb (orders r) Js.one = false.
Proof. eexists. split; [vm_compute; reflexivity|]. split; reflexivity. Qed.

(** C9, as amended.  Every record the parser returns has a revenue that is
    at least 0, and an orderCount that is neither 0 nor NaN: an integer
    other than 0, or an infinity when the integer of the token is beyond
    the range of binary64.  For the row at index [i], when it is kept: the
    orderCount is what [parseInt] reads from the orders token whenever that
    is a number other than 0, so a token that reads as a negative integer is
    kept as it is, and it is 1 when the token is absent, blank, not numeric
    or reads as 0. *)
Theorem parser_output_invariant :
  (forall momentParse clock csvText records,
     parseCsvToSalesData momentParse clock csvText = Js.Returned records ->
     Forall (fun r => Js.geb (revenue r) Js.zero = true /\ Spec.nonZeroCount (orders r))
            records)
  /\ (forall momentParse clock csvText header before line after,
        let headers := map Js.trim (Js.split comma header) in
        let row := buildRow headers (parseCsvLine line) in
        let item := salesItem momentParse clock (S (length before)) row in
        let read := Js.parseInt (Js.to_string (field row "orders")) in
        nonBlankLines csvText = header :: before ++ line :: after ->
        length (parseCsvLine line) = length headers ->
        isValidSalesData item = true ->
        (exists records,
           parseCsvToSalesData momentParse clock csvText = Js.Returned records
           /\ In item records)
        /\ orders item = (if Js.truthy read then read else Js.one)
        /\ (forall z, read = Js.Fin (inject_Z z) -> (z < 0)%Z ->
                      orders item = Js.Fin (inject_Z z))
        /\ (Spec.notNumeric Js.parseInt (field row "orders") \/ read = Js.zero ->
            orders item = Js.one)).
Proof.
  split.
  - intros momentParse clock. apply parseCsvToSalesData_Forall. intros i row Hvalid. split.
    + unfold isValidSalesData in Hvalid.
      repeat (apply andb_prop in Hvalid as [Hvalid ?]). assumption.
    + apply orders_default_nonzero.
  - intros momentParse clock csvText header before line after headers row item read
           Hlines Hcount Hvalid.
    split; [by apply (parseCsvToSalesData_keeps momentParse clock csvText header before
                        line after)|].
    assert (Horders : orders item = (if Js.truthy read then read else Js.one))
      by reflexivity.
    split; [exact Horders|]. split.
    + intros z Hread Hneg. rewrite Horders, Hread.
      assert (Htruthy : Js.truthy (Js.Fin (inject_Z z)) = true).
      { destruct z; [lia|lia|reflexivity]. }
      by rewrite Htruthy.
    + intros [Hnot | Hzero].
      * subst item. unfold salesItem. cbn [orders]. by apply or_else_default.
      * by rewrite Horders, Hzero.
Qed.

(** The sample text, and a text whose only row has the orders token [-5]. *)
Lemma parser_output_invariant_witness :
  (exists records,
     parseCsvToSalesData IsoDate.momentParse IsoDate.clock generateSampleCsvContent
       = Js.Returned records
     /\ Forall (fun r => Js.geb (revenue r) Js.zero = true
                         /\ Spec.nonZeroCount (orders r)) records)
  /\ exists records item,
       parseCsvToSalesData IsoDate.momentParse IsoDate.clock
         (Js.join newline ["date,orders"; "2025-10-01,-5"]) = Js.Returned records
       /\ In item records
       /\ orders item = Js.Fin (inject_Z (-5)).
Proof.
  destruct parser_output_invariant as [Hall Hrow]. split.
  - eexists. split; [vm_compute; reflexivity|].
    apply (Hall IsoDate.momentParse IsoDate.clock generateSampleCsvContent).
    vm_compute; reflexivity.
  - destruct (Hrow IsoDate.momentParse IsoDate.clock
                (Js.join newline ["date,orders"; "2025-10-01,-5"])
                "date,orders" [] "2025-10-01,-5" [])
      as ((records & Hparse & Hin) & _ & Hnegative & _);
      [reflexivity|reflexivity|reflexivity|].
    exists records. eexists. split; [exact Hparse|]. split; [exact Hin|].
    apply (Hnegative (-5)%Z); [reflexivity|lia].
Defined.

(** ** The sample text *)

Section DateLibrary.
Variables momentParse momentParse' : string -> Moment.
Variable clock : nat -> Z.

(** The parser consults the date library on date tokens only. *)
Lemma parseRow_ext headers i line st :
  (forall d, field (buildRow headers (parseCsvLine line)) "date" = Some d ->
             momentParse d = momentParse' d) ->
  parseRow momentParse clock headers i line st
  = parseRow momentParse' clock headers i line st.
Proof.
  intros Hagree. unfold parseRow. destruct (negb _); [reflexivity|].
  assert (Hitem : salesItem momentParse clock i (buildRow headers (parseCsvLine line))
                  = salesItem momentParse' clock i (buildRow headers (parseCsvLine line))).
  { unfold salesItem.
    destruct (field (buildRow headers (parseCsvLine line)) "date") as [d|] eqn:Hd;
      [|reflexivity].
    simpl. specialize (Hagree d eq_refl). destruct d; [reflexivity|]. by rewrite Hagree. }
  by rewrite Hitem.
Qed.

Lemma parseRows_ext headers lines :
  Forall (fun line =>
            forall d, field (buildRow headers (parseCsvLine line)) "date" = Some d ->
                      momentParse d = momentParse' d) lines ->
  forall i st,
    parseRows momentParse clock headers i lines st
    = parseRows momentParse' clock headers i lines st.
Proof.
  induction 1 as [|line lines Hline _ IH]; intros i st; simpl; [reflexivity|].
  by rewrite (parseRow_ext _ _ _ _ Hline), IH.
Qed.
End DateLibrary.

(** C7.  With a date library that resolves the four dates of the sample
    text, parsing the sample text returns exactly 6 records, all valid, with
    ids order_001 to order_006 in this order, all with resolvable dates, the
    first one with region "North America". *)
Theorem sample_round_trip momentParse clock :
  Forall (fun s => isValid (momentParse s) = true)
         ["2025-10-01"; "2025-10-02"; "2025-10-03"; "2025-10-06"] ->
  exists records,
    parseCsvToSalesData momentParse clock generateSampleCsvContent = Js.Returned records
    /\ length records = 6%nat
    /\ map id records
       = ["order_001"; "order_002"; "order_003"; "order_004"; "order_005"; "order_006"]
    /\ Forall (fun r => isValidSalesData r = true) records
    /\ Forall (fun r => isValid (date r) = true) records
    /\ map region (firstn 1 records) = ["North America"].
Proof.
  intros Hdates.
  apply Forall_cons_iff in Hdates as [H1 Hdates].
  apply Forall_cons_iff in Hdates as [H2 Hdates].
  apply Forall_cons_iff in Hdates as [H3 Hdates].
  apply Forall_cons_iff in Hdates as [H6 _].
  destruct (momentParse "2025-10-01") as [|t] eqn:E1; [discriminate H1|clear H1].
  destruct (momentParse "2025-10-02") as [|t0] eqn:E2; [discriminate H2|clear H2].
  destruct (momentParse "2025-10-03") as [|t1] eqn:E3; [discriminate H3|clear H3].
  destruct (momentParse "2025-10-06") as [|t2] eqn:E6; [discriminate H6|clear H6].
  set (resolved := fun s : string =>
         if String.eqb s "2025-10-01" then Instant t
         else if String.eqb s "2025-10-02" then Instant t0
         else if String.eqb s "2025-10-03" then Instant t1
         else if String.eqb s "2025-10-06" then Instant t2
         else InvalidDate).
  assert (Hsame : parseCsvToSalesData momentParse clock generateSampleCsvContent
                  = parseCsvToSalesData resolved clock generateSampleCsvContent).
  { unfold parseCsvToSalesData, parseCsv.
    destruct (nonBlankLines generateSampleCsvContent) as [|header rows] eqn:Hlines;
      [reflexivity|].
    vm_compute in Hlines. injection Hlines as <- <-.
    rewrite (parseRows_ext momentParse resolved); [reflexivity|].
    repeat constructor; intros d Hd; vm_compute in Hd; injection Hd as <-;
      subst resolved; simpl; assumption. }
  rewrite Hsame. eexists. split; [vm_compute; reflexivity|].
  repeat split; repeat constructor.
Qed.

Lemma sample_round_trip_witness :
  exists records,
    parseCsvToSalesData IsoDate.momentParse IsoDate.clock generateSampleCsvContent
      = Js.Returned records
    /\ length records = 6%nat
    /\ map id records
       = ["order_001"; "order_002"; "order_003"; "order_004"; "order_005"; "order_006"]
    /\ Forall (fun r => isValidSalesData r = true) records
    /\ Forall (fun r => isValid (date r) = true) records
    /\ map region (firstn 1 records) = ["North America"].
Proof.
  apply (sample_round_trip IsoDate.momentParse IsoDate.clock).
  repeat constructor.
Defined.

(** ** Numbers *)

Lemma num_eq_refl a : Js.num_eq a a.
Proof. destruct a; simpl; auto. reflexivity. Qed.

Lemma num_eq_sym a b : Js.num_eq a b -> Js.num_eq b a.
Proof. destruct a, b; simpl; auto. intros H. by symmetry. Qed.

Lemma num_eq_trans a b c : Js.num_eq a b -> Js.num_eq b c -> Js.num_eq a c.
Proof.
  destruct a, b, c; simpl; try tauto. intros H1 H2. by rewrite H1.
Qed.

Lemma reduce_revenue (data : list SalesData) a :
  fold_left (fun sum item => Js.add sum (revenue item)) data a
  = fold_left Js.add (map revenue data) a.
Proof. revert a. induction data as [|r data IH]; intros a; simpl; auto. Qed.

Lemma add_integers z w :
  (Z.abs (z + w) < 2 ^ 53)%Z ->
  Js.add (Js.Fin (inject_Z z)) (Js.Fin (inject_Z w)) = Js.Fin (inject_Z (z + w)).
Proof.
  intros Hsmall. cbn [Js.add]. rewrite <- (round_small_integer (z + w) Hsmall).
  apply round_comp. by rewrite inject_Z_plus.
Qed.

Lemma integers_total_nonneg amounts :
  Forall (fun z => (0 <= z)%Z) amounts -> (0 <= fold_right Z.add 0%Z amounts)%Z.
Proof. induction 1; simpl; lia. Qed.

(** As long as the total stays below [2^53], adding integers does not
    round. *)
Lemma sum_of_integers amounts : forall acc,
  (0 <= acc)%Z -> Forall (fun z => (0 <= z)%Z) amounts ->
  (acc + fold_right Z.add 0%Z amounts < 2 ^ 53)%Z ->
  fold_left Js.add (map (fun z => Js.Fin (inject_Z z)) amounts) (Js.Fin (inject_Z acc))
  = Js.Fin (inject_Z (acc + fold_right Z.add 0%Z amounts)).
Proof.
  induction amounts as [|z amounts IH]; intros acc Hacc Hall Hsum;
    cbn [map fold_left fold_right] in *.
  - by rewrite Z.add_0_r.
  - apply Forall_cons_iff in Hall as [Hz Hall].
    pose proof (integers_total_nonneg amounts Hall) as Hrest.
    rewrite add_integers by lia.
    rewrite IH by (try assumption; lia).
    do 2 f_equal. lia.
Qed.

(** ** Insertion-ordered sets *)

Section SetFacts.
Context {A : Type} (eqb : A -> A -> bool).
Hypothesis eqb_spec : forall a b, eqb a b = true <-> a = b.

Lemma set_has_In s x : Js.set_has eqb s x = true <-> In x s.
Proof using eqb_spec.
  unfold Js.set_has. rewrite existsb_exists. split.
  - intros (y & Hy & Heq). apply eqb_spec in Heq. by subst.
  - intros Hx. exists x. split; [exact Hx|]. by apply eqb_spec.
Qed.

Lemma set_add_NoDup s x : List.NoDup s -> List.NoDup (Js.set_add eqb s x).
Proof using eqb_spec.
  intros Hs. unfold Js.set_add.
  destruct (Js.set_has eqb s x) eqn:Hhas; [exact Hs|].
  apply List.NoDup_app; [exact Hs|constructor; [simpl; tauto|constructor]|].
  intros y Hy [<- | []]. apply set_has_In in Hy. congruence.
Qed.

Lemma set_add_In s x y : In y (Js.set_add eqb s x) <-> In y s \/ y = x.
Proof using eqb_spec.
  unfold Js.set_add. destruct (Js.set_has eqb s x) eqn:Hhas.
  - apply set_has_In in Hhas. split; [tauto|]. intros [H | ->]; assumption.
  - rewrite in_app_iff. simpl. intuition auto.
Qed.

Lemma fold_set_add_NoDup xs s :
  List.NoDup s -> List.NoDup (fold_left (Js.set_add eqb) xs s).
Proof using eqb_spec.
  revert s. induction xs as [|x xs IH]; intros s Hs; simpl; [exact Hs|].
  by apply IH, set_add_NoDup.
Qed.

Lemma fold_set_add_In xs s y :
  In y (fold_left (Js.set_add eqb) xs s) <-> In y s \/ In y xs.
Proof using eqb_spec.
  revert s. induction xs as [|x xs IH]; intros s; simpl; [tauto|].
  rewrite IH, set_add_In. intuition auto.
Qed.

(** [new Set(xs)] holds the distinct values of [xs], each once. *)
Lemma set_of_distinct xs :
  List.NoDup (Js.set_of eqb xs) /\ forall y, In y (Js.set_of eqb xs) <-> In y xs.
Proof using eqb_spec.
  unfold Js.set_of. split.
  - apply fold_set_add_NoDup. constructor.
  - intros y. rewrite fold_set_add_In. simpl. tauto.
Qed.
End SetFacts.

(** ** Dashboard metrics *)

(** C2.  For every record list, totalRevenue is the sum of the revenue
    fields, added from 0 in the order of the records as binary64 adds,
    totalOrders is the number of records, averageOrderValue is 0 for the
    empty list and totalRevenue / totalOrders otherwise, and customerCount
    is the number of distinct customerId values; on the mock data of the
    test suite totalOrders differs from the sum of the orders fields.  The
    order of the records is part of the sum: 0.1, 0.2, 0.3 and 0.3, 0.2, 0.1
    have different sums.  When the revenues are integers from 0 on and
    their total is below [2^53], no addition rounds and totalRevenue is the
    total exactly. *)
Theorem dashboard_metrics_correct :
  (forall data,
     let m := calculateDashboardMetrics data in
     totalRevenue m = Spec.sum (map revenue data)
     /\ totalOrders m = length data
     /\ averageOrderValue m
        = match data with
          | [] => Js.zero
          | _ :: _ => Js.div (totalRevenue m) (Js.of_nat (totalOrders m))
          end
     /\ exists ids,
          Spec.distinctValues (map customerId data) ids
          /\ customerCount m = length ids)
  /\ ~ Js.num_eq
        (Js.of_nat (totalOrders (calculateDashboardMetrics Fixtures.mockSalesData)))
        (Spec.sum (map orders Fixtures.mockSalesData))
  /\ ~ Js.num_eq
        (Spec.sum [Js.literal 0.1; Js.literal 0.2; Js.literal 0.3])
        (Spec.sum [Js.literal 0.3; Js.literal 0.2; Js.literal 0.1])
  /\ (forall data amounts,
        map revenue data = map (fun z => Js.Fin (inject_Z z)) amounts ->
        Forall (fun z => (0 <= z)%Z) amounts ->
        (fold_right Z.add 0%Z amounts < 2 ^ 53)%Z ->
        totalRevenue (calculateDashboardMetrics data)
        = Js.Fin (inject_Z (fold_right Z.add 0%Z amounts))).
Proof.
  split; [|split; [|split]].
  - intros data m. repeat split.
    + subst m. simpl totalRevenue. apply reduce_revenue.
    + by destruct data.
    + exists (Js.set_of String.eqb (map customerId data)).
      split; [|reflexivity].
      apply set_of_distinct. apply String.eqb_eq.
  - vm_compute. intros H. discriminate H.
  - vm_compute. intros H. discriminate H.
  - intros data amounts Hrevenue Hall Htotal.
    simpl totalRevenue. rewrite reduce_revenue, Hrevenue.
    apply (sum_of_integers amounts 0%Z); [lia|exact Hall|exact Htotal].
Qed.

(** The mock data of the test suite: 250 + 150 + 300 + 50 is 750. *)
Lemma dashboard_metrics_correct_witness :
  map revenue Fixtures.mockSalesData
  = map (fun z => Js.Fin (inject_Z z)) [250; 150; 300; 50]%Z
  /\ totalRevenue (calculateDashboardMetrics Fixtures.mockSalesData)
     = Js.Fin (inject_Z 750).
Proof.
  split; [reflexivity|].
  apply (proj2 (proj2 (proj2 dashboard_metrics_correct))
           Fixtures.mockSalesData [250; 150; 300; 50]%Z).
  - reflexivity.
  - repeat constructor; lia.
  - vm_compute. reflexivity.
Defined.

(** ** The filter *)

Lemma includes_In xs x : includes xs x = true <-> In x xs.
Proof.
  unfold includes. rewrite existsb_exists. split.
  - intros (y & Hy & Heq). apply String.eqb_eq in Heq. by subst.
  - intros Hx. exists x. split; [exact Hx|]. apply String.eqb_refl.
Qed.

Lemma length_zero_nil {A} (xs : list A) : (length xs =? 0)%nat = true <-> xs = [].
Proof. destruct xs; simpl; split; congruence. Qed.

(** What [applyFilters] keeps: the date strictly between the two bounds. *)
Lemma applyFilters_In data filters r :
  In r (applyFilters data filters)
  <-> In r data
      /\ isBetween (date r) (start (dateRange filters)) (end_ (dateRange filters)) = true
      /\ (regions filters = [] \/ In (region r) (regions filters))
      /\ (categories filters = [] \/ In (category r) (categories filters)).
Proof.
  unfold applyFilters. rewrite filter_In, !andb_true_iff, !orb_true_iff.
  rewrite !length_zero_nil, !includes_In. tauto.
Qed.

Lemma isBetween_strict m range :
  isBetween m (start range) (end_ range) = true
  <-> exists t a b, m = Instant t /\ start range = Instant a /\ end_ range = Instant b
                    /\ (a < t < b)%Z.
Proof.
  unfold isBetween. destruct m as [|t], (start range) as [|a], (end_ range) as [|b];
    try (split; [discriminate|intros (?&?&?&?&?&?&?); discriminate]).
  rewrite andb_true_iff, !Z.ltb_lt. split.
  - intros [? ?]. exists t, a, b. auto.
  - intros (?&?&?&[= ->]&[= ->]&[= ->]&?). lia.
Qed.

(** C1, on the input of the test "should filter data by date range": the
    range runs from 2024-01-15 to 2024-01-16, the records order1 and order2
    of the mock data are dated on the two bounds and pass the filter as the
    specification words it, and [applyFilters] returns no record. *)
Theorem applyFilters_drops_range_bounds :
  applyFilters Fixtures.mockSalesData Fixtures.dateRangeFilter = []
  /\ exists order1 order2 rest,
       Fixtures.mockSalesData = order1 :: order2 :: rest
       /\ Spec.passes Fixtures.dateRangeFilter order1
       /\ Spec.passes Fixtures.dateRangeFilter order2.
Proof.
  split; [reflexivity|].
  do 3 eexists. split; [reflexivity|].
  split; (split; [reflexivity|split; left; reflexivity]).
Qed.

(** ** Failed fetches *)

(** C8, counterexample: the service holds the mock data, the sample asset
    can be fetched but the fetch of [data.csv] fails, and after
    [importSalesDataFromCsv] the record set is still the mock data, which
    is not empty. *)
Lemma failed_import_keeps_records :
  let svc := {| salesDataSubject := Fixtures.mockSalesData;
                filtersSubject := Fixtures.dateRangeFilter;
                serviceConsole := [] |} in
  let http := fun path : string =>
                if String.eqb path "/assets/sample-sales-data.csv"
                then Js.Next generateSampleCsvContent
                else Js.ErrorNotification (Js.Error "404 Not Found") in
  importSalesDataFromCsv IsoDate.momentParse IsoDate.clock http "data.csv" svc
  = (svc, Js.ErrorNotification (Js.Error "404 Not Found"))
  /\ salesDataSubject
       (fst (importSalesDataFromCsv IsoDate.momentParse IsoDate.clock http "data.csv" svc))
     = Fixtures.mockSalesData
  /\ Fixtures.mockSalesData <> [].
Proof. split; [reflexivity|split; [reflexivity|discriminate]]. Qed.

(** C8, as amended.  Each of the three operations on its own, whatever the
    other fetches do: when the fetch of its path fails,
    [importSalesDataFromCsv] hands the error notification to its caller and
    leaves the service, hence its record set, as it was; when the file
    cannot be read, [importSalesDataFromFile] rejects and leaves the service
    as it was; when the fetch of the sample asset fails,
    [loadSampleDataFromAssets] logs a warning and sets the record set to
    the empty one. *)
Theorem failed_fetch_behaviour momentParse clock :
  (forall http path svc e,
     http path = Js.ErrorNotification e ->
     importSalesDataFromCsv momentParse clock http path svc
     = (svc, Js.ErrorNotification e))
  /\ (forall readFile file svc,
        readFile file = None ->
        importSalesDataFromFile momentParse clock readFile file svc
        = (svc, Js.Rejected (Js.Error "Failed to read file")))
  /\ (forall http svc e,
        http "/assets/sample-sales-data.csv" = Js.ErrorNotification e ->
        loadSampleDataFromAssets momentParse clock http svc
        = {| salesDataSubject := [];
             filtersSubject := filtersSubject svc;
             serviceConsole := serviceConsole svc ++ [WarnSampleLoadFailed e] |}).
Proof.
  repeat split.
  - intros http path svc e Hpath. unfold importSalesDataFromCsv. by rewrite Hpath.
  - intros readFile file svc Hfile. unfold importSalesDataFromFile. by rewrite Hfile.
  - intros http svc e Hassets. unfold loadSampleDataFromAssets. by rewrite Hassets.
Qed.

Lemma failed_fetch_behaviour_witness :
  let svc := {| salesDataSubject := Fixtures.mockSalesData;
                filtersSubject := Fixtures.dateRangeFilter;
                serviceConsole := [] |} in
  let e := Js.Error "404 Not Found" in
  let sampleOnly := fun path : string =>
                      if String.eqb path "/assets/sample-sales-data.csv"
                      then Js.Next generateSampleCsvContent
                      else Js.ErrorNotification e in
  let offline := fun _ : string => @Js.ErrorNotification string e in
  let unreadable := fun _ : string => @None string in
  importSalesDataFromCsv IsoDate.momentParse IsoDate.clock sampleOnly "data.csv" svc
  = (svc, Js.ErrorNotification e)
  /\ importSalesDataFromFile IsoDate.momentParse IsoDate.clock unreadable "data.csv" svc
     = (svc, Js.Rejected (Js.Error "Failed to read file"))
  /\ loadSampleDataFromAssets IsoDate.momentParse IsoDate.clock offline svc
     = {| salesDataSubject := [];
          filtersSubject := filtersSubject svc;
          serviceConsole := serviceConsole svc ++ [WarnSampleLoadFailed e] |}.
Proof.
  intros svc e sampleOnly offline unreadable.
  destruct (failed_fetch_behaviour IsoDate.momentParse IsoDate.clock)
    as (Hcsv & Hfile & Hsample).
  split; [|split].
  - apply (Hcsv sampleOnly "data.csv" svc e). reflexivity.
  - apply (Hfile unreadable "data.csv" svc). reflexivity.
  - apply (Hsample offline svc e). reflexivity.
Defined.

(** ** The downsampler *)

(** C5.  A sequence of at most [maxDataPoints] points is returned as it
    is. *)
Theorem virtualizeData_identity maxDataPoints data :
  length data <= maxDataPoints ->
  virtualizeData maxDataPoints data = map Some data.
Proof.
  intros Hle. unfold virtualizeData.
  apply Nat.leb_le in Hle. by rewrite Hle.
Qed.

Lemma virtualizeData_identity_witness :
  let data := [Fixtures.point 0 3; Fixtures.point 1 1; Fixtures.point 2 2] in
  length data <= 10 /\ virtualizeData 10 data = map Some data.
Proof.
  intros data. split; [simpl; lia|].
  apply (virtualizeData_identity 10 data). simpl; lia.
Defined.

(** *** Order of numbers *)

Lemma leb_refl a : a <> Js.NaN -> Js.leb a a = true.
Proof.
  destruct a; simpl; try congruence. intros _. apply Qle_bool_iff, Qle_refl.
Qed.

Lemma leb_trans a b c : Js.leb a b = true -> Js.leb b c = true -> Js.leb a c = true.
Proof.
  destruct a, b, c; simpl; try congruence.
  rewrite !Qle_bool_iff. apply Qle_trans.
Qed.

Lemma leb_total a b : a <> Js.NaN -> b <> Js.NaN -> Js.leb a b = false -> Js.leb b a = true.
Proof.
  destruct a, b; simpl; try congruence. intros _ _ Hab.
  apply Qle_bool_iff. apply Qlt_le_weak, Qnot_le_lt.
  intros Hle. apply Qle_bool_iff in Hle. congruence.
Qed.

Lemma strict_eq_refl a : a <> Js.NaN -> Js.strict_eq a a = true.
Proof.
  destruct a; simpl; try congruence. intros _. apply Qeq_bool_iff. reflexivity.
Qed.

Lemma strict_eq_leb a b c : Js.strict_eq a b = true -> Js.leb b c = true -> Js.leb a c = true.
Proof.
  destruct a, b, c; simpl; try congruence.
  rewrite Qeq_bool_iff, !Qle_bool_iff. intros -> H. exact H.
Qed.

Lemma strict_eq_geb a b c : Js.strict_eq a b = true -> Js.leb c b = true -> Js.leb c a = true.
Proof.
  destruct a, b, c; simpl; try congruence.
  rewrite Qeq_bool_iff, !Qle_bool_iff. intros -> H. exact H.
Qed.

(** *** [Math.min], [Math.max] and [indexOf] *)

Section Extremum.
(** [pick] is [min2] with [before := leb], or [max2] with [before] its
    converse. *)
Variable pick : Js.number -> Js.number -> Js.number.
Variable before : Js.number -> Js.number -> bool.
Hypothesis before_refl : forall a, a <> Js.NaN -> before a a = true.
Hypothesis before_trans :
  forall a b c, before a b = true -> before b c = true -> before a c = true.
Hypothesis pick_spec :
  forall a b, a <> Js.NaN -> b <> Js.NaN ->
    (pick a b = a \/ pick a b = b)
    /\ before (pick a b) a = true /\ before (pick a b) b = true.

Lemma fold_pick values : forall a,
  a <> Js.NaN -> Forall (fun v => v <> Js.NaN) values ->
  let r := fold_left pick values a in
  r <> Js.NaN /\ before r a = true
  /\ Forall (fun v => before r v = true) values
  /\ (r = a \/ In r values).
Proof using before_refl before_trans pick_spec.
  induction values as [|v values IH]; intros a Ha Hvalues; simpl.
  - repeat split; auto.
  - apply Forall_cons_iff in Hvalues as [Hv Hvalues].
    destruct (pick_spec a v Ha Hv) as (Hpick & Hpa & Hpv).
    assert (Hp : pick a v <> Js.NaN) by (destruct Hpick as [-> | ->]; assumption).
    destruct (IH (pick a v) Hp Hvalues) as (Hr & Hrp & Hall & Hin).
    repeat split; [exact Hr|eauto|constructor; eauto|].
    destruct Hin as [-> | Hin]; [|by right; right].
    destruct Hpick as [-> | ->]; [by left|by right; left].
Qed.
End Extremum.

Lemma min2_spec a b :
  a <> Js.NaN -> b <> Js.NaN ->
  (min2 a b = a \/ min2 a b = b)
  /\ Js.leb (min2 a b) a = true /\ Js.leb (min2 a b) b = true.
Proof.
  intros Ha Hb.
  assert (Hmin : min2 a b = if Js.leb a b then a else b)
    by (destruct a, b; simpl; congruence).
  rewrite Hmin. destruct (Js.leb a b) eqn:Hab.
  - repeat split; [by left|by apply leb_refl|exact Hab].
  - repeat split; [by right|by apply leb_total|by apply leb_refl].
Qed.

Lemma max2_spec a b :
  a <> Js.NaN -> b <> Js.NaN ->
  (max2 a b = a \/ max2 a b = b)
  /\ Js.geb (max2 a b) a = true /\ Js.geb (max2 a b) b = true.
Proof.
  intros Ha Hb. unfold Js.geb.
  assert (Hmax : max2 a b = if Js.leb a b then b else a)
    by (destruct a, b; simpl; congruence).
  rewrite Hmax. destruct (Js.leb a b) eqn:Hab.
  - repeat split; [by right|exact Hab|by apply leb_refl].
  - repeat split; [by left|by apply leb_refl|by apply leb_total].
Qed.

(** [Math.min] of numbers, at least one, is one of them and below all. *)
Lemma Math_min_spec values :
  values <> [] -> Forall (fun v => v <> Js.NaN) values ->
  In (Math_min values) values
  /\ Math_min values <> Js.NaN
  /\ Forall (fun v => Js.leb (Math_min values) v = true) values.
Proof.
  intros Hne Hvalues. unfold Math_min.
  destruct (fold_pick min2 Js.leb leb_refl leb_trans min2_spec values Js.PInf)
    as (Hr & _ & Hall & Hin); [discriminate|exact Hvalues|].
  repeat split; [|exact Hr|exact Hall].
  destruct Hin as [Hinf | Hin]; [|exact Hin].
  rewrite Hinf in *. destruct values as [|v values]; [congruence|].
  apply Forall_cons_iff in Hall as [Hv _]. left.
  destruct v; simpl in Hv; congruence.
Qed.

Lemma Math_max_spec values :
  values <> [] -> Forall (fun v => v <> Js.NaN) values ->
  In (Math_max values) values
  /\ Math_max values <> Js.NaN
  /\ Forall (fun v => Js.leb v (Math_max values) = true) values.
Proof.
  intros Hne Hvalues. unfold Math_max.
  destruct (fold_pick max2 Js.geb) with (values := values) (a := Js.NInf)
    as (Hr & _ & Hall & Hin);
    [intros a Ha; by apply leb_refl
    |intros a b c Hab Hbc; unfold Js.geb in *; by eapply leb_trans
    |exact max2_spec|discriminate|exact Hvalues|].
  repeat split; [|exact Hr|exact Hall].
  destruct Hin as [Hinf | Hin]; [|exact Hin].
  rewrite Hinf in *. destruct values as [|v values]; [congruence|].
  apply Forall_cons_iff in Hall as [Hv _]. left.
  destruct v; simpl in Hv; congruence.
Qed.

(** [indexOf] of a number that occurs in the array is a position of the
    array that holds a number strictly equal to it. *)
Lemma indexOf_from_found values target :
  target <> Js.NaN -> In target values ->
  forall i, exists k v,
    indexOf_from values target i = (i + Z.of_nat k)%Z
    /\ nth_error values k = Some v
    /\ Js.strict_eq v target = true.
Proof.
  intros Htarget. induction values as [|w values IH]; intros Hin i; [destruct Hin|].
  simpl. destruct (Js.strict_eq w target) eqn:Heq.
  - exists 0%nat, w. repeat split; [lia|exact Heq].
  - destruct Hin as [-> | Hin]; [rewrite strict_eq_refl in Heq; congruence|].
    destruct (IH Hin (i + 1)%Z) as (k & v & Hidx & Hnth & Hv).
    exists (S k), v. repeat split; [lia|exact Hnth|exact Hv].
Qed.

(** *** What one chunk contributes *)

Lemma fold_push (chunk : list ChartDatum) indices out :
  fold_left
    (fun out index =>
       if (index <? Z.of_nat (length chunk))%Z then out ++ [at_index chunk index]
       else out)
    indices out
  = out ++ flat_map
             (fun index =>
                if (index <? Z.of_nat (length chunk))%Z then [at_index chunk index]
                else [])
             indices.
Proof.
  revert out. induction indices as [|index indices IH]; intros out; simpl.
  - by rewrite app_nil_r.
  - rewrite IH. destruct (index <? _)%Z; [|reflexivity].
    by rewrite <- app_assoc.
Qed.

Lemma pushChunk_app out chunk : pushChunk out chunk = out ++ pushChunk [] chunk.
Proof.
  unfold pushChunk. destruct (length chunk =? 1)%nat; [reflexivity|].
  by rewrite fold_push, (fold_push chunk _ []).
Qed.

Lemma set_add_length {A} (eqb : A -> A -> bool) s x :
  length s <= length (Js.set_add eqb s x) <= S (length s).
Proof.
  unfold Js.set_add. destruct (Js.set_has eqb s x); [lia|].
  rewrite length_app. simpl. lia.
Qed.

Lemma fold_set_add_length {A} (eqb : A -> A -> bool) xs s :
  length s <= length (fold_left (Js.set_add eqb) xs s) <= length s + length xs.
Proof.
  revert s. induction xs as [|x xs IH]; intros s; simpl; [lia|].
  pose proof (IH (Js.set_add eqb s x)). pose proof (set_add_length eqb s x). lia.
Qed.

Lemma indicesToAdd_length chunk : length (indicesToAdd chunk) <= 4.
Proof.
  unfold indicesToAdd, Js.set_of.
  exact (proj2 (fold_set_add_length Z.eqb _ [])).
Qed.

Lemma flat_map_length_le {A B} (f : A -> list B) k xs :
  (forall x, length (f x) <= k) -> length (flat_map f xs) <= k * length xs.
Proof.
  intros Hf. induction xs as [|x xs IH]; simpl; [lia|].
  rewrite length_app. specialize (Hf x). lia.
Qed.

Lemma flat_map_of_map {A B C} (f : B -> list C) (g : A -> B) xs :
  flat_map f (map g xs) = flat_map (fun x => f (g x)) xs.
Proof. induction xs as [|x xs IH]; simpl; [reflexivity|]. by rewrite IH. Qed.

(** A chunk contributes at most four entries. *)
Lemma pushChunk_length_le chunk : length (pushChunk [] chunk) <= 4.
Proof.
  unfold pushChunk. destruct (length chunk =? 1)%nat; [simpl; lia|].
  rewrite fold_push. simpl.
  etransitivity; [apply (flat_map_length_le _ 1)|].
  - intros index. destruct (index <? _)%Z; simpl; lia.
  - pose proof (indicesToAdd_length chunk). lia.
Qed.

Lemma set_add_head {A} (eqb : A -> A -> bool) x s y :
  exists s', Js.set_add eqb (x :: s) y = x :: s'.
Proof.
  unfold Js.set_add. destruct (Js.set_has eqb (x :: s) y); simpl; eauto.
Qed.

Lemma fold_set_add_head {A} (eqb : A -> A -> bool) xs x s :
  exists s', fold_left (Js.set_add eqb) xs (x :: s) = x :: s'.
Proof.
  revert s. induction xs as [|y xs IH]; intros s; simpl; [eauto|].
  destruct (set_add_head eqb x s y) as [s' ->]. apply IH.
Qed.

(** A chunk that is not empty contributes at least one entry. *)
Lemma pushChunk_length_ge chunk : chunk <> [] -> 1 <= length (pushChunk [] chunk).
Proof.
  intros Hne. unfold pushChunk. destruct (length chunk =? 1)%nat; [simpl; lia|].
  rewrite fold_push. simpl. unfold indicesToAdd, Js.set_of. simpl fold_left.
  destruct (fold_set_add_head Z.eqb
              [indexOf (map valueOfDatum chunk) (Math_min (map valueOfDatum chunk));
               indexOf (map valueOfDatum chunk) (Math_max (map valueOfDatum chunk));
               (Z.of_nat (length chunk) - 1)%Z] 0%Z []) as [s' Hs'].
  change (Js.set_add Z.eqb [] 0%Z) with [0%Z].
  simpl fold_left in Hs'. rewrite Hs'. simpl.
  destruct chunk; [congruence|]. simpl. lia.
Qed.

(** *** The loop *)

Section Loop.
Variable data : list ChartDatum.
Variable step : nat.
Hypothesis step_pos : 1 <= step.

(** Iterations beyond the first [data.length] are never reached. *)
Lemma sampleFrom_fuel fuel extra : forall i out,
  length data - i <= fuel ->
  sampleFrom (fuel + extra) data step i out = sampleFrom fuel data step i out.
Proof using step_pos.
  induction fuel as [|fuel IH]; intros i out Hfuel; simpl.
  - destruct extra; simpl; [reflexivity|].
    destruct (i <? length data)%nat eqn:Hi; [|reflexivity].
    apply Nat.ltb_lt in Hi. lia.
  - destruct (i <? length data)%nat eqn:Hi; [|reflexivity].
    apply IH. lia.
Qed.

(** After [k] chunks the loop has [count] more to go. *)
Lemma sampleFrom_chunks count : forall k fuel out,
  count <= fuel ->
  length data <= (k + count) * step ->
  (1 <= count -> (k + count - 1) * step < length data) ->
  sampleFrom fuel data step (k * step) out
  = out ++ flat_map
             (fun j => pushChunk []
                         (slice data (j * step)
                            (Nat.min (j * step + step) (length data))))
             (seq k count).
Proof using step_pos.
  induction count as [|count IH]; intros k fuel out Hfuel Hend Hrun.
  - simpl. rewrite app_nil_r.
    destruct fuel; simpl; [reflexivity|].
    destruct (k * step <? length data)%nat eqn:Hk; [|reflexivity].
    apply Nat.ltb_lt in Hk. lia.
  - destruct fuel as [|fuel]; [lia|]. simpl.
    assert (Hk : (k * step <? length data)%nat = true).
    { apply Nat.ltb_lt. specialize (Hrun ltac:(lia)). nia. }
    rewrite Hk.
    replace (k * step + step) with (S k * step) by lia.
    rewrite (IH (S k) fuel); [|lia|lia|intros; specialize (Hrun ltac:(lia))].
    + rewrite pushChunk_app, <- app_assoc.
      by replace (S k * step) with (k * step + step) by lia.
    + replace (S k + count - 1) with (k + S count - 1) by lia. exact Hrun.
Qed.
End Loop.

Lemma ceilDiv_spec n m :
  1 <= m -> n <= ceilDiv n m * m /\ (1 <= n -> (ceilDiv n m - 1) * m < n).
Proof.
  intros Hm. unfold ceilDiv.
  destruct (m =? 0)%nat eqn:Hm0; [apply Nat.eqb_eq in Hm0; lia|].
  pose proof (Nat.div_mod_eq (n + m - 1) m) as Hdiv.
  pose proof (Nat.mod_upper_bound (n + m - 1) m ltac:(lia)) as Hmod.
  split; [nia|]. intros Hn.
  assert (1 <= (n + m - 1) / m) by (apply Nat.div_le_lower_bound; lia).
  nia.
Qed.

(** Where downsampling triggers, the output is the contributions of the
    consecutive chunks of [step] points, in order. *)
Lemma virtualizeData_chunks maxDataPoints data :
  maxDataPoints < length data ->
  virtualizeData maxDataPoints data
  = flat_map (pushChunk []) (Spec.chunks (ceilDiv (length data) maxDataPoints) data).
Proof.
  intros Hlt. unfold virtualizeData.
  assert (Hleb : (length data <=? maxDataPoints)%nat = false) by (apply Nat.leb_gt; lia).
  rewrite Hleb.
  set (step := ceilDiv (length data) maxDataPoints).
  assert (Hstep : 1 <= step).
  { subst step. unfold ceilDiv. destruct (maxDataPoints =? 0)%nat eqn:Hm0; [lia|].
    apply Nat.eqb_neq in Hm0. apply Nat.div_le_lower_bound; lia. }
  destruct (ceilDiv_spec (length data) step Hstep) as [Hend Hrun].
  pose proof (sampleFrom_chunks data step Hstep (ceilDiv (length data) step) 0
                (length data) []) as Hloop.
  simpl in Hloop. rewrite Hloop.
  - unfold Spec.chunks. by rewrite flat_map_of_map.
  - specialize (Hrun ltac:(lia)). nia.
  - exact Hend.
  - intros Hc. replace (ceilDiv (length data) step - 0) with (ceilDiv (length data) step) by lia.
    apply Hrun. lia.
Qed.

Lemma chunks_count maxDataPoints data :
  1 <= maxDataPoints -> maxDataPoints < length data ->
  1 <= length (Spec.chunks (ceilDiv (length data) maxDataPoints) data) <= maxDataPoints.
Proof.
  intros Hm Hlt. unfold Spec.chunks. rewrite length_map, length_seq.
  destruct (ceilDiv_spec (length data) maxDataPoints Hm) as [Hcover _].
  set (step := ceilDiv (length data) maxDataPoints) in *.
  assert (Hstep : 1 <= step) by nia.
  destruct (ceilDiv_spec (length data) step Hstep) as [Hend Hrun].
  specialize (Hrun ltac:(lia)). nia.
Qed.

Lemma slice_length (data : list ChartDatum) from to :
  to <= length data -> length (slice data from to) = to - from.
Proof.
  intros Hto. unfold slice. rewrite length_firstn, length_skipn. lia.
Qed.

(** Where downsampling triggers, no chunk is empty. *)
Lemma chunks_nonempty step data :
  1 <= step -> Forall (fun chunk => chunk <> []) (Spec.chunks step data).
Proof.
  intros Hstep. unfold Spec.chunks. apply Forall_map, List.Forall_forall.
  intros k Hk. apply in_seq in Hk.
  destruct (ceilDiv_spec (length data) step Hstep) as [_ Hrun].
  assert (Hn : 1 <= length data).
  { destruct (length data); [|lia]. unfold ceilDiv in Hk.
    destruct (step =? 0)%nat; [lia|].
    rewrite Nat.div_small in Hk; lia. }
  specialize (Hrun Hn).
  intros Hnil. apply (f_equal (@length _)) in Hnil.
  rewrite slice_length in Hnil by lia. simpl in Hnil. nia.
Qed.

Lemma ceilDiv_pos n m : m < n -> 1 <= ceilDiv n m.
Proof.
  intros Hlt. unfold ceilDiv. destruct (m =? 0)%nat eqn:Hm0; [lia|].
  apply Nat.eqb_neq in Hm0. apply Nat.div_le_lower_bound; lia.
Qed.

(** C3, counterexample: three points and [maxDataPoints = 2] give a step of
    2, the chunks of 2 points and 1 point contribute all their points, and
    the output is as long as the input. *)
Lemma virtualizeData_not_shorter :
  let data := [Fixtures.point 0 1; Fixtures.point 1 2; Fixtures.point 2 3] in
  1 <= 2 /\ 2 < length data
  /\ virtualizeData 2 data = map Some data
  /\ ~ length (virtualizeData 2 data) < length data.
Proof.
  intros data. split; [lia|]. split; [simpl; lia|].
  split; [reflexivity|]. vm_compute. lia.
Qed.

(** C3, as amended: where downsampling triggers, the output has at least 1
    and at most 4 x maxDataPoints entries; it is shorter than the input
    whenever the input has more than 4 x maxDataPoints points. *)
Theorem virtualizeData_length_bounds maxDataPoints data :
  1 <= maxDataPoints -> maxDataPoints < length data ->
  1 <= length (virtualizeData maxDataPoints data) <= 4 * maxDataPoints
  /\ (4 * maxDataPoints < length data ->
      length (virtualizeData maxDataPoints data) < length data).
Proof.
  intros Hm Hlt.
  assert (Hbounds : 1 <= length (virtualizeData maxDataPoints data) <= 4 * maxDataPoints);
    [|split; [exact Hbounds|lia]].
  rewrite virtualizeData_chunks by exact Hlt.
  pose proof (chunks_count maxDataPoints data Hm Hlt) as Hcount.
  pose proof (chunks_nonempty (ceilDiv (length data) maxDataPoints) data
                (ceilDiv_pos _ _ Hlt)) as Hne.
  split.
  - destruct (Spec.chunks _ data) as [|chunk chunks]; [simpl in Hcount; lia|].
    apply Forall_cons_iff in Hne as [Hchunk _].
    simpl. rewrite length_app.
    pose proof (pushChunk_length_ge chunk Hchunk). lia.
  - pose proof (flat_map_length_le (pushChunk []) 4
                  (Spec.chunks (ceilDiv (length data) maxDataPoints) data)
                  pushChunk_length_le).
    nia.
Qed.

Lemma virtualizeData_length_bounds_witness :
  let data := map (fun i => Fixtures.point (Z.of_nat i) (Z.of_nat (i mod 7))) (seq 0 50) in
  1 <= length (virtualizeData 5 data) <= 4 * 5
  /\ (4 * 5 < length data -> length (virtualizeData 5 data) < length data).
Proof.
  intros data.
  apply (virtualizeData_length_bounds 5 data); [lia|vm_compute; lia].
Defined.

(** *** The representatives of a chunk *)

Lemma set_of_map {A B} (eqbA : A -> A -> bool) (eqbB : B -> B -> bool) (f : A -> B) :
  (forall a a', eqbB (f a) (f a') = eqbA a a') ->
  forall xs s,
    fold_left (Js.set_add eqbB) (map f xs) (map f s)
    = map f (fold_left (Js.set_add eqbA) xs s).
Proof.
  intros Hf. induction xs as [|x xs IH]; intros s; simpl; [reflexivity|].
  rewrite <- IH. f_equal. unfold Js.set_add, Js.set_has.
  assert (Hhas : existsb (eqbB (f x)) (map f s) = existsb (eqbA x) s).
  { clear IH. induction s as [|a s IHs]; simpl; [reflexivity|]. by rewrite Hf, IHs. }
  rewrite Hhas. destruct (existsb _ s); [reflexivity|]. by rewrite map_app.
Qed.

Lemma eqb_of_nat a b : (Z.of_nat a =? Z.of_nat b)%Z = (a =? b)%nat.
Proof.
  destruct (Nat.eqb_spec a b) as [-> | Hne]; [apply Z.eqb_refl|].
  apply Z.eqb_neq. lia.
Qed.

Lemma nth_error_lt {A} (xs : list A) k x : nth_error xs k = Some x -> k < length xs.
Proof. intros H. apply nth_error_Some. congruence. Qed.

Lemma at_index_of_nat chunk k : at_index chunk (Z.of_nat k) = nth_error chunk k.
Proof.
  unfold at_index. assert (H : (Z.of_nat k <? 0)%Z = false) by (apply Z.ltb_ge; lia).
  by rewrite H, Nat2Z.id.
Qed.

Lemma push_in_range (chunk : list ChartDatum) indices :
  Forall (fun k => k < length chunk) indices ->
  flat_map
    (fun index =>
       if (index <? Z.of_nat (length chunk))%Z then [at_index chunk index] else [])
    (map Z.of_nat indices)
  = map (nth_error chunk) indices.
Proof.
  induction 1 as [|k indices Hk _ IH]; simpl; [reflexivity|].
  assert (H : (Z.of_nat k <? Z.of_nat (length chunk))%Z = true) by (apply Z.ltb_lt; lia).
  by rewrite H, at_index_of_nat, IH.
Qed.

(** The position [indexOf] finds for an extremum [target] of the values. *)
Lemma indexOf_extremum chunk target :
  target <> Js.NaN -> In target (map valueOfDatum chunk) ->
  exists k item,
    indexOf (map valueOfDatum chunk) target = Z.of_nat k
    /\ nth_error chunk k = Some item
    /\ Js.strict_eq (valueOfDatum item) target = true.
Proof.
  intros Htarget Hin.
  destruct (indexOf_from_found _ _ Htarget Hin 0%Z) as (k & v & Hidx & Hnth & Hv).
  rewrite nth_error_map in Hnth.
  destruct (nth_error chunk k) as [item|] eqn:Hitem; [|discriminate].
  injection Hnth as <-. by exists k, item.
Qed.

(** The representatives of a chunk of numeric points: the entries at the
    positions 0, [minIndex], [maxIndex] and [length - 1], each position
    once, in this order. *)
Lemma pushChunk_numeric chunk :
  chunk <> [] -> Forall Spec.numeric chunk ->
  exists minIndex maxIndex lowest highest,
    nth_error chunk minIndex = Some lowest
    /\ nth_error chunk maxIndex = Some highest
    /\ Forall (fun item => Js.leb (valueOfDatum lowest) (valueOfDatum item) = true) chunk
    /\ Forall (fun item => Js.leb (valueOfDatum item) (valueOfDatum highest) = true) chunk
    /\ Forall (fun k => k < length chunk)
              (Js.set_of Nat.eqb [0; minIndex; maxIndex; length chunk - 1])
    /\ pushChunk [] chunk
       = map (nth_error chunk)
             (Js.set_of Nat.eqb [0; minIndex; maxIndex; length chunk - 1]).
Proof.
  intros Hne Hnumeric.
  assert (Hvalues : Forall (fun v => v <> Js.NaN) (map valueOfDatum chunk))
    by (apply Forall_map; exact Hnumeric).
  assert (Hvne : map valueOfDatum chunk <> []) by (destruct chunk; simpl; congruence).
  destruct (Math_min_spec _ Hvne Hvalues) as (Hmin_in & Hmin_num & Hmin_all).
  destruct (Math_max_spec _ Hvne Hvalues) as (Hmax_in & Hmax_num & Hmax_all).
  destruct (indexOf_extremum chunk _ Hmin_num Hmin_in)
    as (minIndex & lowest & Hmin_idx & Hlowest & Hmin_eq).
  destruct (indexOf_extremum chunk _ Hmax_num Hmax_in)
    as (maxIndex & highest & Hmax_idx & Hhighest & Hmax_eq).
  exists minIndex, maxIndex, lowest, highest.
  assert (Hlen : 1 <= length chunk) by (destruct chunk; simpl; [congruence|lia]).
  assert (Hrange : Forall (fun k => k < length chunk)
                     (Js.set_of Nat.eqb [0; minIndex; maxIndex; length chunk - 1])).
  { apply List.Forall_forall. intros k Hk.
    apply (proj1 (proj2 (set_of_distinct Nat.eqb Nat.eqb_eq _) k)) in Hk.
    pose proof (nth_error_lt _ _ _ Hlowest). pose proof (nth_error_lt _ _ _ Hhighest).
    destruct Hk as [<- | [<- | [<- | [<- | []]]]]; lia. }
  repeat split; [exact Hlowest|exact Hhighest| | |exact Hrange|].
  - apply Forall_map in Hmin_all. eapply List.Forall_impl; [|exact Hmin_all].
    intros item Hitem. simpl in Hitem. eapply strict_eq_leb; eassumption.
  - apply Forall_map in Hmax_all. eapply List.Forall_impl; [|exact Hmax_all].
    intros item Hitem. simpl in Hitem. eapply strict_eq_geb; eassumption.
  - unfold pushChunk. destruct (length chunk =? 1)%nat eqn:Hone.
    + apply Nat.eqb_eq in Hone.
      destruct chunk as [|item [|item' chunk]]; simpl in Hone; try lia.
      pose proof (nth_error_lt _ _ _ Hlowest) as Hlo.
      pose proof (nth_error_lt _ _ _ Hhighest) as Hhi. simpl in Hlo, Hhi.
      replace minIndex with 0%nat by lia. replace maxIndex with 0%nat by lia.
      reflexivity.
    + rewrite fold_push. simpl app. unfold indicesToAdd.
      rewrite Hmin_idx, Hmax_idx.
      replace (Z.of_nat (length chunk) - 1)%Z with (Z.of_nat (length chunk - 1)) by lia.
      unfold Js.set_of.
      change [0%Z; Z.of_nat minIndex; Z.of_nat maxIndex; Z.of_nat (length chunk - 1)]
        with (map Z.of_nat [0%nat; minIndex; maxIndex; length chunk - 1]).
      change (@nil Z) with (map Z.of_nat []).
      rewrite (set_of_map Nat.eqb Z.eqb Z.of_nat eqb_of_nat).
      by apply push_in_range.
Qed.

(** *** The chunks partition the input *)

Lemma firstn_add_skipn {A} (xs : list A) a b :
  firstn (a + b) xs = firstn a xs ++ firstn b (skipn a xs).
Proof.
  revert xs. induction a as [|a IH]; intros xs; simpl; [reflexivity|].
  destruct xs as [|x xs]; simpl; [by rewrite firstn_nil|]. by rewrite IH.
Qed.

Lemma slice_firstn (data : list ChartDatum) from step :
  slice data from (Nat.min (from + step) (length data)) = firstn step (skipn from data).
Proof.
  unfold slice.
  destruct (Nat.le_ge_cases (from + step) (length data)) as [Hle | Hge].
  - rewrite Nat.min_l by exact Hle. f_equal. lia.
  - rewrite Nat.min_r by exact Hge.
    rewrite !firstn_all2; [reflexivity| |]; rewrite length_skipn; lia.
Qed.

Lemma chunks_upto (data : list ChartDatum) step count :
  concat (map (fun k => slice data (k * step) (Nat.min (k * step + step) (length data)))
              (seq 0 count))
  = firstn (count * step) data.
Proof.
  induction count as [|count IH]; [reflexivity|].
  rewrite seq_S, map_app, concat_app, IH. simpl.
  rewrite app_nil_r, slice_firstn.
  replace (step + count * step) with (count * step + step) by lia.
  by rewrite firstn_add_skipn.
Qed.

(** Laid end to end, the chunks are the input. *)
Lemma chunks_partition step data :
  1 <= step -> concat (Spec.chunks step data) = data.
Proof.
  intros Hstep. unfold Spec.chunks. rewrite chunks_upto.
  apply firstn_all2. apply (ceilDiv_spec (length data) step Hstep).
Qed.

(** A chunk of numeric points contributes no more entries than it has
    points. *)
Lemma pushChunk_length_le_chunk chunk :
  chunk <> [] -> Forall Spec.numeric chunk ->
  length (pushChunk [] chunk) <= length chunk.
Proof.
  intros Hne Hnumeric.
  destruct (pushChunk_numeric chunk Hne Hnumeric)
    as (minIndex & maxIndex & _ & _ & _ & _ & _ & _ & Hrange & ->).
  rewrite length_map.
  rewrite <- (length_seq (length chunk) 0) at 2.
  apply List.NoDup_incl_length.
  - apply (set_of_distinct Nat.eqb Nat.eqb_eq).
  - intros k Hk. apply in_seq.
    rewrite List.Forall_forall in Hrange. specialize (Hrange k Hk). lia.
Qed.

Lemma flat_map_length_concat {A B} (f : list A -> list B) (xss : list (list A)) :
  Forall (fun xs => length (f xs) <= length xs) xss ->
  length (flat_map f xss) <= length (concat xss).
Proof.
  induction 1 as [|xs xss Hxs _ IH]; simpl; [lia|].
  rewrite !length_app. lia.
Qed.

(** Downsampling numeric points never lengthens the sequence. *)
Lemma virtualizeData_length_le_input maxDataPoints data :
  maxDataPoints < length data -> Forall Spec.numeric data ->
  length (virtualizeData maxDataPoints data) <= length data.
Proof.
  intros Hlt Hnumeric.
  pose proof (ceilDiv_pos _ _ Hlt) as Hstep.
  rewrite virtualizeData_chunks by exact Hlt.
  rewrite <- (chunks_partition _ data Hstep) at 3.
  apply flat_map_length_concat.
  pose proof (chunks_nonempty _ data Hstep) as Hne.
  assert (Hall : Forall (Forall Spec.numeric)
                   (Spec.chunks (ceilDiv (length data) maxDataPoints) data)).
  { apply List.Forall_forall. intros chunk Hchunk.
    apply List.Forall_forall. intros item Hitem.
    rewrite List.Forall_forall in Hnumeric. apply Hnumeric.
    rewrite <- (chunks_partition _ data Hstep). apply in_concat. eauto. }
  rewrite List.Forall_forall in Hne, Hall. apply List.Forall_forall.
  intros chunk Hchunk. apply pushChunk_length_le_chunk; auto.
Qed.

(** C4, on a chunk with an ordinate that is NaN: downsampling the two
    points below to one point makes one chunk of both; the ordinate of the
    first is NaN, so [Math.min] and [Math.max] are NaN, [indexOf] finds
    neither and returns -1, which passes the guard [index < chunk.length],
    and the entry pushed for it is [undefined], which is no element of the
    chunk: the representatives are not the first, a minimum, a maximum and
    the last element.  [updateChartData] then throws on the [undefined]
    entry. *)
Theorem nan_chunk_pushes_undefined :
  let first := ChartDataPoint (XNumber (Js.Fin 0)) Js.NaN None in
  let last := Fixtures.point 1 1 in
  Spec.chunks (ceilDiv 2 1) [first; last] = [[first; last]]
  /\ indicesToAdd [first; last] = [0; -1; 1]%Z
  /\ virtualizeData 1 [first; last] = [Some first; None; Some last]
  /\ ~ In None (map Some [first; last])
  /\ updateChartData {| chart := Some []; data := [first; last]; maxDataPoints := 1 |}
     = Js.Thrown
         (Js.TypeError "Cannot use 'in' operator to search for 'timestamp' in undefined").
Proof.
  repeat split. simpl. intros [H | [H | []]]; discriminate H.
Qed.

(** X30.  Where downsampling triggers, the input is cut into consecutive
    chunks, none of which is empty, and the output is their contributions
    in order.  A chunk whose ordinates are all numbers (none is NaN)
    contributes its entries at the
    positions 0, [minIndex], [maxIndex] and [length - 1], each position once
    and in this insertion order, where the entry at [minIndex] has the
    least ordinate of the chunk and the entry at [maxIndex] the greatest; a
    chunk of one element contributes that element.  The order of emission
    is not the order of the chunk: in the first example the minimum is
    emitted before the maximum although it comes after it, in the second
    one the maximum, being the first element, is emitted before the
    minimum. *)
Theorem chunk_representatives :
  (forall maxDataPoints data,
     maxDataPoints < length data ->
     let chunks := Spec.chunks (ceilDiv (length data) maxDataPoints) data in
     concat chunks = data
     /\ Forall (fun chunk => chunk <> []) chunks
     /\ virtualizeData maxDataPoints data = flat_map (pushChunk []) chunks)
  /\ (forall chunk out,
        chunk <> [] -> Forall Spec.numeric chunk ->
        exists minIndex maxIndex lowest highest,
          nth_error chunk minIndex = Some lowest
          /\ nth_error chunk maxIndex = Some highest
          /\ Forall (fun item =>
                       Js.leb (valueOfDatum lowest) (valueOfDatum item) = true) chunk
          /\ Forall (fun item =>
                       Js.leb (valueOfDatum item) (valueOfDatum highest) = true) chunk
          /\ Forall (fun k => k < length chunk)
                    (Js.set_of Nat.eqb [0; minIndex; maxIndex; length chunk - 1])
          /\ pushChunk out chunk
             = out ++ map (nth_error chunk)
                          (Js.set_of Nat.eqb [0; minIndex; maxIndex; length chunk - 1]))
  /\ (forall item out, pushChunk out [item] = out ++ [Some item])
  /\ pushChunk [] [Fixtures.point 0 5; Fixtures.point 1 9; Fixtures.point 2 1;
                   Fixtures.point 3 5]
     = [Some (Fixtures.point 0 5); Some (Fixtures.point 2 1);
        Some (Fixtures.point 1 9); Some (Fixtures.point 3 5)]
  /\ pushChunk [] [Fixtures.point 0 9; Fixtures.point 1 1; Fixtures.point 2 5]
     = [Some (Fixtures.point 0 9); Some (Fixtures.point 1 1);
        Some (Fixtures.point 2 5)].
Proof.
  split; [|split; [|split; [|split; reflexivity]]].
  - intros maxDataPoints data Hlt chunks.
    pose proof (ceilDiv_pos _ _ Hlt) as Hstep. repeat split.
    + by apply chunks_partition.
    + by apply chunks_nonempty.
    + by apply virtualizeData_chunks.
  - intros chunk out Hne Hnumeric.
    destruct (pushChunk_numeric chunk Hne Hnumeric)
      as (minIndex & maxIndex & lowest & highest & H1 & H2 & H3 & H4 & H5 & H6).
    exists minIndex, maxIndex, lowest, highest.
    rewrite pushChunk_app, H6. auto 10.
  - reflexivity.
Qed.

(** The chunk [5, 9, 1, 5]: minimum at position 2, maximum at position 1. *)
Lemma chunk_representatives_witness :
  let chunk := [Fixtures.point 0 5; Fixtures.point 1 9; Fixtures.point 2 1;
                Fixtures.point 3 5] in
  chunk <> [] /\ Forall Spec.numeric chunk
  /\ exists minIndex maxIndex lowest highest,
       nth_error chunk minIndex = Some lowest
       /\ nth_error chunk maxIndex = Some highest
       /\ Forall (fun item =>
                    Js.leb (valueOfDatum lowest) (valueOfDatum item) = true) chunk
       /\ Forall (fun item =>
                    Js.leb (valueOfDatum item) (valueOfDatum highest) = true) chunk
       /\ Forall (fun k => k < length chunk)
                 (Js.set_of Nat.eqb [0; minIndex; maxIndex; length chunk - 1])
       /\ pushChunk [] chunk
          = [] ++ map (nth_error chunk)
                      (Js.set_of Nat.eqb [0; minIndex; maxIndex; length chunk - 1]).
Proof.
  intros chunk.
  assert (Hne : chunk <> []) by discriminate.
  assert (Hnumeric : Forall Spec.numeric chunk) by (repeat constructor; discriminate).
  split; [exact Hne|]. split; [exact Hnumeric|].
  exact (proj1 (proj2 chunk_representatives) chunk [] Hne Hnumeric).
Defined.

(** ** The cases of the test suites, replayed on the model *)

(** "should load sales data from CSV over HTTP" *)
Example test_load_over_http :
  loadSalesDataFromCsv IsoDate.momentParse IsoDate.clock
    (Js.Next (Fixtures.csv ["id1,2025-10-01,10.5,2,c1,p1,Name,Cat,Region"]))
  = Js.Next [ {| id := "id1"; date := Instant 1759276800000; revenue := Js.literal 10.5;
                 orders := Js.Fin 2; customerId := "c1"; productId := "p1";
                 productName := None; category := "Cat"; region := "Region" |} ].
Proof. vm_compute. reflexivity. Qed.

(** "should parse CSV with quoted commas correctly" *)
Example test_quoted_commas :
  exists item,
    IsoDate.parseCsvToSalesData (Fixtures.csv
               ["id2,2025-10-02,99.99,1,c2,p2," ++ Fixtures.quoted "ACME, Inc."
                ++ ",Electronics," ++ Fixtures.quoted "North, America"]%string)
    = Js.Returned [item]
    /\ id item = "id2" /\ revenue item = Js.literal 99.99 /\ orders item = Js.Fin 1
    /\ category item = "Electronics" /\ region item = "North, America".
Proof. eexists. split; [vm_compute; reflexivity|]. vm_compute. repeat split. Qed.

(** "should skip lines with mismatched columns and log a warning" *)
Example test_column_mismatch :
  exists item,
    IsoDate.parseCsv (Fixtures.csv ["id3,2025-10-03,20.00,1,c3,p3,Prod,Category";
                         "id4,2025-10-03,30.00,1,c4,p4,Prod,Category,Region"])
    = Js.Returned {| salesData := [item]; warnings := [WarnColumnCountMismatch 2] |}
    /\ id item = "id4".
Proof. eexists. split; [vm_compute; reflexivity|reflexivity]. Qed.

(** "should skip invalid rows (invalid date) and log a warning" *)
Example test_invalid_date :
  exists item,
    IsoDate.parseCsv (Fixtures.csv ["id5,not-a-date,20.00,1,c5,p5,Prod,Category,Region"])
    = Js.Returned {| salesData := []; warnings := [WarnInvalidData 2 item] |}
    /\ date item = InvalidDate.
Proof. eexists. split; [vm_compute; reflexivity|reflexivity]. Qed.

(** "should skip invalid rows (negative revenue)" *)
Example test_negative_revenue :
  IsoDate.parseCsvToSalesData (Fixtures.csv ["id6,2025-10-04,-1,1,c6,p6,Prod,Category,Region"])
  = Js.Returned [].
Proof. vm_compute. reflexivity. Qed.

(** "should apply sensible defaults when fields are missing or empty" *)
Example test_defaults :
  IsoDate.parseCsvToSalesData (Fixtures.csv [",2025-10-05,,,,,,,"])
  = Js.Returned [Spec.defaultRecord 1 (Instant 1759622400000)].
Proof. vm_compute. reflexivity. Qed.

(** "should ignore empty lines" *)
Example test_empty_lines :
  exists item,
    IsoDate.parseCsvToSalesData
      (Fixtures.csv [EmptyString; "id7,2025-10-06,12.34,1,c7,p7,Prod,Category,Region";
                     "   "])
    = Js.Returned [item]
    /\ id item = "id7".
Proof. eexists. split; [vm_compute; reflexivity|reflexivity]. Qed.

(** "should handle failed sample data load gracefully" *)
Example test_failed_sample_load :
  salesDataSubject
    (construct IsoDate.momentParse IsoDate.clock
       (fun _ => Js.ErrorNotification (Js.Error "Failed to load")) 1759276800000)
  = [].
Proof. reflexivity. Qed.

(** "should filter data by region", "by category" and "should apply multiple
    filters simultaneously" *)
Example test_filters :
  map id (applyFilters Fixtures.mockSalesData (Fixtures.year2024Filter ["North"] []))
  = ["order1"; "order3"]
  /\ map id (applyFilters Fixtures.mockSalesData (Fixtures.year2024Filter [] ["Home"]))
     = ["order4"]
  /\ map id (applyFilters Fixtures.mockSalesData
               (Fixtures.year2024Filter ["North"] ["Electronics"]))
     = ["order1"; "order3"].
Proof. repeat split. Qed.

(** "should calculate total revenue / total orders / average order value /
    unique customer count correctly" and "should handle empty data
    gracefully" *)
Example test_dashboard_metrics :
  let m := calculateDashboardMetrics Fixtures.mockSalesData in
  let empty := calculateDashboardMetrics [] in
  totalRevenue m = Js.Fin 750 /\ totalOrders m = 4%nat
  /\ Js.num_eq (averageOrderValue m) (Js.Fin 187.5) /\ customerCount m = 3%nat
  /\ totalRevenue empty = Js.Fin 0 /\ totalOrders empty = 0%nat
  /\ averageOrderValue empty = Js.Fin 0 /\ customerCount empty = 0%nat.
Proof. vm_compute. repeat split. Qed.

(** "should aggregate metrics by product", "should calculate product revenue
    correctly", "should use actual product names when available" and "should
    calculate average order value per product" *)
Example test_product_metrics :
  exists product1 product2 product3,
    calculateProductMetrics (fun _ => Js.literal 0.5) Fixtures.mockSalesData
    = [product1; product2; product3]
    /\ pm_productId product1 = "product1"
    /\ pm_totalRevenue product1 = Js.Fin 550
    /\ name product1 = "Widget A"
    /\ Js.num_eq (pm_averageOrderValue product1) (Js.Fin 275).
Proof. do 3 eexists. split; [vm_compute; reflexivity|]. vm_compute. repeat split. Qed.

(** "virtualizeData should return original data when below threshold" *)
Example test_below_threshold :
  let data := map (fun i => Fixtures.point (Z.of_nat i) (Z.of_nat i)) (seq 0 5) in
  virtualizeData 10 data = map Some data.
Proof. reflexivity. Qed.

(** "virtualizeData should sample large datasets and include representative
    points", on a saw-tooth signal. *)
Example test_large_dataset :
  let n := 5000%nat in
  let data := map (fun i => Fixtures.point (Z.of_nat i) (Z.of_nat (i mod 50))) (seq 0 n) in
  length (virtualizeData 200 data) < n
  /\ 0 < length (virtualizeData 200 data)
  /\ length (virtualizeData 200 data) <= 200 * 4.
Proof. vm_compute. lia. Qed.

(** * Further properties *)

(** ** Strings *)

Lemma append_cons c (a b : string) : (String c a ++ b = String c (a ++ b))%string.
Proof. reflexivity. Qed.

Lemma append_empty_l (a : string) : (EmptyString ++ a = a)%string.
Proof. reflexivity. Qed.

Lemma append_assoc_string (a b c : string) : ((a ++ b) ++ c = a ++ (b ++ c))%string.
Proof.
  induction a as [|x a IH]; [reflexivity|]. rewrite !append_cons. by rewrite IH.
Qed.

Lemma append_empty_r (a : string) : (a ++ EmptyString = a)%string.
Proof. induction a as [|x a IH]; [reflexivity|]. rewrite append_cons. by rewrite IH. Qed.

Lemma trimEnd_idempotent s : Js.trimEnd (Js.trimEnd s) = Js.trimEnd s.
Proof.
  induction s as [|c s IH]; simpl; [reflexivity|].
  destruct (Js.trimEnd s) as [|d t] eqn:Hend.
  - destruct (Js.isWhiteSpace c) eqn:Hc; simpl; [reflexivity|]. by rewrite Hc.
  - simpl. simpl in IH. by rewrite IH.
Qed.

Lemma trimStart_startsClean s : Shape.startsClean (Js.trimStart s).
Proof.
  induction s as [|c s IH]; simpl; [exact I|].
  destruct (Js.isWhiteSpace c) eqn:Hc; [exact IH|exact Hc].
Qed.

Lemma trimEnd_startsClean s : Shape.startsClean s -> Shape.startsClean (Js.trimEnd s).
Proof.
  destruct s as [|c s]; simpl; [auto|]. intros Hc.
  destruct (Js.trimEnd s); [rewrite Hc|]; exact Hc.
Qed.

Lemma trimStart_clean s : Shape.startsClean s -> Js.trimStart s = s.
Proof. destruct s as [|c s]; simpl; [auto|]. by intros ->. Qed.

(** [trim] leaves a trimmed string as it is. *)
Lemma trim_idempotent s : Js.trim (Js.trim s) = Js.trim s.
Proof.
  unfold Js.trim.
  rewrite (trimStart_clean (Js.trimEnd (Js.trimStart s)))
    by apply trimEnd_startsClean, trimStart_startsClean.
  apply trimEnd_idempotent.
Qed.

Lemma trimEnd_empty s : Js.trimEnd s = EmptyString <-> Shape.allWhiteSpace s = true.
Proof.
  induction s as [|c s IH]; simpl; [tauto|].
  destruct (Js.trimEnd s) as [|d t].
  - destruct (Js.isWhiteSpace c); simpl; [tauto|]. split; discriminate.
  - split; [discriminate|]. intros H. apply andb_prop in H as [_ H].
    apply IH in H. discriminate H.
Qed.

Lemma allWhiteSpace_trimStart s :
  Shape.allWhiteSpace (Js.trimStart s) = Shape.allWhiteSpace s.
Proof.
  induction s as [|c s IH]; simpl; [reflexivity|].
  destruct (Js.isWhiteSpace c) eqn:Hc; simpl; [exact IH|]. by rewrite Hc.
Qed.

(** A string trims to the empty string exactly when it is white space. *)
Lemma trim_empty s : Js.trim s = EmptyString <-> Shape.allWhiteSpace s = true.
Proof. unfold Js.trim. by rewrite trimEnd_empty, allWhiteSpace_trimStart. Qed.

Lemma nonBlank_allWhiteSpace s : Shape.nonBlank s = negb (Shape.allWhiteSpace s).
Proof.
  unfold Shape.nonBlank. f_equal.
  destruct (Shape.allWhiteSpace s) eqn:Hs.
  - apply trim_empty in Hs. by rewrite Hs.
  - apply String.eqb_neq. intros H. apply trim_empty in H. congruence.
Qed.

Lemma split_nonempty sep s : Js.split sep s <> [].
Proof.
  destruct s as [|c s]; simpl; [discriminate|].
  destruct (Ascii.eqb c sep); [discriminate|]. destruct (Js.split sep s); discriminate.
Qed.

Lemma split_plain sep s : Shape.contains sep s = false -> Js.split sep s = [s].
Proof.
  induction s as [|c s IH]; simpl; [reflexivity|]. intros H.
  apply orb_false_elim in H as [Hc Hs]. rewrite Hc, (IH Hs). reflexivity.
Qed.

Lemma split_app sep s rest :
  Shape.contains sep s = false ->
  Js.split sep (s ++ String sep rest) = s :: Js.split sep rest.
Proof.
  induction s as [|c s IH]; intros H.
  - rewrite append_empty_l. simpl. by rewrite Ascii.eqb_refl.
  - simpl in H. apply orb_false_elim in H as [Hc Hs].
    rewrite append_cons. simpl. by rewrite Hc, (IH Hs).
Qed.

(** [split] undoes [join] on parts that do not hold the separator. *)
Lemma split_join sep parts :
  parts <> [] -> Forall (fun part => Shape.contains sep part = false) parts ->
  Js.split sep (Js.join sep parts) = parts.
Proof.
  intros Hne Hparts. induction Hparts as [|part parts Hpart Hparts IH]; [congruence|].
  destruct parts as [|part' parts].
  - simpl. by apply split_plain.
  - change (Js.join sep (part :: part' :: parts))
      with (part ++ String sep (Js.join sep (part' :: parts)))%string.
    rewrite split_app by exact Hpart. f_equal. apply IH. discriminate.
Qed.

(** ** The tokenizer *)

Lemma scan_field s : forall rest result current inQuotes,
  Shape.contains dquote s = false ->
  inQuotes = true \/ Shape.contains comma s = false ->
  parseCsvLine_from (s ++ rest) result current inQuotes
  = parseCsvLine_from rest result (current ++ s) inQuotes.
Proof.
  induction s as [|c s IH]; intros rest result current inQuotes Hquote Hcomma.
  - by rewrite append_empty_l, append_empty_r.
  - simpl in Hquote. apply orb_false_elim in Hquote as [Hc Hquote].
    assert (Hsep : Ascii.eqb c comma && negb inQuotes = false).
    { destruct Hcomma as [-> | Hcomma]; [apply andb_false_r|].
      simpl in Hcomma. apply orb_false_elim in Hcomma as [-> _]. reflexivity. }
    rewrite append_cons. simpl. rewrite Hc, Hsep.
    rewrite IH; [by rewrite append_assoc_string| exact Hquote |].
    destruct Hcomma as [-> | Hcomma]; [by left|right].
    simpl in Hcomma. by apply orb_false_elim in Hcomma as [_ ?].
Qed.

Lemma scan_quote rest result current inQuotes :
  parseCsvLine_from (String dquote rest) result current inQuotes
  = parseCsvLine_from rest result current (negb inQuotes).
Proof. reflexivity. Qed.

Lemma scan_comma rest result current :
  parseCsvLine_from (String comma rest) result current false
  = parseCsvLine_from rest (result ++ [Js.trim current]) EmptyString false.
Proof. reflexivity. Qed.

Lemma quoted_cons field :
  Fixtures.quoted field = String dquote (field ++ String dquote EmptyString).
Proof. reflexivity. Qed.

Lemma scan_written field rest result current :
  Shape.writable field ->
  parseCsvLine_from (Shape.written field ++ rest) result current false
  = parseCsvLine_from rest result (current ++ snd field) false.
Proof.
  destruct field as [quoted s]. unfold Shape.writable, Shape.written.
  cbn [fst snd]. intros [Hquote Hcomma]. destruct quoted.
  - rewrite quoted_cons, append_cons, append_assoc_string, append_cons, append_empty_l.
    rewrite scan_quote. rewrite scan_field by auto. by rewrite scan_quote.
  - apply scan_field; auto.
Qed.

Lemma parseCsvLine_written fields : forall result,
  fields <> [] -> Forall Shape.writable fields ->
  parseCsvLine_from (Js.join comma (map Shape.written fields)) result EmptyString false
  = result ++ map (fun field => Js.trim (snd field)) fields.
Proof.
  induction fields as [|field fields IH]; intros result Hne Hfields; [congruence|].
  apply Forall_cons_iff in Hfields as [Hfield Hfields].
  destruct fields as [|field' fields].
  - simpl map. change (Js.join comma [Shape.written field]) with (Shape.written field).
    rewrite <- (append_empty_r (Shape.written field)).
    rewrite scan_written by exact Hfield. reflexivity.
  - change (Js.join comma (map Shape.written (field :: field' :: fields)))
      with (Shape.written field
            ++ String comma (Js.join comma (map Shape.written (field' :: fields))))%string.
    rewrite scan_written by exact Hfield.
    rewrite scan_comma.
    rewrite IH by (auto; discriminate).
    rewrite append_empty_l, <- app_assoc. reflexivity.
Qed.

(** X1.  A line written from fields that hold no double quote, each one
    bare or between double quotes, and bare only if it holds no comma, is
    read back as these fields, trimmed: quoting protects commas, and the
    quotes themselves are dropped. *)
Theorem parseCsvLine_reads_written_fields fields :
  fields <> [] -> Forall Shape.writable fields ->
  parseCsvLine (Js.join comma (map Shape.written fields))
  = map (fun field => Js.trim (snd field)) fields.
Proof. intros Hne Hfields. unfold parseCsvLine. by rewrite parseCsvLine_written. Qed.

Lemma parseCsvLine_reads_written_fields_witness :
  parseCsvLine
    (Js.join comma
       (map Shape.written [(false, "id2"); (true, "ACME, Inc."); (false, " Electronics ")]))
  = map (fun field => Js.trim (snd field))
        [(false, "id2"); (true, "ACME, Inc."); (false, " Electronics ")].
Proof.
  apply (parseCsvLine_reads_written_fields
           [(false, "id2"); (true, "ACME, Inc."); (false, " Electronics ")]).
  - discriminate.
  - repeat (constructor;
            [split; [reflexivity|intros H; cbn in H; (discriminate H || reflexivity)]|]).
    constructor.
Defined.

Lemma parseCsvLine_from_trimmed line : forall result current inQuotes,
  Forall (fun value => Js.trim value = value) result ->
  Forall (fun value => Js.trim value = value)
         (parseCsvLine_from line result current inQuotes).
Proof.
  induction line as [|c line IH]; intros result current inQuotes Hresult; simpl.
  - apply Forall_app. split; [exact Hresult|].
    constructor; [apply trim_idempotent|constructor].
  - destruct (Ascii.eqb c dquote); [by apply IH|].
    destruct (Ascii.eqb c comma && negb inQuotes); apply IH; [|exact Hresult].
    apply Forall_app. split; [exact Hresult|].
    constructor; [apply trim_idempotent|constructor].
Qed.

Lemma parseCsvLine_from_length line : forall result current inQuotes,
  length result < length (parseCsvLine_from line result current inQuotes).
Proof.
  induction line as [|c line IH]; intros result current inQuotes; simpl.
  - rewrite length_app. simpl. lia.
  - destruct (Ascii.eqb c dquote); [apply IH|].
    destruct (Ascii.eqb c comma && negb inQuotes); [|apply IH].
    etransitivity; [|apply IH]. rewrite length_app. simpl. lia.
Qed.

(** X2.  Every line, also the empty one, gives at least one value, and no
    value begins or ends with white space: each is its own trimmed form. *)
Theorem parseCsvLine_values_trimmed line :
  1 <= length (parseCsvLine line)
  /\ Forall (fun value => Js.trim value = value) (parseCsvLine line).
Proof.
  split.
  - apply (parseCsvLine_from_length line [] EmptyString false).
  - apply parseCsvLine_from_trimmed. constructor.
Qed.

(** ** Lines *)

Lemma allWhiteSpace_split s :
  Shape.allWhiteSpace s = forallb Shape.allWhiteSpace (Js.split newline s).
Proof.
  induction s as [|c s IH]; [reflexivity|]. simpl.
  destruct (Ascii.eqb c newline) eqn:Hc.
  - apply Ascii.eqb_eq in Hc. subst c. simpl. exact IH.
  - pose proof (split_nonempty newline s) as Hne.
    destruct (Js.split newline s) as [|part parts]; [congruence|].
    simpl in *. rewrite IH. by rewrite andb_assoc.
Qed.

Lemma nonBlankLines_filter csvText :
  nonBlankLines csvText = List.filter Shape.nonBlank (Js.split newline csvText).
Proof. reflexivity. Qed.

Lemma filter_nil_forallb {A} (f : A -> bool) xs :
  List.filter f xs = [] <-> forallb (fun x => negb (f x)) xs = true.
Proof.
  induction xs as [|x xs IH]; simpl; [tauto|].
  destruct (f x); simpl; [split; discriminate|exact IH].
Qed.

Lemma forallb_pointwise {A} (f g : A -> bool) xs :
  (forall x, f x = g x) -> forallb f xs = forallb g xs.
Proof. intros Hfg. induction xs as [|x xs IH]; simpl; [reflexivity|]. by rewrite Hfg, IH. Qed.

Lemma nonBlankLines_nil csvText :
  nonBlankLines csvText = [] <-> Shape.allWhiteSpace csvText = true.
Proof.
  rewrite nonBlankLines_filter, filter_nil_forallb, allWhiteSpace_split.
  rewrite (forallb_pointwise _ Shape.allWhiteSpace); [reflexivity|].
  intros line. rewrite nonBlank_allWhiteSpace. apply negb_involutive.
Qed.

(** X3.  The parser throws exactly on the texts that hold white space only,
    the empty text among them: there is no header line to split, and the
    exception is a TypeError.  On every other text it returns. *)
Theorem parser_throws_on_blank_text momentParse clock csvText :
  (Shape.allWhiteSpace csvText = true ->
   parseCsvToSalesData momentParse clock csvText
   = Js.Thrown (Js.TypeError "Cannot read properties of undefined (reading 'split')"))
  /\ (Shape.allWhiteSpace csvText = false ->
      exists records, parseCsvToSalesData momentParse clock csvText = Js.Returned records).
Proof.
  unfold parseCsvToSalesData, parseCsv. split; intros Hblank.
  - apply nonBlankLines_nil in Hblank. by rewrite Hblank.
  - destruct (nonBlankLines csvText) as [|header rows] eqn:Hlines; [|eauto].
    apply nonBlankLines_nil in Hlines. congruence.
Qed.

Lemma parser_throws_on_blank_text_witness :
  exists e,
    parseCsvToSalesData IsoDate.momentParse IsoDate.clock
      (Js.join newline ["  "; EmptyString; " "]) = Js.Thrown e
  /\ exists records,
       parseCsvToSalesData IsoDate.momentParse IsoDate.clock "date" = Js.Returned records.
Proof.
  eexists. split.
  - apply (proj1 (parser_throws_on_blank_text IsoDate.momentParse IsoDate.clock
                    (Js.join newline ["  "; EmptyString; " "]))).
    reflexivity.
  - apply (proj2 (parser_throws_on_blank_text IsoDate.momentParse IsoDate.clock "date")).
    reflexivity.
Defined.

Lemma filter_idempotent {A} (f : A -> bool) xs :
  List.filter f (List.filter f xs) = List.filter f xs.
Proof.
  induction xs as [|x xs IH]; simpl; [reflexivity|].
  destruct (f x) eqn:Hx; simpl; [|exact IH]. by rewrite Hx, IH.
Qed.

Lemma nonBlankLines_join lines :
  Forall (fun line => Shape.contains newline line = false) lines ->
  nonBlankLines (Js.join newline lines) = List.filter Shape.nonBlank lines.
Proof.
  intros Hlines. rewrite nonBlankLines_filter.
  destruct lines as [|line lines]; [reflexivity|].
  rewrite split_join; [reflexivity|discriminate|exact Hlines].
Qed.

(** X4.  Blank lines do not count: a text and the same text without its
    empty and white-space-only lines give the same result, records and
    warnings alike, so the row index of the default ids and the line
    numbers of the warnings count the non-blank lines only. *)
Theorem parser_ignores_blank_lines momentParse clock lines :
  Forall (fun line => Shape.contains newline line = false) lines ->
  parseCsv momentParse clock (Js.join newline lines)
  = parseCsv momentParse clock (Js.join newline (List.filter Shape.nonBlank lines)).
Proof.
  intros Hlines. unfold parseCsv.
  rewrite !nonBlankLines_join; [by rewrite filter_idempotent| |exact Hlines].
  rewrite List.Forall_forall in *. intros line Hline.
  apply filter_In in Hline as [Hline _]. auto.
Qed.

Lemma parser_ignores_blank_lines_witness :
  parseCsv IsoDate.momentParse IsoDate.clock
    (Js.join newline ["date,revenue"; EmptyString; "2025-10-01,5"; "   "; "x"])
  = parseCsv IsoDate.momentParse IsoDate.clock
      (Js.join newline
         (List.filter Shape.nonBlank
            ["date,revenue"; EmptyString; "2025-10-01,5"; "   "; "x"])).
Proof.
  apply (parser_ignores_blank_lines IsoDate.momentParse IsoDate.clock
           ["date,revenue"; EmptyString; "2025-10-01,5"; "   "; "x"]).
  repeat constructor.
Defined.

(** ** Rows *)

Section Rows.
Variable momentParse : string -> Moment.
Variable clock : nat -> Z.

Lemma parseRow_accounting headers i line st :
  length (salesData (parseRow momentParse clock headers i line st))
  + length (warnings (parseRow momentParse clock headers i line st))
  = S (length (salesData st) + length (warnings st)).
Proof.
  unfold parseRow. destruct (negb _); simpl; [rewrite length_app; simpl; lia|].
  destruct (isValidSalesData _); simpl; rewrite length_app; simpl; lia.
Qed.

Lemma parseRows_accounting headers lines : forall i st,
  length (salesData (parseRows momentParse clock headers i lines st))
  + length (warnings (parseRows momentParse clock headers i lines st))
  = length (salesData st) + length (warnings st) + length lines.
Proof.
  induction lines as [|line lines IH]; intros i st; simpl; [lia|].
  rewrite IH, parseRow_accounting. lia.
Qed.

(** The records of a state do not depend on what was logged before, and
    come after the records that were there. *)
Lemma parseRows_salesData headers lines : forall i st,
  salesData (parseRows momentParse clock headers i lines st)
  = salesData st
    ++ salesData (parseRows momentParse clock headers i lines
                    {| salesData := []; warnings := [] |}).
Proof.
  induction lines as [|line lines IH]; intros i st; simpl; [by rewrite app_nil_r|].
  rewrite IH.
  rewrite (IH (S i) (parseRow momentParse clock headers i line
                       {| salesData := []; warnings := [] |})).
  rewrite app_assoc. f_equal.
  unfold parseRow. destruct (negb _); simpl; [by rewrite app_nil_r|].
  destruct (isValidSalesData _); simpl; [reflexivity|by rewrite app_nil_r].
Qed.

End Rows.

(** X5.  No data line is dropped silently by the parser: the records
    returned and the parser's own warnings, one [console.warn] of
    [parseCsvToSalesData] for each row it skips, are together as many as the
    non-blank lines after the header.  What the date library writes to the
    console while it parses a date is not among these warnings. *)
Theorem parser_accounts_for_every_row momentParse clock csvText st :
  parseCsv momentParse clock csvText = Js.Returned st ->
  length (salesData st) + length (warnings st) + 1 = length (nonBlankLines csvText).
Proof.
  unfold parseCsv. destruct (nonBlankLines csvText) as [|header rows]; [discriminate|].
  intros [= <-]. rewrite parseRows_accounting. simpl. lia.
Qed.

Lemma parser_accounts_for_every_row_witness :
  exists st,
    parseCsv IsoDate.momentParse IsoDate.clock
      (Fixtures.csv ["id3,2025-10-03,20.00,1,c3,p3,Prod,Category";
                     "id4,2025-10-03,30.00,1,c4,p4,Prod,Category,Region";
                     "id5,not-a-date,20.00,1,c5,p5,Prod,Category,Region"])
    = Js.Returned st
    /\ length (salesData st) + length (warnings st) + 1 = 4.
Proof.
  eexists. split; [vm_compute; reflexivity|].
  apply (parser_accounts_for_every_row IsoDate.momentParse IsoDate.clock
           (Fixtures.csv ["id3,2025-10-03,20.00,1,c3,p3,Prod,Category";
                          "id4,2025-10-03,30.00,1,c4,p4,Prod,Category,Region";
                          "id5,not-a-date,20.00,1,c5,p5,Prod,Category,Region"])).
  vm_compute; reflexivity.
Defined.

(** X6.  A row is kept exactly when its column count matches the header's,
    its date is valid and its revenue is not negative; the defaults see to
    it that id, customerId, productId, category and region never fail the
    validation.  A row that is kept adds its record after the records so
    far, a row that is not leaves them as they are. *)
Theorem parseRow_keeps_iff momentParse clock headers i line st :
  let item := salesItem momentParse clock i (buildRow headers (parseCsvLine line)) in
  salesData (parseRow momentParse clock headers i line st)
  = if (length (parseCsvLine line) =? length headers)%nat
       && isValid (date item) && Js.geb (revenue item) Js.zero
    then salesData st ++ [item]
    else salesData st.
Proof.
  intros item. unfold parseRow. fold item.
  destruct (length (parseCsvLine line) =? length headers)%nat;
    cbn [negb andb]; [|reflexivity].
  subst item. rewrite salesItem_valid.
  destruct (isValid _ && Js.geb _ _); reflexivity.
Qed.

(** X7.  Every record the parser returns passes [isValidSalesData]: its id,
    customerId, productId, category and region are not empty, its date is
    valid and its revenue is at least 0. *)
Theorem parser_returns_valid_records momentParse clock csvText records :
  parseCsvToSalesData momentParse clock csvText = Js.Returned records ->
  Forall (fun r =>
            isValidSalesData r = true
            /\ id r <> EmptyString /\ customerId r <> EmptyString
            /\ productId r <> EmptyString /\ category r <> EmptyString
            /\ region r <> EmptyString /\ isValid (date r) = true)
         records.
Proof.
  apply parseCsvToSalesData_Forall. intros i row Hvalid.
  split; [exact Hvalid|].
  unfold isValidSalesData in Hvalid.
  repeat (apply andb_prop in Hvalid as [Hvalid ?]).
  repeat split; try assumption;
    match goal with
    | H : Js.nonempty ?s = true |- ?s <> EmptyString => intros Heq; rewrite Heq in H; discriminate H
    end.
Qed.

Lemma parser_returns_valid_records_witness :
  exists records,
    parseCsvToSalesData IsoDate.momentParse IsoDate.clock generateSampleCsvContent
    = Js.Returned records
    /\ Forall (fun r =>
                 isValidSalesData r = true
                 /\ id r <> EmptyString /\ customerId r <> EmptyString
                 /\ productId r <> EmptyString /\ category r <> EmptyString
                 /\ region r <> EmptyString /\ isValid (date r) = true)
              records.
Proof.
  eexists. split; [vm_compute; reflexivity|].
  apply (parser_returns_valid_records IsoDate.momentParse IsoDate.clock
           generateSampleCsvContent).
  vm_compute; reflexivity.
Defined.

(** ** The row object *)

Lemma assign_other (row : gmap string (option string)) header value key :
  header <> key -> assign row header value !! key = row !! key.
Proof.
  intros Hne. unfold assign. destruct (String.eqb header "__proto__"); [reflexivity|].
  by rewrite lookup_insert_ne.
Qed.

Lemma assign_same (row : gmap string (option string)) key value :
  key <> "__proto__" -> assign row key value !! key = Some value.
Proof.
  intros Hne. unfold assign. apply String.eqb_neq in Hne. rewrite Hne.
  by rewrite lookup_insert_eq.
Qed.

Lemma assign_proto (row : gmap string (option string)) header value :
  assign row header value !! "__proto__" = row !! "__proto__".
Proof.
  destruct (String.eqb_spec header "__proto__") as [-> | Hne].
  - reflexivity.
  - by apply assign_other.
Qed.

Lemma forEach_assign_other headers key : forall index values (row : gmap string (option string)),
  ~ In key headers ->
  forEach_assign headers index values row !! key = row !! key.
Proof.
  induction headers as [|header headers IH]; intros index values row Hnotin; simpl;
    [reflexivity|].
  rewrite IH by (intros H; apply Hnotin; by right).
  apply assign_other. intros ->. apply Hnotin. by left.
Qed.

Lemma forEach_assign_proto headers : forall index values (row : gmap string (option string)),
  forEach_assign headers index values row !! "__proto__" = row !! "__proto__".
Proof.
  induction headers as [|header headers IH]; intros index values row; simpl; [reflexivity|].
  by rewrite IH, assign_proto.
Qed.

Lemma forEach_assign_last before key after : forall index values (row : gmap string (option string)),
  key <> "__proto__" -> ~ In key after ->
  forEach_assign (before ++ key :: after) index values row !! key
  = Some (values !! (index + length before)%nat).
Proof.
  induction before as [|header before IH]; intros index values row Hproto Hafter; simpl.
  - rewrite forEach_assign_other by exact Hafter.
    rewrite assign_same by exact Hproto. by rewrite Nat.add_0_r.
  - rewrite IH by assumption. do 2 f_equal. lia.
Qed.

Lemma buildRow_own headers values :
  (forall before key after,
     headers = before ++ key :: after -> key <> "__proto__" -> ~ In key after ->
     buildRow headers values !! key = Some (values !! length before))
  /\ (forall key, ~ In key headers -> buildRow headers values !! key = None)
  /\ buildRow headers values !! "__proto__" = None.
Proof.
  unfold buildRow. repeat split.
  - intros before key after -> Hproto Hafter.
    by rewrite forEach_assign_last.
  - intros key Hkey. by rewrite forEach_assign_other.
  - by rewrite forEach_assign_proto.
Qed.

(** Reading a name that [Object.prototype] does not define gives the own
    string or [undefined]: this is [field]. *)
Lemma getProperty_field (row : gmap string (option string)) key :
  Js.set_has String.eqb objectPrototype key = false ->
  getProperty row key
  = match field row key with
    | Some value => StringValue value
    | None => UndefinedValue
    end.
Proof.
  intros Hkey. unfold getProperty, field. rewrite Hkey.
  by destruct (row !! key) as [[value|]|].
Qed.

(** X8.  Reading a property of the row object [{}].  Under a column name
    other than [__proto__] it gives the value of the last column that
    carries the name, or [undefined] when the line has no value at that
    position.  A name that no column carries reads as the member of
    [Object.prototype] of that name when there is one ([constructor],
    [toString], ...) and as [undefined] otherwise.  A column named
    [__proto__] is never stored: the name always reads as the prototype.
    Each of the eight names [salesItem] reads is outside
    [Object.prototype], so the parser sees the own string or [undefined]. *)
Theorem buildRow_lookup headers values :
  (forall before key after,
     headers = before ++ key :: after -> key <> "__proto__" -> ~ In key after ->
     getProperty (buildRow headers values) key
     = match values !! length before with
       | Some value => StringValue value
       | None => UndefinedValue
       end)
  /\ (forall key,
        ~ In key headers ->
        getProperty (buildRow headers values) key
        = if Js.set_has String.eqb objectPrototype key then PrototypeMember key
          else UndefinedValue)
  /\ getProperty (buildRow headers values) "__proto__" = PrototypeMember "__proto__"
  /\ (forall key,
        In key ["id"; "date"; "revenue"; "orders"; "customerId"; "productId";
                "category"; "region"] ->
        getProperty (buildRow headers values) key
        = match field (buildRow headers values) key with
          | Some value => StringValue value
          | None => UndefinedValue
          end).
Proof.
  destruct (buildRow_own headers values) as (Hlast & Hother & Hproto).
  repeat split.
  - intros before key after Hheaders Hkey Hafter. unfold getProperty.
    rewrite (Hlast before key after Hheaders Hkey Hafter).
    by destruct (values !! length before).
  - intros key Hkey. unfold getProperty. by rewrite Hother.
  - unfold getProperty. by rewrite Hproto.
  - intros key Hkey. apply getProperty_field.
    simpl in Hkey. by repeat destruct Hkey as [<- | Hkey].
Qed.

Lemma buildRow_lookup_witness :
  getProperty (buildRow ["id"; "date"; "id"; "__proto__"; "toString"]
                        ["a"; "2025-10-01"; "b"; "c"; "d"]) "id"
  = StringValue "b"
  /\ getProperty (buildRow ["id"; "date"; "id"; "__proto__"; "toString"]
                           ["a"; "2025-10-01"; "b"; "c"; "d"]) "constructor"
     = PrototypeMember "constructor"
  /\ getProperty (buildRow ["id"; "date"; "id"; "__proto__"; "toString"]
                           ["a"; "2025-10-01"; "b"; "c"; "d"]) "region"
     = UndefinedValue.
Proof.
  destruct (buildRow_lookup ["id"; "date"; "id"; "__proto__"; "toString"]
              ["a"; "2025-10-01"; "b"; "c"; "d"]) as (Hlast & Hother & _ & _).
  split; [|split].
  - apply (Hlast ["id"; "date"] "id" ["__proto__"; "toString"]).
    + reflexivity.
    + discriminate.
    + simpl. intros [H | [H | []]]; discriminate.
  - apply (Hother "constructor"). simpl. intros H.
    repeat destruct H as [H | H]; try discriminate H. exact H.
  - apply (Hother "region"). simpl. intros H.
    repeat destruct H as [H | H]; try discriminate H. exact H.
Defined.



(** X10.  Records come out in the order of their rows, and a row's record
    does not depend on the rows around it: the records of two runs of rows
    read one after the other are the records of the first run followed by
    those of the second, read from the index where the first run ends. *)
Theorem parseRows_in_row_order momentParse clock headers i rows rows' st :
  salesData (parseRows momentParse clock headers i (rows ++ rows') st)
  = salesData (parseRows momentParse clock headers i rows st)
    ++ salesData (parseRows momentParse clock headers (i + length rows) rows'
                    {| salesData := []; warnings := [] |}).
Proof.
  revert i st. induction rows as [|row rows IH]; intros i st; simpl.
  - rewrite Nat.add_0_r. apply parseRows_salesData.
  - rewrite IH. do 3 f_equal. lia.
Qed.

(** ** Maps in insertion order *)

Section MapFacts.
Context {V : Type}.
Implicit Types (m : list (string * V)) (v : V).

Lemma map_get_set_eq m key v : map_get (map_set m key v) key = Some v.
Proof.
  induction m as [|[k w] m IH]; simpl.
  - by rewrite String.eqb_refl.
  - destruct (String.eqb k key) eqn:Hk; simpl; rewrite Hk; [reflexivity|exact IH].
Qed.

Lemma map_get_set_ne m key key' v :
  key <> key' -> map_get (map_set m key v) key' = map_get m key'.
Proof.
  intros Hne. pose proof (proj2 (String.eqb_neq _ _) Hne) as Hfalse.
  induction m as [|[k w] m IH]; simpl.
  - by rewrite Hfalse.
  - destruct (String.eqb k key) eqn:Hk; simpl.
    + apply String.eqb_eq in Hk. subst k. by rewrite Hfalse.
    + by rewrite IH.
Qed.

Lemma map_has_get m key :
  map_has m key = match map_get m key with Some _ => true | None => false end.
Proof. reflexivity. Qed.

Lemma map_set_keys m key v :
  map fst (map_set m key v) = Js.set_add String.eqb (map fst m) key.
Proof.
  unfold Js.set_add, Js.set_has. induction m as [|[k w] m IH]; simpl; [reflexivity|].
  rewrite (String.eqb_sym key k).
  destruct (String.eqb k key); simpl; [reflexivity|].
  rewrite IH. by destruct (existsb _ _).
Qed.

Lemma map_get_In m key v : map_get m key = Some v -> In (key, v) m.
Proof.
  induction m as [|[k w] m IH]; simpl; [discriminate|].
  destruct (String.eqb k key) eqn:Hk.
  - apply String.eqb_eq in Hk. intros [= ->]. left. by subst.
  - intros H. right. by apply IH.
Qed.

Lemma In_map_get m key v :
  List.NoDup (map fst m) -> In (key, v) m -> map_get m key = Some v.
Proof.
  induction m as [|[k w] m IH]; simpl; [intros _ []|].
  intros Hnodup [[= -> ->] | Hin].
  - by rewrite String.eqb_refl.
  - apply List.NoDup_cons_iff in Hnodup as [Hk Hnodup].
    destruct (String.eqb_spec k key) as [-> | Hne]; [|by apply IH].
    exfalso. apply Hk. apply (in_map fst) in Hin. exact Hin.
Qed.

(** Where [map_set] writes: over the entry of the key, or at the end. *)
Lemma map_set_split m key v :
  (map_get m key = None /\ map_set m key v = m ++ [(key, v)])
  \/ (exists before old after,
        m = before ++ (key, old) :: after /\ map_get m key = Some old
        /\ map_set m key v = before ++ (key, v) :: after).
Proof.
  induction m as [|[k w] m IH]; simpl; [by left|].
  destruct (String.eqb_spec k key) as [-> | Hne].
  - right. by exists [], w, m.
  - destruct IH as [[Hget Hset] | (before & old & after & -> & Hget & Hset)].
    + left. by rewrite Hset.
    + right. exists ((k, w) :: before), old, after. by rewrite Hset.
Qed.
End MapFacts.

(** The loops that aggregate by key: [step] looks up the key of the item,
    creates the entry when it is missing, and updates the entry of that
    key only.  Seen through [proj], a new entry starts as [first x] and an
    item [x] turns an entry into [next x]. *)
Section KeyedFold.
Context {X S V W : Type}.
Variable key : X -> string.
Variable mapOf : S -> list (string * V).
Variable step : S -> X -> S.
Variable proj : V -> W.
Variable first : X -> W.
Variable next : X -> W -> W.
Hypothesis step_same : forall s x,
  proj <$> map_get (mapOf (step s x)) (key x)
  = Some (next x (default (first x) (proj <$> map_get (mapOf s) (key x)))).
Hypothesis step_other : forall s x k,
  key x <> k -> map_get (mapOf (step s x)) k = map_get (mapOf s) k.
Hypothesis step_keys : forall s x,
  map fst (mapOf (step s x)) = Js.set_add String.eqb (map fst (mapOf s)) (key x).

Lemma fold_entry xs : forall s k,
  proj <$> map_get (mapOf (fold_left step xs s)) k
  = match List.filter (fun x => String.eqb (key x) k) xs with
    | [] => proj <$> map_get (mapOf s) k
    | x1 :: items =>
        Some (fold_left (fun w x => next x w) (x1 :: items)
                (default (first x1) (proj <$> map_get (mapOf s) k)))
    end.
Proof using step_same step_other.
  induction xs as [|x xs IH]; intros s k; [reflexivity|].
  cbn [fold_left List.filter]. rewrite IH.
  destruct (String.eqb_spec (key x) k) as [<- | Hne].
  - rewrite step_same.
    by destruct (List.filter (fun x0 => String.eqb (key x0) (key x)) xs).
  - by rewrite step_other.
Qed.

Lemma fold_keys xs : forall s,
  map fst (mapOf (fold_left step xs s))
  = fold_left (Js.set_add String.eqb) (map key xs) (map fst (mapOf s)).
Proof using step_keys.
  induction xs as [|x xs IH]; intros s; simpl; [reflexivity|].
  by rewrite IH, step_keys.
Qed.
End KeyedFold.

(** ** Product aggregates *)

Section Products.
Variable random : nat -> Js.number.
Import Aggregation.

Lemma addToProduct_same st item :
  productView <$> map_get (fst (addToProduct random st item)) (productId item)
  = Some (productNext item
            (default (productFirst item)
               (productView <$> map_get (fst st) (productId item)))).
Proof.
  destruct st as [productMap calls]. unfold addToProduct. rewrite map_has_get.
  cbn [fst]. destruct (map_get productMap (productId item)) as [product|] eqn:Hget.
  - cbn [negb]. rewrite Hget. cbn [fst]. by rewrite map_get_set_eq.
  - cbn [negb]. rewrite map_get_set_eq. cbn [fst]. by rewrite map_get_set_eq.
Qed.

Lemma addToProduct_other st item key :
  productId item <> key ->
  map_get (fst (addToProduct random st item)) key = map_get (fst st) key.
Proof.
  intros Hne. destruct st as [productMap calls]. unfold addToProduct.
  rewrite map_has_get. cbn [fst].
  destruct (map_get productMap (productId item)) as [product|] eqn:Hget.
  - cbn [negb]. rewrite Hget. cbn [fst]. by rewrite map_get_set_ne.
  - cbn [negb]. rewrite map_get_set_eq. cbn [fst]. by rewrite !map_get_set_ne.
Qed.

Lemma set_add_twice (s : list string) x :
  Js.set_add String.eqb (Js.set_add String.eqb s x) x = Js.set_add String.eqb s x.
Proof.
  unfold Js.set_add at 2. destruct (Js.set_has String.eqb s x) eqn:Hhas.
  - unfold Js.set_add. by rewrite Hhas.
  - unfold Js.set_add at 1. unfold Js.set_add, Js.set_has in *. rewrite Hhas.
    rewrite existsb_app. simpl.
    by rewrite String.eqb_refl, orb_true_r.
Qed.

Lemma set_add_present (s : list string) x :
  Js.set_has String.eqb s x = true -> Js.set_add String.eqb s x = s.
Proof. intros H. unfold Js.set_add. by rewrite H. Qed.

Lemma map_get_has_key {V} (m : list (string * V)) key v :
  map_get m key = Some v -> Js.set_has String.eqb (map fst m) key = true.
Proof.
  intros Hget. apply map_get_In in Hget. apply (in_map fst) in Hget.
  apply (set_has_In String.eqb String.eqb_eq). exact Hget.
Qed.

Lemma addToProduct_keys st item :
  map fst (fst (addToProduct random st item))
  = Js.set_add String.eqb (map fst (fst st)) (productId item).
Proof.
  destruct st as [productMap calls]. unfold addToProduct. rewrite map_has_get.
  cbn [fst]. destruct (map_get productMap (productId item)) as [product|] eqn:Hget.
  - cbn [negb]. rewrite Hget. cbn [fst]. rewrite map_set_keys.
    reflexivity.
  - cbn [negb]. rewrite map_get_set_eq. cbn [fst].
    by rewrite !map_set_keys, set_add_twice.
Qed.

Lemma productNext_fold items : forall product,
  let final := fold_left (fun p item => productNext item p) items product in
  pm_productId final = pm_productId product
  /\ pm_category final = pm_category product
  /\ pm_totalOrders final = (pm_totalOrders product + length items)%nat
  /\ pm_totalRevenue final
     = fold_left (fun sum item => Js.add sum (revenue item)) items (pm_totalRevenue product)
  /\ (items <> [] ->
      pm_averageOrderValue final
      = Js.div (pm_totalRevenue final) (Js.of_nat (pm_totalOrders final))).
Proof.
  induction items as [|item items IH]; intros product; simpl.
  - repeat split; [lia|congruence].
  - destruct (IH (productNext item product)) as (Hid & Hcat & Horders & Hrevenue & Havg).
    repeat split; [exact Hid|exact Hcat|rewrite Horders; simpl; lia|exact Hrevenue|].
    intros _. destruct items as [|item' items]; [reflexivity|].
    apply Havg. discriminate.
Qed.

(** The entry a product id has in the map after the loop. *)
Lemma product_entry data key product :
  In (key, product) (fst (fold_left (addToProduct random) data ([], 0%nat))) ->
  exists item items,
    ofProduct key data = item :: items
    /\ productView product
       = fold_left (fun p item => productNext item p) (item :: items) (productFirst item).
Proof.
  intros Hin.
  pose proof (fold_keys productId fst (addToProduct random) addToProduct_keys
                data ([], 0%nat)) as Hkeys.
  pose proof (fold_entry productId fst (addToProduct random) productView productFirst
                productNext addToProduct_same addToProduct_other data ([], 0%nat) key)
    as Hentry.
  rewrite (In_map_get _ key product) in Hentry; [|rewrite Hkeys|exact Hin].
  - unfold ofProduct.
    destruct (List.filter _ data) as [|item items]; [discriminate|].
    injection Hentry as Hentry. by exists item, items.
  - apply (fold_set_add_NoDup String.eqb String.eqb_eq). constructor.
Qed.

Lemma ofProduct_head key data item items :
  ofProduct key data = item :: items -> productId item = key.
Proof.
  intros Heq. assert (Hin : In item (ofProduct key data)) by (rewrite Heq; by left).
  apply filter_In in Hin as [_ Hkey]. by apply String.eqb_eq.
Qed.

Lemma product_entry_id data key product :
  In (key, product) (fst (fold_left (addToProduct random) data ([], 0%nat))) ->
  pm_productId product = key.
Proof.
  intros Hin. destruct (product_entry _ _ _ Hin) as (item & items & Hfilter & Hview).
  destruct (productNext_fold (item :: items) (productFirst item)) as (Hid & _).
  rewrite <- Hview in Hid. simpl in Hid. rewrite Hid.
  by eapply ofProduct_head.
Qed.

Lemma startsWith_initial productId :
  startsWith ("Product " ++ productId) "Product " = true.
Proof. unfold startsWith. rewrite !append_cons, append_empty_l. simpl. by destruct productId. Qed.

Lemma last_cons_default {A} (x : A) xs d : List.last (x :: xs) d = List.last xs x.
Proof.
  revert x d. induction xs as [|y ys IH]; intros x d; [reflexivity|].
  change (List.last (x :: y :: ys) d) with (List.last (y :: ys) d). by rewrite !IH.
Qed.

Lemma nextName_fold items : forall current,
  fold_left (fun n item => nextName item n) items current
  = if startsWith current "Product " then displayName current (productNames items)
    else current.
Proof.
  induction items as [|item items IH]; intros current; simpl.
  - unfold displayName. simpl. by destruct (startsWith current _).
  - rewrite IH. unfold nextName.
    destruct (productName item) as [actual|]; [|reflexivity].
    destruct (Js.nonempty actual) eqn:Hactual; cbn [andb]; [|reflexivity].
    destruct (startsWith current "Product ") eqn:Hcurrent; [|by rewrite Hcurrent].
    unfold displayName. cbn [app find].
    destruct (startsWith actual "Product ") eqn:Hstarts; cbn [negb]; [|reflexivity].
    by rewrite last_cons_default.
Qed.

Lemma productNext_name items : forall product,
  name (fold_left (fun p item => productNext item p) items product)
  = fold_left (fun n item => nextName item n) items (name product).
Proof. induction items as [|item items IH]; intros product; simpl; [|rewrite IH]; done. Qed.

Lemma In_product_entry data product :
  In product (calculateProductMetrics random data) ->
  In (pm_productId product, product)
     (fst (fold_left (addToProduct random) data ([], 0%nat))).
Proof.
  unfold calculateProductMetrics, map_values. rewrite in_map_iff.
  intros ([key product'] & Heq & Hin). simpl in Heq. subst product'.
  by rewrite (product_entry_id _ _ _ Hin).
Qed.
End Products.

Lemma calculateProductMetrics_ids random data :
  map pm_productId (calculateProductMetrics random data)
  = Js.set_of String.eqb (map productId data).
Proof.
  unfold calculateProductMetrics, map_values, Js.set_of.
  pose proof (fold_keys productId fst (addToProduct random) (addToProduct_keys random)
                data ([], 0%nat)) as Hkeys.
  cbn [fst map] in Hkeys. rewrite <- Hkeys.
  rewrite map_map.
  apply map_ext_in. intros [key product] Hin. simpl.
  by apply product_entry_id with (random := random) (data := data).
Qed.

(** X11.  calculateProductMetrics returns one aggregate per distinct product
    id of the records, in the order in which the ids first appear. *)
Theorem product_metrics_one_per_product random data :
  map pm_productId (calculateProductMetrics random data)
  = Js.set_of String.eqb (map productId data).
Proof. exact (calculateProductMetrics_ids random data). Qed.

(** X12.  The totals of a product aggregate are the dashboard metrics of the
    records of that product: the number of records, their revenue summed in
    the order of the records, and the quotient of the two; the category is
    that of the first record of the product. *)
Theorem product_metrics_totals random data product :
  In product (calculateProductMetrics random data) ->
  let records := Aggregation.ofProduct (pm_productId product) data in
  let metrics := calculateDashboardMetrics records in
  pm_totalOrders product = totalOrders metrics
  /\ pm_totalRevenue product = totalRevenue metrics
  /\ pm_averageOrderValue product = averageOrderValue metrics
  /\ exists first rest, records = first :: rest /\ pm_category product = category first.
Proof.
  intros Hin records metrics. subst metrics records.
  apply In_product_entry in Hin.
  destruct (product_entry _ _ _ _ Hin) as (item & items & Hfilter & Hview).
  rewrite Hfilter.
  destruct (productNext_fold (item :: items) (Aggregation.productFirst item))
    as (_ & Hcat & Horders & Hrevenue & Havg).
  rewrite <- Hview in Hcat, Horders, Hrevenue, Havg.
  cbn [Aggregation.productView pm_category pm_totalOrders pm_totalRevenue
       pm_averageOrderValue Aggregation.productFirst] in Hcat, Horders, Hrevenue, Havg.
  unfold calculateDashboardMetrics.
  cbn [totalOrders totalRevenue averageOrderValue].
  repeat split.
  - exact Horders.
  - exact Hrevenue.
  - rewrite Havg by discriminate. rewrite Horders, Hrevenue. reflexivity.
  - by exists item, items.
Qed.

Lemma product_metrics_totals_witness :
  let product :=
    {| pm_productId := "product1"; name := "Widget A"; pm_category := "Electronics";
       pm_totalRevenue := Js.Fin 550; pm_totalOrders := 2;
       pm_averageOrderValue := Js.Fin 275;
       pm_conversionRate :=
         Js.add (Js.mul (Js.literal 0.5) (Js.literal 0.1)) (Js.literal 0.02) |} in
  In product (calculateProductMetrics (fun _ => Js.literal 0.5) Fixtures.mockSalesData)
  /\ pm_totalOrders product = 2%nat
  /\ pm_totalRevenue product = Js.Fin 550.
Proof.
  intros product.
  assert (Hin : In product
                  (calculateProductMetrics (fun _ => Js.literal 0.5) Fixtures.mockSalesData))
    by (left; vm_compute; reflexivity).
  split; [exact Hin|].
  destruct (product_metrics_totals _ _ _ Hin) as (Horders & Hrevenue & _).
  split; [exact Horders | exact Hrevenue].
Defined.

(** X13.  The name of a product aggregate is the first non-empty productName
    among the records of the product that does not start with "Product ";
    when there is none it is the last non-empty productName among them, and
    "Product <id>" when the records carry no name. *)
Theorem product_metrics_name random data product :
  In product (calculateProductMetrics random data) ->
  name product
  = Aggregation.displayName ("Product " ++ pm_productId product)
      (Aggregation.productNames (Aggregation.ofProduct (pm_productId product) data)).
Proof.
  intros Hin. apply In_product_entry in Hin.
  destruct (product_entry _ _ _ _ Hin) as (item & items & Hfilter & Hview).
  rewrite Hfilter.
  assert (Hname : name product = name (Aggregation.productView product)) by reflexivity.
  rewrite Hname, Hview, productNext_name, nextName_fold.
  rewrite <- (ofProduct_head _ _ _ _ Hfilter).
  cbn [name Aggregation.productFirst]. by rewrite startsWith_initial.
Qed.

Lemma product_metrics_name_witness :
  let product :=
    {| pm_productId := "product1"; name := "Widget A"; pm_category := "Electronics";
       pm_totalRevenue := Js.Fin 550; pm_totalOrders := 2;
       pm_averageOrderValue := Js.Fin 275;
       pm_conversionRate :=
         Js.add (Js.mul (Js.literal 0.5) (Js.literal 0.1)) (Js.literal 0.02) |} in
  In product (calculateProductMetrics (fun _ => Js.literal 0.5) Fixtures.mockSalesData)
  /\ name product = "Widget A".
Proof.
  intros product.
  assert (Hin : In product
                  (calculateProductMetrics (fun _ => Js.literal 0.5) Fixtures.mockSalesData))
    by (left; vm_compute; reflexivity).
  split; [exact Hin|].
  exact (product_metrics_name _ _ _ Hin).
Defined.

(** ** Regional performance *)

Section Regions.
Variable random : nat -> Js.number.
Import Aggregation.

Lemma addToRegion_same st item :
  regionView <$> map_get (fst (addToRegion random st item)) (region item)
  = Some (regionNext item
            (default (regionFirst item)
               (regionView <$> map_get (fst st) (region item)))).
Proof.
  destruct st as [regionMap calls]. unfold addToRegion. rewrite map_has_get.
  cbn [fst]. destruct (map_get regionMap (region item)) as [entry|] eqn:Hget.
  - cbn [negb]. rewrite Hget. cbn [fst]. by rewrite map_get_set_eq.
  - cbn [negb]. rewrite map_get_set_eq. cbn [fst]. by rewrite map_get_set_eq.
Qed.

Lemma addToRegion_other st item key :
  region item <> key ->
  map_get (fst (addToRegion random st item)) key = map_get (fst st) key.
Proof.
  intros Hne. destruct st as [regionMap calls]. unfold addToRegion.
  rewrite map_has_get. cbn [fst].
  destruct (map_get regionMap (region item)) as [entry|] eqn:Hget.
  - cbn [negb]. rewrite Hget. cbn [fst]. by rewrite map_get_set_ne.
  - cbn [negb]. rewrite map_get_set_eq. cbn [fst]. by rewrite !map_get_set_ne.
Qed.

Lemma addToRegion_keys st item :
  map fst (fst (addToRegion random st item))
  = Js.set_add String.eqb (map fst (fst st)) (region item).
Proof.
  destruct st as [regionMap calls]. unfold addToRegion. rewrite map_has_get.
  cbn [fst]. destruct (map_get regionMap (region item)) as [entry|] eqn:Hget.
  - cbn [negb]. rewrite Hget. cbn [fst]. by rewrite map_set_keys.
  - cbn [negb]. rewrite map_get_set_eq. cbn [fst].
    by rewrite !map_set_keys, set_add_twice.
Qed.

Lemma regionNext_fold items : forall entry,
  let final := fold_left (fun e item => regionNext item e) items entry in
  re_region final = re_region entry
  /\ re_orders final = (re_orders entry + length items)%nat
  /\ re_revenue final
     = fold_left (fun sum item => Js.add sum (revenue item)) items (re_revenue entry)
  /\ re_customers final
     = fold_left (Js.set_add String.eqb) (map customerId items) (re_customers entry).
Proof.
  induction items as [|item items IH]; intros entry; simpl.
  - repeat split. lia.
  - destruct (IH (regionNext item entry)) as (Hregion & Horders & Hrevenue & Hcustomers).
    repeat split; [exact Hregion|rewrite Horders; simpl; lia|exact Hrevenue|exact Hcustomers].
Qed.

Lemma region_entry data key entry :
  In (key, entry) (fst (fold_left (addToRegion random) data ([], 0%nat))) ->
  exists item items,
    ofRegion key data = item :: items
    /\ regionView entry
       = fold_left (fun e item => regionNext item e) (item :: items) (regionFirst item).
Proof.
  intros Hin.
  pose proof (fold_keys region fst (addToRegion random) addToRegion_keys
                data ([], 0%nat)) as Hkeys.
  pose proof (fold_entry region fst (addToRegion random) regionView regionFirst
                regionNext addToRegion_same addToRegion_other data ([], 0%nat) key)
    as Hentry.
  rewrite (In_map_get _ key entry) in Hentry; [|rewrite Hkeys|exact Hin].
  - unfold ofRegion.
    destruct (List.filter _ data) as [|item items]; [discriminate|].
    injection Hentry as Hentry. by exists item, items.
  - apply (fold_set_add_NoDup String.eqb String.eqb_eq). constructor.
Qed.

Lemma ofRegion_head key data item items :
  ofRegion key data = item :: items -> region item = key.
Proof.
  intros Heq. assert (Hin : In item (ofRegion key data)) by (rewrite Heq; by left).
  apply filter_In in Hin as [_ Hkey]. by apply String.eqb_eq.
Qed.

Lemma region_entry_region data key entry :
  In (key, entry) (fst (fold_left (addToRegion random) data ([], 0%nat))) ->
  re_region entry = key.
Proof.
  intros Hin. destruct (region_entry _ _ _ Hin) as (item & items & Hfilter & Hview).
  destruct (regionNext_fold (item :: items) (regionFirst item)) as (Hregion & _).
  rewrite <- Hview in Hregion. simpl in Hregion. rewrite Hregion.
  by eapply ofRegion_head.
Qed.
End Regions.

(** X14.  calculateRegionalPerformance returns one entry per distinct region
    of the records, in the order in which the regions first appear. *)
Theorem regional_performance_one_per_region random data :
  map rp_region (calculateRegionalPerformance random data)
  = Js.set_of String.eqb (map region data).
Proof.
  unfold calculateRegionalPerformance, map_values, Js.set_of.
  pose proof (fold_keys region fst (addToRegion random) (addToRegion_keys random)
                data ([], 0%nat)) as Hkeys.
  cbn [fst map] in Hkeys. rewrite <- Hkeys.
  rewrite !map_map.
  apply map_ext_in. intros [key entry] Hin. simpl.
  by apply region_entry_region with (random := random) (data := data).
Qed.

(** X15.  The revenue, the orders and the customers of a regional entry are
    the total revenue, the number of records and the number of distinct
    customer ids that calculateDashboardMetrics gives on the records of
    that region. *)
Theorem regional_performance_totals random data entry :
  In entry (calculateRegionalPerformance random data) ->
  let metrics := calculateDashboardMetrics (Aggregation.ofRegion (rp_region entry) data) in
  rp_revenue entry = totalRevenue metrics
  /\ rp_orders entry = totalOrders metrics
  /\ customers entry = customerCount metrics.
Proof.
  intros Hin metrics. subst metrics.
  unfold calculateRegionalPerformance, map_values in Hin.
  rewrite map_map, in_map_iff in Hin.
  destruct Hin as ([key raw] & <- & Hin). cbn [snd] in *.
  pose proof (region_entry_region _ _ _ _ Hin) as Hkey.
  destruct (region_entry _ _ _ _ Hin) as (item & items & Hfilter & Hview).
  cbn [toRegionalPerformance rp_region rp_revenue rp_orders customers].
  rewrite Hkey, Hfilter.
  destruct (regionNext_fold (item :: items) (Aggregation.regionFirst item))
    as (_ & Horders & Hrevenue & Hcustomers).
  rewrite <- Hview in Horders, Hrevenue, Hcustomers.
  cbn [Aggregation.regionView re_orders re_revenue re_customers Aggregation.regionFirst]
    in Horders, Hrevenue, Hcustomers.
  unfold calculateDashboardMetrics.
  cbn [totalOrders totalRevenue customerCount].
  rewrite Horders, Hrevenue, Hcustomers. by repeat split.
Qed.

Lemma regional_performance_totals_witness :
  let entry :=
    {| rp_region := "North"; rp_revenue := Js.Fin 550; rp_orders := 2; customers := 1;
       growthRate := Js.sub (Js.mul (Js.literal 0.5) (Js.literal 0.4)) (Js.literal 0.1) |} in
  In entry (calculateRegionalPerformance (fun _ => Js.literal 0.5) Fixtures.mockSalesData)
  /\ rp_revenue entry = Js.Fin 550 /\ rp_orders entry = 2%nat /\ customers entry = 1%nat.
Proof.
  intros entry.
  assert (Hin : In entry (calculateRegionalPerformance (fun _ => Js.literal 0.5)
                            Fixtures.mockSalesData))
    by (left; vm_compute; reflexivity).
  split; [exact Hin|].
  exact (regional_performance_totals _ _ _ Hin).
Defined.

(** ** Time series *)

Lemma insert_Permutation {A} (compare : A -> A -> Js.number) x sorted :
  Permutation (Fixtures.insert compare x sorted) (x :: sorted).
Proof.
  induction sorted as [|y ys IH]; simpl; [reflexivity|].
  destruct (Js.ltb (compare y x) Js.zero); [|reflexivity].
  rewrite IH. apply perm_swap.
Qed.

Lemma sort_Permutation {A} (compare : A -> A -> Js.number) xs :
  Permutation (Fixtures.sort compare xs) xs.
Proof.
  induction xs as [|x xs IH]; simpl; [reflexivity|].
  rewrite insert_Permutation. by constructor.
Qed.

(** The comparison by timestamp is negative exactly when the first instant
    is the earlier one: the difference may round, its sign does not. *)
Lemma byTimestamp_negative a b ta tb :
  timestampOf a = Instant ta -> timestampOf b = Instant tb ->
  Js.ltb (byTimestamp a b) Js.zero = (ta <? tb)%Z.
Proof.
  intros Ha Hb. unfold byTimestamp. rewrite Ha, Hb.
  cbn [valueOf Js.sub Js.opp Js.add].
  rewrite (round_comp _ (inject_Z (ta - tb)))
    by (unfold Z.sub; rewrite inject_Z_plus, inject_Z_opp; reflexivity).
  pose proof (round_of_integer (ta - tb)) as Hround.
  destruct (Js.round (inject_Z (ta - tb))) as [|q| |]; [contradiction| | |].
  - destruct Hround as (z & -> & Hsign & _).
    destruct (Z.ltb_spec ta tb); destruct z; try reflexivity; lia.
  - cbn [Js.ltb Js.zero]. destruct (Z.ltb_spec ta tb); [lia|reflexivity].
  - cbn [Js.ltb Js.zero]. destruct (Z.ltb_spec ta tb); [reflexivity|lia].
Qed.

Lemma timestamps_ascend a b ta tb :
  timestampOf a = Instant ta -> timestampOf b = Instant tb ->
  Js.leb (valueOf (timestampOf a)) (valueOf (timestampOf b)) = true <-> (ta <= tb)%Z.
Proof.
  intros -> ->. cbn [valueOf Js.leb]. by rewrite Qle_bool_iff, <- Zle_Qle.
Qed.

Lemma valid_timestamp point :
  isValid (timestampOf point) = true -> exists t, timestampOf point = Instant t.
Proof. destruct (timestampOf point) as [|t]; [discriminate|eauto]. Qed.

Lemma insert_chronological x sorted :
  isValid (timestampOf x) = true ->
  Forall (fun point => isValid (timestampOf point) = true) sorted ->
  Spec.chronological sorted ->
  Spec.chronological (Fixtures.insert byTimestamp x sorted).
Proof.
  intros Hx. apply valid_timestamp in Hx as [tx Hx].
  induction sorted as [|y ys IH]; intros Hvalid Hsorted.
  - repeat constructor.
  - apply Forall_cons_iff in Hvalid as [Hy Hvalid].
    apply valid_timestamp in Hy as [ty Hy].
    apply StronglySorted_inv in Hsorted as [Hsorted Hhead].
    cbn [Fixtures.insert]. rewrite (byTimestamp_negative y x ty tx Hy Hx).
    destruct (Z.ltb_spec ty tx) as [Hlt | Hge].
    + constructor; [by apply IH|].
      apply List.Forall_forall. intros z Hz.
      apply (Permutation_in _ (insert_Permutation byTimestamp x ys)) in Hz.
      destruct Hz as [<- | Hz].
      * apply (timestamps_ascend y x ty tx Hy Hx). lia.
      * rewrite List.Forall_forall in Hhead. by apply Hhead.
    + constructor; [by constructor|].
      constructor; [apply (timestamps_ascend x y tx ty Hx Hy); lia|].
      apply List.Forall_forall. intros z Hz.
      rewrite List.Forall_forall in Hhead, Hvalid.
      destruct (valid_timestamp z (Hvalid z Hz)) as [tz Htz].
      apply (timestamps_ascend x z tx tz Hx Htz).
      pose proof (proj1 (timestamps_ascend y z ty tz Hy Htz) (Hhead z Hz)). lia.
Qed.

(** The insertion sort of the fixtures keeps what the array sort
    guarantees. *)
Lemma sort_sortsByTimestamp : Spec.sortsByTimestamp (@Fixtures.sort ChartDatum).
Proof.
  intros points Hvalid. split; [symmetry; apply sort_Permutation|].
  induction Hvalid as [|point points Hpoint Hvalid IH]; cbn [Fixtures.sort fold_right].
  - constructor.
  - apply insert_chronological; [exact Hpoint| |exact IH].
    apply List.Forall_forall. intros z Hz.
    apply (Permutation_in _ (sort_Permutation byTimestamp points)) in Hz.
    rewrite List.Forall_forall in Hvalid. by apply Hvalid.
Qed.

(** Counting by adding 1 is exact up to [2^53]. *)
Lemma count_of_nat (items : list SalesData) : forall n,
  (Z.of_nat (n + length items) <= 2 ^ 53)%Z ->
  fold_left (fun sum (_ : SalesData) => Js.add sum Js.one) items (Js.of_nat n)
  = Js.of_nat (n + length items).
Proof.
  induction items as [|item items IH]; intros n Hn; cbn [fold_left length] in *.
  - by rewrite Nat.add_0_r.
  - assert (Hone : Js.add (Js.of_nat n) Js.one = Js.of_nat (S n)).
    { rewrite of_nat_small by lia. unfold Js.add, Js.one, Js.of_nat.
      apply round_comp. rewrite Nat2Z.inj_succ, <- Z.add_1_r, inject_Z_plus.
      reflexivity. }
    rewrite Hone, IH by lia. f_equal. lia.
Qed.

Section Buckets.
Variable format : Moment -> string -> string.
Variable startOfWeek : Moment -> Moment.
Variables metric granularity : string.
Import Aggregation.

Lemma addToBucket_same timeMap item :
  (fun e : TimeEntry => e)
    <$> map_get (addToBucket format startOfWeek metric granularity timeMap item)
          (timeKeyOf format startOfWeek granularity item)
  = Some (bucketNext metric item
            (default {| te_value := Js.zero; te_count := 0 |}
               ((fun e : TimeEntry => e)
                  <$> map_get timeMap (timeKeyOf format startOfWeek granularity item)))).
Proof.
  unfold addToBucket, timeKeyOf. rewrite map_has_get.
  destruct (map_get timeMap _) as [entry|] eqn:Hget.
  - cbn [negb]. rewrite Hget. by rewrite map_get_set_eq.
  - cbn [negb]. rewrite map_get_set_eq. by rewrite map_get_set_eq.
Qed.

Lemma addToBucket_other timeMap item key :
  timeKeyOf format startOfWeek granularity item <> key ->
  map_get (addToBucket format startOfWeek metric granularity timeMap item) key
  = map_get timeMap key.
Proof.
  intros Hne. unfold addToBucket, timeKeyOf in *. rewrite map_has_get.
  destruct (map_get timeMap _) as [entry|] eqn:Hget.
  - cbn [negb]. rewrite Hget. by rewrite map_get_set_ne.
  - cbn [negb]. rewrite map_get_set_eq. by rewrite !map_get_set_ne.
Qed.

Lemma addToBucket_keys timeMap item :
  map fst (addToBucket format startOfWeek metric granularity timeMap item)
  = Js.set_add String.eqb (map fst timeMap) (timeKeyOf format startOfWeek granularity item).
Proof.
  unfold addToBucket, timeKeyOf. rewrite map_has_get.
  destruct (map_get timeMap _) as [entry|] eqn:Hget.
  - cbn [negb]. rewrite Hget. by rewrite map_set_keys.
  - cbn [negb]. rewrite map_get_set_eq.
    by rewrite !map_set_keys, set_add_twice.
Qed.

Lemma bucketNext_fold items : forall entry,
  te_value (fold_left (fun e item => bucketNext metric item e) items entry)
  = fold_left (fun sum item => Js.add sum (contribution metric item)) items (te_value entry).
Proof. induction items as [|item items IH]; intros entry; simpl; [|rewrite IH]; done. Qed.

Lemma contribution_fold items :
  (Z.of_nat (length items) <= 2 ^ 53)%Z ->
  fold_left (fun sum item => Js.add sum (contribution metric item)) items Js.zero
  = bucketValue metric items.
Proof.
  intros Hlength. unfold bucketValue, contribution.
  destruct (String.eqb metric "revenue").
  - reflexivity.
  - exact (count_of_nat items 0 Hlength).
Qed.

Lemma bucket_entry data key entry :
  (Z.of_nat (length data) <= 2 ^ 53)%Z ->
  In (key, entry) (fold_left (addToBucket format startOfWeek metric granularity) data []) ->
  te_value entry = bucketValue metric (ofBucket format startOfWeek granularity key data).
Proof.
  intros Hlength Hin.
  pose proof (fold_keys (timeKeyOf format startOfWeek granularity) (fun m => m)
                (addToBucket format startOfWeek metric granularity) addToBucket_keys
                data []) as Hkeys.
  pose proof (fold_entry (timeKeyOf format startOfWeek granularity) (fun m => m)
                (addToBucket format startOfWeek metric granularity) (fun e => e)
                (fun _ => {| te_value := Js.zero; te_count := 0 |})
                (bucketNext metric) addToBucket_same addToBucket_other data [] key)
    as Hentry.
  rewrite (In_map_get _ key entry) in Hentry; [|rewrite Hkeys|exact Hin].
  - unfold ofBucket.
    pose proof (List.filter_length_le
                  (fun r => String.eqb (timeKeyOf format startOfWeek granularity r) key)
                  data) as Hfilter.
    destruct (List.filter _ data) as [|item items]; [discriminate|].
    injection Hentry as ->. cbn [map_get default fmap option_fmap option_map].
    rewrite <- contribution_fold by lia.
    exact (bucketNext_fold (item :: items) {| te_value := Js.zero; te_count := 0 |}).
  - apply (fold_set_add_NoDup String.eqb String.eqb_eq). constructor.
Qed.
End Buckets.

(** X16.  For data of at most [2^53] records, the time series is what the
    array sort makes, with the comparison of the timestamps, of one point
    per distinct time key of the records, taken in the order in which the
    keys first appear: the timestamp of a point is moment(key), and its
    value is the revenue of the records of that key, added in their order,
    for the metric "revenue", and the number of those records for every
    other metric.  When every key is read back as a valid date and the
    array sort does what it guarantees for a consistent comparison, the
    series holds these points in ascending order of their timestamps. *)
Theorem time_series_points format startOfWeek momentParse arraySort
    data metric granularity :
  (Z.of_nat (length data) <= 2 ^ 53)%Z ->
  let points :=
    map (fun timeKey =>
           TimeSeriesData (momentOfKey momentParse timeKey)
             (Aggregation.bucketValue metric
                (Aggregation.ofBucket format startOfWeek granularity timeKey data)))
        (Js.set_of String.eqb
           (map (Aggregation.timeKeyOf format startOfWeek granularity) data)) in
  let series :=
    aggregateTimeSeriesData format startOfWeek momentParse arraySort
      data metric granularity in
  series = arraySort byTimestamp points
  /\ (Spec.sortsByTimestamp arraySort ->
      Forall (fun r =>
                isValid (momentOfKey momentParse
                           (Aggregation.timeKeyOf format startOfWeek granularity r))
                = true) data ->
      Permutation points series /\ Spec.chronological series).
Proof.
  intros Hlength points series.
  assert (Hseries : series = arraySort byTimestamp points).
  { unfold series, points, aggregateTimeSeriesData. f_equal.
    pose proof (fold_keys (Aggregation.timeKeyOf format startOfWeek granularity)
                  (fun m => m) (addToBucket format startOfWeek metric granularity)
                  (addToBucket_keys format startOfWeek metric granularity) data [])
      as Hkeys.
    cbn [map] in Hkeys. unfold Js.set_of. rewrite <- Hkeys.
    unfold timeSeriesOf. rewrite map_map.
    apply map_ext_in. intros [key entry] Hin. cbn [fst].
    by rewrite (bucket_entry format startOfWeek metric granularity data key entry
                  Hlength Hin). }
  split; [exact Hseries|].
  intros Hsort Hvalid. rewrite Hseries. apply Hsort.
  unfold points. apply List.Forall_forall. intros point Hpoint.
  apply in_map_iff in Hpoint as (key & <- & Hkey). cbn [timestampOf].
  apply (proj1 (proj2 (set_of_distinct String.eqb String.eqb_eq _) key)) in Hkey.
  apply in_map_iff in Hkey as (r & <- & Hr).
  rewrite List.Forall_forall in Hvalid. by apply Hvalid.
Qed.

(** The mock data in reverse order: the keys first appear from the 18th
    down to the 15th, and the sort puts the points in the order of time. *)
Lemma time_series_points_witness :
  let series :=
    aggregateTimeSeriesData IsoDate.format IsoDate.startOfWeek IsoDate.momentParse
      (@Fixtures.sort ChartDatum) (rev Fixtures.mockSalesData) "revenue" "day" in
  (Z.of_nat (length (rev Fixtures.mockSalesData)) <= 2 ^ 53)%Z
  /\ series
     = [TimeSeriesData (Fixtures.jan2024 15) (Js.Fin 250);
        TimeSeriesData (Fixtures.jan2024 16) (Js.Fin 150);
        TimeSeriesData (Fixtures.jan2024 17) (Js.Fin 300);
        TimeSeriesData (Fixtures.jan2024 18) (Js.Fin 50)]
  /\ Spec.chronological series.
Proof.
  intros series.
  assert (Hlength : (Z.of_nat (length (rev Fixtures.mockSalesData)) <= 2 ^ 53)%Z)
    by (vm_compute; discriminate).
  destruct (time_series_points IsoDate.format IsoDate.startOfWeek IsoDate.momentParse
              (@Fixtures.sort ChartDatum) (rev Fixtures.mockSalesData) "revenue" "day"
              Hlength) as [Hseries Hsorted].
  split; [exact Hlength|]. split.
  - unfold series. rewrite Hseries. vm_compute. reflexivity.
  - apply Hsorted; [exact sort_sortsByTimestamp|].
    unfold Fixtures.mockSalesData. cbn [rev app].
    repeat (constructor; [vm_compute; reflexivity|]). constructor.
Defined.

(** ** What downsampling keeps *)

Lemma chunk_in_data step data chunk item :
  1 <= step -> In chunk (Spec.chunks step data) -> In item chunk -> In item data.
Proof.
  intros Hstep Hchunk Hitem. rewrite <- (chunks_partition step data Hstep).
  apply in_concat. by exists chunk.
Qed.

Lemma chunks_numeric step data :
  1 <= step -> Forall Spec.numeric data ->
  Forall (fun chunk => chunk <> [] /\ Forall Spec.numeric chunk) (Spec.chunks step data).
Proof.
  intros Hstep Hnumeric. pose proof (chunks_nonempty step data Hstep) as Hne.
  rewrite List.Forall_forall in Hne. apply List.Forall_forall. intros chunk Hchunk.
  split; [by apply Hne|].
  apply List.Forall_forall. intros item Hitem.
  rewrite List.Forall_forall in Hnumeric. apply Hnumeric.
  by apply (chunk_in_data step data chunk).
Qed.

(** What a chunk of numeric points contributes: entries of the chunk, among
    them one with the least and one with the greatest ordinate. *)
Lemma chunk_keeps chunk :
  chunk <> [] -> Forall Spec.numeric chunk ->
  Forall (fun entry => exists item, entry = Some item /\ In item chunk)
         (pushChunk [] chunk)
  /\ exists lowest highest,
       In lowest chunk /\ In highest chunk
       /\ In (Some lowest) (pushChunk [] chunk)
       /\ In (Some highest) (pushChunk [] chunk)
       /\ Forall (fun item => Js.leb (valueOfDatum lowest) (valueOfDatum item) = true) chunk
       /\ Forall (fun item => Js.leb (valueOfDatum item) (valueOfDatum highest) = true) chunk.
Proof.
  intros Hne Hnumeric.
  destruct (pushChunk_numeric chunk Hne Hnumeric)
    as (minIndex & maxIndex & lowest & highest & Hlowest & Hhighest & Hmin & Hmax
        & Hrange & ->).
  pose proof (set_of_distinct Nat.eqb Nat.eqb_eq [0; minIndex; maxIndex; length chunk - 1])
    as [_ Hset].
  split.
  - apply List.Forall_forall. intros entry Hentry.
    apply in_map_iff in Hentry as (k & <- & Hk).
    rewrite List.Forall_forall in Hrange. specialize (Hrange k Hk).
    destruct (nth_error chunk k) as [item|] eqn:Hitem.
    + exists item. split; [reflexivity|]. by eapply nth_error_In.
    + apply nth_error_None in Hitem. lia.
  - exists lowest, highest.
    repeat split; [by eapply nth_error_In|by eapply nth_error_In| | |exact Hmin|exact Hmax].
    + rewrite <- Hlowest. apply in_map, Hset. simpl. tauto.
    + rewrite <- Hhighest. apply in_map, Hset. simpl. tauto.
Qed.

Lemma virtualizeData_from_data maxDataPoints data :
  Forall Spec.numeric data ->
  Forall (fun entry => exists item, entry = Some item /\ In item data)
         (virtualizeData maxDataPoints data).
Proof.
  intros Hnumeric.
  destruct (Nat.le_gt_cases (length data) maxDataPoints) as [Hle | Hlt].
  - unfold virtualizeData. apply Nat.leb_le in Hle. rewrite Hle.
    apply List.Forall_forall. intros entry Hentry.
    apply in_map_iff in Hentry as (item & <- & Hitem). by exists item.
  - rewrite virtualizeData_chunks by exact Hlt.
    pose proof (ceilDiv_pos _ _ Hlt) as Hstep.
    pose proof (chunks_numeric _ data Hstep Hnumeric) as Hchunks.
    apply List.Forall_forall. intros entry Hentry.
    apply in_flat_map in Hentry as (chunk & Hchunk & Hentry).
    rewrite List.Forall_forall in Hchunks.
    destruct (Hchunks chunk Hchunk) as [Hne Hnum].
    destruct (chunk_keeps chunk Hne Hnum) as [Hall _].
    rewrite List.Forall_forall in Hall.
    destruct (Hall entry Hentry) as (item & -> & Hitem).
    exists item. split; [reflexivity|].
    by apply (chunk_in_data (ceilDiv (length data) maxDataPoints) data chunk).
Qed.

(** X17.  On points whose ordinates are numbers, every entry of the output
    of virtualizeData is a point of the input: nothing is made up and no
    entry is undefined. *)
Theorem virtualizeData_entries_from_data maxDataPoints data :
  Forall Spec.numeric data ->
  Forall (fun entry => exists item, entry = Some item /\ In item data)
         (virtualizeData maxDataPoints data).
Proof. exact (virtualizeData_from_data maxDataPoints data). Qed.

Lemma virtualizeData_entries_from_data_witness :
  let data := [Fixtures.point 0 5; Fixtures.point 1 9; Fixtures.point 2 1] in
  Forall Spec.numeric data
  /\ Forall (fun entry => exists item, entry = Some item /\ In item data)
            (virtualizeData 2 data).
Proof.
  intros data.
  assert (Hnumeric : Forall Spec.numeric data) by (repeat constructor; discriminate).
  split; [exact Hnumeric|].
  exact (virtualizeData_entries_from_data 2 data Hnumeric).
Defined.

Lemma chunks_extremes chunks :
  chunks <> [] ->
  Forall (fun chunk => chunk <> [] /\ Forall Spec.numeric chunk) chunks ->
  exists lowest highest,
    In lowest (concat chunks) /\ In highest (concat chunks)
    /\ In (Some lowest) (flat_map (pushChunk []) chunks)
    /\ In (Some highest) (flat_map (pushChunk []) chunks)
    /\ Forall (fun item => Js.leb (valueOfDatum lowest) (valueOfDatum item) = true)
              (concat chunks)
    /\ Forall (fun item => Js.leb (valueOfDatum item) (valueOfDatum highest) = true)
              (concat chunks).
Proof.
  intros Hne Hall. induction Hall as [|chunk chunks [Hchunk Hnumeric] Hall IH];
    [congruence|]. clear Hne.
  destruct (chunk_keeps chunk Hchunk Hnumeric)
    as (_ & lo & hi & Hlo_in & Hhi_in & Hlo_out & Hhi_out & Hlo & Hhi).
  destruct chunks as [|chunk' chunks].
  - exists lo, hi. simpl. rewrite !app_nil_r. by repeat split.
  - destruct IH as (lo' & hi' & Hlo'_in & Hhi'_in & Hlo'_out & Hhi'_out & Hlo' & Hhi');
      [discriminate|].
    set (rest := chunk' :: chunks) in *.
    assert (Hnum : forall item, In item (concat rest) -> valueOfDatum item <> Js.NaN).
    { intros item Hitem. apply in_concat in Hitem as (c & Hc & Hitem).
      rewrite List.Forall_forall in Hall. destruct (Hall c Hc) as [_ Hcnum].
      rewrite List.Forall_forall in Hcnum. by apply Hcnum. }
    assert (Hnum0 : forall item, In item chunk -> valueOfDatum item <> Js.NaN).
    { intros item Hitem. rewrite List.Forall_forall in Hnumeric. by apply Hnumeric. }
    cbn [concat flat_map].
    assert (Hlowest : exists lowest,
               (In lowest chunk /\ In (Some lowest) (pushChunk [] chunk)
                \/ In lowest (concat rest) /\ In (Some lowest) (flat_map (pushChunk []) rest))
               /\ Forall (fun item => Js.leb (valueOfDatum lowest) (valueOfDatum item) = true)
                         (chunk ++ concat rest)).
    { destruct (Js.leb (valueOfDatum lo) (valueOfDatum lo')) eqn:Hcmp.
      - exists lo. split; [by left|]. apply Forall_app. split; [exact Hlo|].
        eapply List.Forall_impl; [|exact Hlo']. intros item Hitem. simpl in Hitem.
        by eapply leb_trans.
      - apply leb_total in Hcmp; [|by apply Hnum0|by apply Hnum].
        exists lo'. split; [by right|]. apply Forall_app. split; [|exact Hlo'].
        eapply List.Forall_impl; [|exact Hlo]. intros item Hitem. simpl in Hitem.
        by eapply leb_trans. }
    assert (Hhighest : exists highest,
               (In highest chunk /\ In (Some highest) (pushChunk [] chunk)
                \/ In highest (concat rest)
                   /\ In (Some highest) (flat_map (pushChunk []) rest))
               /\ Forall (fun item => Js.leb (valueOfDatum item) (valueOfDatum highest) = true)
                         (chunk ++ concat rest)).
    { destruct (Js.leb (valueOfDatum hi') (valueOfDatum hi)) eqn:Hcmp.
      - exists hi. split; [by left|]. apply Forall_app. split; [exact Hhi|].
        eapply List.Forall_impl; [|exact Hhi']. intros item Hitem. simpl in Hitem.
        by eapply leb_trans.
      - apply leb_total in Hcmp; [|by apply Hnum|by apply Hnum0].
        exists hi'. split; [by right|]. apply Forall_app. split; [|exact Hhi'].
        eapply List.Forall_impl; [|exact Hhi]. intros item Hitem. simpl in Hitem.
        by eapply leb_trans. }
    destruct Hlowest as (lowest & Hlowest_in & Hlowest).
    destruct Hhighest as (highest & Hhighest_in & Hhighest).
    exists lowest, highest. rewrite !in_app_iff.
    repeat split; [tauto|tauto|tauto|tauto|exact Hlowest|exact Hhighest].
Qed.

(** X18.  On points whose ordinates are numbers, the output of
    virtualizeData holds a point with the least ordinate of the input and a
    point with the greatest one: downsampling keeps the range of the
    ordinates. *)
Theorem virtualizeData_keeps_extremes maxDataPoints data :
  data <> [] -> Forall Spec.numeric data ->
  exists lowest highest,
    In (Some lowest) (virtualizeData maxDataPoints data)
    /\ In (Some highest) (virtualizeData maxDataPoints data)
    /\ Forall (fun item => Js.leb (valueOfDatum lowest) (valueOfDatum item) = true) data
    /\ Forall (fun item => Js.leb (valueOfDatum item) (valueOfDatum highest) = true) data.
Proof.
  intros Hne Hnumeric.
  destruct (Nat.le_gt_cases (length data) maxDataPoints) as [Hle | Hlt].
  - unfold virtualizeData. apply Nat.leb_le in Hle. rewrite Hle.
    destruct (chunk_keeps data Hne Hnumeric)
      as (_ & lo & hi & Hlo_in & Hhi_in & _ & _ & Hlo & Hhi).
    exists lo, hi. repeat split; [by apply in_map|by apply in_map|exact Hlo|exact Hhi].
  - rewrite virtualizeData_chunks by exact Hlt.
    pose proof (ceilDiv_pos _ _ Hlt) as Hstep.
    pose proof (chunks_numeric _ data Hstep Hnumeric) as Hchunks.
    pose proof (chunks_partition _ data Hstep) as Hconcat.
    destruct (chunks_extremes (Spec.chunks (ceilDiv (length data) maxDataPoints) data))
      as (lo & hi & _ & _ & Hlo_out & Hhi_out & Hlo & Hhi); [|exact Hchunks|].
    + intros Hnil. rewrite Hnil in Hconcat. simpl in Hconcat. congruence.
    + rewrite Hconcat in Hlo, Hhi. by exists lo, hi.
Qed.

Lemma virtualizeData_keeps_extremes_witness :
  let data := [Fixtures.point 0 5; Fixtures.point 1 9; Fixtures.point 2 1;
               Fixtures.point 3 5; Fixtures.point 4 7] in
  data <> [] /\ Forall Spec.numeric data
  /\ exists lowest highest,
       In (Some lowest) (virtualizeData 2 data)
       /\ In (Some highest) (virtualizeData 2 data)
       /\ Forall (fun item => Js.leb (valueOfDatum lowest) (valueOfDatum item) = true) data
       /\ Forall (fun item => Js.leb (valueOfDatum item) (valueOfDatum highest) = true) data.
Proof.
  intros data.
  assert (Hne : data <> []) by discriminate.
  assert (Hnumeric : Forall Spec.numeric data) by (repeat constructor; discriminate).
  split; [exact Hne|]. split; [exact Hnumeric|].
  exact (virtualizeData_keeps_extremes 2 data Hne Hnumeric).
Defined.

Lemma pushChunk_head item chunk :
  exists entries, pushChunk [] (item :: chunk) = Some item :: entries.
Proof.
  unfold pushChunk. destruct (length (item :: chunk) =? 1)%nat; [by exists []|].
  rewrite fold_push. cbn [app]. unfold indicesToAdd, Js.set_of.
  cbn [fold_left]. change (Js.set_add Z.eqb [] 0%Z) with [0%Z].
  repeat match goal with
  | |- context [Js.set_add Z.eqb (0%Z :: ?s) ?index] =>
      let s' := fresh "s" in destruct (set_add_head Z.eqb 0%Z s index) as [s' ->]
  end.
  cbn [flat_map]. cbn [length].
  assert (H : (0 <? Z.of_nat (S (length chunk)))%Z = true) by (apply Z.ltb_lt; lia).
  rewrite H. eexists. reflexivity.
Qed.

Lemma nth_error_last {A} (xs : list A) d :
  xs <> [] -> nth_error xs (length xs - 1) = Some (List.last xs d).
Proof.
  induction xs as [|x xs IH]; intros Hne; [congruence|].
  destruct xs as [|y ys]; [reflexivity|].
  change (List.last (x :: y :: ys) d) with (List.last (y :: ys) d).
  rewrite <- IH by discriminate.
  cbn [length]. replace (S (S (length ys)) - 1) with (S (S (length ys) - 1)) by lia.
  reflexivity.
Qed.

Lemma pushChunk_last chunk d :
  chunk <> [] -> In (Some (List.last chunk d)) (pushChunk [] chunk).
Proof.
  intros Hne.
  assert (Hlen : 1 <= length chunk) by (destruct chunk; simpl; [congruence|lia]).
  assert (Hentry : at_index chunk (Z.of_nat (length chunk) - 1)
                   = Some (List.last chunk d)).
  { replace (Z.of_nat (length chunk) - 1)%Z with (Z.of_nat (length chunk - 1)) by lia.
    rewrite at_index_of_nat. by apply nth_error_last. }
  unfold pushChunk. destruct (length chunk =? 1)%nat eqn:Hone.
  - apply Nat.eqb_eq in Hone. rewrite Hone in Hentry.
    change (Z.of_nat 1 - 1)%Z with 0%Z in Hentry.
    rewrite Hentry. by left.
  - rewrite fold_push. cbn [app]. apply in_flat_map.
    exists (Z.of_nat (length chunk) - 1)%Z. split.
    + unfold indicesToAdd. apply (set_of_distinct Z.eqb Z.eqb_eq). simpl. tauto.
    + assert (H : (Z.of_nat (length chunk) - 1 <? Z.of_nat (length chunk))%Z = true)
        by (apply Z.ltb_lt; lia).
      rewrite H, Hentry. by left.
Qed.

Lemma last_app_nonempty {A} (xs ys : list A) d :
  ys <> [] -> List.last (xs ++ ys) d = List.last ys d.
Proof.
  intros Hne. induction xs as [|x xs IH]; [reflexivity|].
  cbn [app]. destruct (xs ++ ys) as [|z zs] eqn:Happ.
  - apply app_eq_nil in Happ as [_ ->]. congruence.
  - exact IH.
Qed.

Lemma concat_nonempty {A} (xss : list (list A)) xs :
  In xs xss -> xs <> [] -> concat xss <> [].
Proof.
  intros Hin Hne Hnil. destruct xs as [|x xs]; [congruence|].
  assert (Hx : In x (concat xss)) by (apply in_concat; exists (x :: xs); split; [|left]; done).
  by rewrite Hnil in Hx.
Qed.

Lemma last_concat {A} (xss : list (list A)) d :
  xss <> [] -> Forall (fun xs => xs <> []) xss ->
  exists xs, In xs xss /\ List.last (concat xss) d = List.last xs d.
Proof.
  intros Hne Hall. induction Hall as [|xs xss Hxs Hall IH]; [congruence|]. clear Hne.
  destruct xss as [|ys xss].
  - exists xs. simpl. rewrite app_nil_r. split; [by left|reflexivity].
  - destruct IH as (zs & Hzs & Hlast); [discriminate|].
    exists zs. split; [by right|].
    change (concat (xs :: ys :: xss)) with (xs ++ concat (ys :: xss)).
    rewrite last_app_nonempty; [exact Hlast|].
    rewrite List.Forall_forall in Hall.
    by apply (concat_nonempty _ zs Hzs), Hall.
Qed.

(** X19.  Whatever the ordinates are, the output of virtualizeData starts
    with the first point of the input and holds its last point. *)
Theorem virtualizeData_keeps_ends maxDataPoints first rest :
  hd_error (virtualizeData maxDataPoints (first :: rest)) = Some (Some first)
  /\ In (Some (List.last (first :: rest) first))
        (virtualizeData maxDataPoints (first :: rest)).
Proof.
  set (data := first :: rest).
  destruct (Nat.le_gt_cases (length data) maxDataPoints) as [Hle | Hlt].
  - unfold virtualizeData. apply Nat.leb_le in Hle. rewrite Hle.
    split; [reflexivity|]. apply in_map.
    pose proof (nth_error_last data first ltac:(discriminate)) as Hlast.
    by eapply nth_error_In.
  - rewrite virtualizeData_chunks by exact Hlt.
    pose proof (ceilDiv_pos _ _ Hlt) as Hstep.
    pose proof (chunks_nonempty _ data Hstep) as Hne.
    pose proof (chunks_partition _ data Hstep) as Hconcat.
    set (chunks := Spec.chunks (ceilDiv (length data) maxDataPoints) data) in *.
    assert (Hchunks : chunks <> []).
    { intros Hnil. rewrite Hnil in Hconcat. discriminate. }
    split.
    + destruct chunks as [|chunk chunks']; [congruence|].
      apply Forall_cons_iff in Hne as [Hchunk _].
      destruct chunk as [|item chunk]; [congruence|].
      injection Hconcat as -> _.
      cbn [flat_map]. destruct (pushChunk_head first chunk) as [entries ->].
      reflexivity.
    + destruct (last_concat chunks first Hchunks Hne) as (chunk & Hchunk & Hlast).
      rewrite Hconcat in Hlast. rewrite Hlast.
      apply in_flat_map. exists chunk. split; [exact Hchunk|].
      apply pushChunk_last.
      rewrite List.Forall_forall in Hne. by apply Hne.
Qed.

Lemma entries_defined data (entries : list (option ChartDatum)) :
  Forall (fun entry => exists item, entry = Some item /\ In item data) entries ->
  exists items, entries = map Some items /\ Forall (fun item => In item data) items.
Proof.
  induction 1 as [|entry entries (item & -> & Hitem) _ (items & -> & Hall)].
  - by exists [].
  - exists (item :: items). split; [reflexivity|by constructor].
Qed.

Lemma toChartData_defined items :
  toChartData (map Some items) = Js.Returned (map toPoint items).
Proof.
  induction items as [|item items IH]; [reflexivity|].
  cbn [map toChartData]. by rewrite IH.
Qed.

(** X20.  With a chart and points whose ordinates are numbers, updateChartData
    does not throw.  Every entry virtualizeData selects is a point of the
    input, none is undefined, and the points of the chart become the
    conversions of these entries, one for each entry and in the order
    virtualizeData returns them; the inputs of the component stay as they
    are. *)
Theorem updateChartData_numeric c plotted :
  chart c = Some plotted -> data c <> [] -> Forall Spec.numeric (data c) ->
  exists entries,
    virtualizeData (maxDataPoints c) (data c) = map Some entries
    /\ Forall (fun item => In item (data c)) entries
    /\ updateChartData c
       = Js.Returned {| chart := Some (map toPoint entries); data := data c;
                        maxDataPoints := maxDataPoints c |}.
Proof.
  intros Hchart Hne Hnumeric.
  destruct (entries_defined (data c) (virtualizeData (maxDataPoints c) (data c)))
    as (entries & Hentries & Hall); [by apply virtualizeData_from_data|].
  exists entries. split; [exact Hentries|]. split; [exact Hall|].
  unfold updateChartData. rewrite Hchart.
  destruct (data c) as [|item items] eqn:Hdata; [congruence|].
  by rewrite Hentries, toChartData_defined.
Qed.

Lemma updateChartData_numeric_witness :
  let c := {| chart := Some [];
              data := [Fixtures.point 0 5; Fixtures.point 1 9; Fixtures.point 2 1];
              maxDataPoints := 2 |} in
  chart c = Some [] /\ data c <> [] /\ Forall Spec.numeric (data c)
  /\ exists entries,
       virtualizeData (maxDataPoints c) (data c) = map Some entries
       /\ Forall (fun item => In item (data c)) entries
       /\ updateChartData c
          = Js.Returned {| chart := Some (map toPoint entries); data := data c;
                           maxDataPoints := maxDataPoints c |}.
Proof.
  intros c.
  assert (Hchart : chart c = Some []) by reflexivity.
  assert (Hne : data c <> []) by discriminate.
  assert (Hnumeric : Forall Spec.numeric (data c)) by (repeat constructor; discriminate).
  split; [exact Hchart|]. split; [exact Hne|]. split; [exact Hnumeric|].
  exact (updateChartData_numeric c [] Hchart Hne Hnumeric).
Defined.

(** ** Filters *)

(** X21.  A date range with an invalid bound, or whose end is not more than
    one millisecond after its start, selects no record; the range of a
    single instant is one of these. *)
Theorem applyFilters_empty_window data filters :
  (forall a b, start (dateRange filters) = Instant a ->
               end_ (dateRange filters) = Instant b -> (b <= a + 1)%Z) ->
  applyFilters data filters = [].
Proof.
  intros Hwindow.
  destruct (applyFilters data filters) as [|r kept] eqn:Hkept; [reflexivity|].
  assert (Hin : In r (applyFilters data filters)) by (rewrite Hkept; by left).
  apply applyFilters_In in Hin as (_ & Hdate & _).
  apply isBetween_strict in Hdate as (t & a & b & _ & Hstart & Hend & Hlt).
  specialize (Hwindow a b Hstart Hend). lia.
Qed.

Lemma applyFilters_empty_window_witness :
  let filters :=
    {| dateRange := {| start := Fixtures.jan2024 15; end_ := Fixtures.jan2024 15 |};
       regions := []; categories := []; customerSegments := [] |} in
  (forall a b, start (dateRange filters) = Instant a ->
               end_ (dateRange filters) = Instant b -> (b <= a + 1)%Z)
  /\ applyFilters Fixtures.mockSalesData filters = [].
Proof.
  intros filters.
  assert (Hwindow : forall a b, start (dateRange filters) = Instant a ->
                                end_ (dateRange filters) = Instant b -> (b <= a + 1)%Z).
  { intros a b [= <-] [= <-]. lia. }
  split; [exact Hwindow|].
  exact (applyFilters_empty_window Fixtures.mockSalesData filters Hwindow).
Defined.

(** X22.  An empty list of regions or of categories is no restriction: it
    selects what the list of every region, or category, of the data selects;
    and the list of customer segments has no effect on the selection. *)
Theorem applyFilters_empty_lists data range segments segments' :
  applyFilters data
    {| dateRange := range; regions := []; categories := [];
       customerSegments := segments |}
  = applyFilters data
      {| dateRange := range; regions := map region data;
         categories := map category data; customerSegments := segments' |}.
Proof.
  unfold applyFilters. cbn [dateRange regions categories].
  apply filter_ext_in. intros item Hitem.
  assert (Hregion : includes (map region data) (region item) = true)
    by (apply includes_In; by apply in_map).
  assert (Hcategory : includes (map category data) (category item) = true)
    by (apply includes_In; by apply in_map).
  rewrite Hregion, Hcategory. cbn [length Nat.eqb orb]. by rewrite !orb_true_r.
Qed.

(** X23.  Two calls of updateFilters amount to one call with the two partial
    objects merged, the later one winning where both give a property; the
    records of the service are not touched. *)
Theorem updateFilters_compose earlier later svc :
  updateFilters later (updateFilters earlier svc)
  = updateFilters (Aggregation.spreadPartial earlier later) svc
  /\ salesDataSubject (updateFilters later (updateFilters earlier svc))
     = salesDataSubject svc.
Proof.
  split; [|reflexivity].
  unfold updateFilters, spread, Aggregation.spreadPartial. cbn.
  destruct later as [[?|] [?|] [?|] [?|]]; reflexivity.
Qed.

(** X24.  onDateRangeChange keeps the records and the region and category
    lists of the service, and what is selected afterwards are the records
    dated strictly after the start, 7, 30 or 90 days before the second
    reading of the clock (30 for an unknown key), and strictly before its
    first reading, that pass the two lists. *)
Theorem onDateRangeChange_selects subtractDays key now later svc r :
  let svc' := DashboardComponent.onDateRangeChange subtractDays key now later svc in
  salesDataSubject svc' = salesDataSubject svc
  /\ (In r (filteredSalesData svc')
      <-> In r (salesDataSubject svc)
          /\ (exists t, date r = Instant t
                        /\ (subtractDays later (Aggregation.daysOf key) < t < now)%Z)
          /\ (regions (filtersSubject svc) = []
              \/ In (region r) (regions (filtersSubject svc)))
          /\ (categories (filtersSubject svc) = []
              \/ In (category r) (categories (filtersSubject svc)))).
Proof.
  intros svc'. split; [reflexivity|].
  unfold filteredSalesData. rewrite applyFilters_In.
  assert (Hrange : dateRange (filtersSubject svc')
                   = {| start := Instant (subtractDays later (Aggregation.daysOf key));
                        end_ := Instant now |}).
  { subst svc'. unfold DashboardComponent.onDateRangeChange, Aggregation.daysOf.
    cbn. destruct (String.eqb key "7days"); [reflexivity|].
    destruct (String.eqb_spec key "30days") as [-> | _]; [reflexivity|].
    destruct (String.eqb key "90days"); reflexivity. }
  rewrite Hrange. cbn [start end_].
  change (salesDataSubject svc') with (salesDataSubject svc).
  change (regions (filtersSubject svc')) with (regions (filtersSubject svc)).
  change (categories (filtersSubject svc')) with (categories (filtersSubject svc)).
  assert (Hdate : isBetween (date r)
                    (Instant (subtractDays later (Aggregation.daysOf key))) (Instant now)
                  = true
                  <-> exists t, date r = Instant t
                                /\ (subtractDays later (Aggregation.daysOf key) < t < now)%Z).
  { unfold isBetween. destruct (date r) as [|t].
    - split; [discriminate|]. intros (t & Ht & _). discriminate.
    - rewrite andb_true_iff, !Z.ltb_lt. split.
      + intros Hlt. by exists t.
      + intros (t' & [= <-] & Hlt). exact Hlt. }
  rewrite Hdate. reflexivity.
Qed.

(** ** Customer segments *)

Lemma leb_ltb_trans a b c :
  Js.leb a b = true -> Js.ltb b c = true -> Js.ltb a c = true.
Proof.
  destruct a as [|x| |], b as [|y| |], c as [|z| |]; simpl; try congruence.
  rewrite negb_true_iff, Qle_bool_iff. intros Hxy Hyz.
  destruct (Qle_bool z x) eqn:Hzx; [|reflexivity].
  apply Qle_bool_iff in Hzx.
  assert (Hzy : Qle_bool z y = true) by (apply Qle_bool_iff; lra). congruence.
Qed.

Lemma mul_mono x y c :
  (0 <= c)%Q -> (x <= y)%Q ->
  Js.leb (Js.mul (Js.Fin x) (Js.Fin c)) (Js.mul (Js.Fin y) (Js.Fin c)) = true.
Proof. intros Hc Hxy. cbn [Js.mul]. apply round_mono. nra. Qed.

Lemma add_mono a b c :
  Js.leb a b = true -> Js.leb (Js.add a (Js.Fin c)) (Js.add b (Js.Fin c)) = true.
Proof.
  destruct a as [|x| |], b as [|y| |]; simpl; try congruence; intros Hxy.
  - apply Qle_bool_iff in Hxy. apply round_mono. lra.
  - pose proof (round_number (x + c)) as Hnumber.
    by destruct (Js.round (x + c)).
  - pose proof (round_number (y + c)) as Hnumber.
    by destruct (Js.round (y + c)).
Qed.

(** The greatest number of binary64 below 1. *)
Lemma below_one_greatest q :
  Js.binary64 q -> (0 <= q)%Q -> (q < 1)%Q ->
  (q <= 9007199254740991 # 9007199254740992)%Q.
Proof. apply binary64_below_one. Qed.

(** [Math.floor(Math.random() * n)] is an integer from 0 to [n - 1]. *)
Lemma floor_scaled (q : Q) (n : Z) :
  Js.binary64 q -> (0 <= q)%Q -> (q < 1)%Q -> (0 < n)%Z ->
  Js.ltb (Js.mul (Js.Fin (9007199254740991 # 9007199254740992)) (Js.Fin (inject_Z n)))
         (Js.Fin (inject_Z n)) = true ->
  exists z, Js.floor (Js.mul (Js.Fin q) (Js.Fin (inject_Z n))) = Js.Fin (inject_Z z)
            /\ (0 <= z < n)%Z.
Proof.
  intros Hq Hq0 Hq1 Hn Hedge.
  pose proof (below_one_greatest q Hq Hq0 Hq1) as Hmax.
  assert (Hc : (0 <= inject_Z n)%Q) by (change 0%Q with (inject_Z 0); rewrite <- Zle_Qle; lia).
  pose proof (mul_mono 0 q (inject_Z n) Hc Hq0) as Hlower.
  pose proof (mul_mono q _ (inject_Z n) Hc Hmax) as Hupper.
  pose proof (leb_ltb_trans _ _ _ Hupper Hedge) as Hlt.
  assert (Hzero : Js.mul (Js.Fin 0) (Js.Fin (inject_Z n)) = Js.Fin 0).
  { cbn [Js.mul]. apply (round_comp _ 0). ring. }
  rewrite Hzero in Hlower.
  destruct (Js.mul (Js.Fin q) (Js.Fin (inject_Z n))) as [|v| |];
    try discriminate Hlower; try discriminate Hlt.
  cbn [Js.leb Js.ltb Js.floor] in *. exists (Qfloor v). split; [reflexivity|].
  apply Qle_bool_iff in Hlower. apply negb_true_iff in Hlt.
  assert (Hv : (v < inject_Z n)%Q).
  { apply Qnot_le_lt. intros Hle. apply Qle_bool_iff in Hle. congruence. }
  split.
  - change 0%Z with (Qfloor 0). by apply Qfloor_resp_le.
  - rewrite Zlt_Qlt. eapply Qle_lt_trans; [apply Qfloor_le|exact Hv].
Qed.

(** X25.  calculateCustomerSegments ignores the records: it returns the four
    segments High Value, Regular, New Customer and At Risk with the ids
    segment_0 to segment_3; when Math.random() returns numbers of binary64
    from 0 up to, not including, 1, a customer count is an integer from 100
    to 1099, a total revenue an integer from 10000 to 109999, an average
    lifetime value an integer from 500 to 5499, and a retention rate
    compares as at least 0.6 and less than 0.9. *)
Theorem customer_segments_ranges random data :
  (forall k, exists q : Q,
     random k = Js.Fin q /\ Js.binary64 q /\ (0 <= q)%Q /\ (q < 1)%Q) ->
  map cs_name (calculateCustomerSegments random data)
  = ["High Value"; "Regular"; "New Customer"; "At Risk"]
  /\ map segmentId (calculateCustomerSegments random data)
     = ["segment_0"; "segment_1"; "segment_2"; "segment_3"]
  /\ Forall (fun segment =>
               exists count total value,
                 cs_customerCount segment = Js.Fin (inject_Z count)
                 /\ (100 <= count <= 1099)%Z
                 /\ cs_totalRevenue segment = Js.Fin (inject_Z total)
                 /\ (10000 <= total <= 109999)%Z
                 /\ averageLifetimeValue segment = Js.Fin (inject_Z value)
                 /\ (500 <= value <= 5499)%Z
                 /\ Js.leb (Js.literal 0.6) (retentionRate segment) = true
                 /\ Js.ltb (retentionRate segment) (Js.literal 0.9) = true)
            (calculateCustomerSegments random data).
Proof.
  intros Hrandom.
  assert (Hsegment : forall index name,
             exists count total value,
               cs_customerCount (toSegment random index name) = Js.Fin (inject_Z count)
               /\ (100 <= count <= 1099)%Z
               /\ cs_totalRevenue (toSegment random index name) = Js.Fin (inject_Z total)
               /\ (10000 <= total <= 109999)%Z
               /\ averageLifetimeValue (toSegment random index name)
                  = Js.Fin (inject_Z value)
               /\ (500 <= value <= 5499)%Z
               /\ Js.leb (Js.literal 0.6) (retentionRate (toSegment random index name))
                  = true
               /\ Js.ltb (retentionRate (toSegment random index name)) (Js.literal 0.9)
                  = true).
  { intros index name. unfold toSegment.
    cbn [cs_customerCount cs_totalRevenue averageLifetimeValue retentionRate].
    destruct (Hrandom (4 * index)%nat) as (q0 & -> & Hb0 & Hq0 & Hq0').
    destruct (Hrandom (4 * index + 1)%nat) as (q1 & -> & Hb1 & Hq1 & Hq1').
    destruct (Hrandom (4 * index + 2)%nat) as (q2 & -> & Hb2 & Hq2 & Hq2').
    destruct (Hrandom (4 * index + 3)%nat) as (q3 & -> & Hb3 & Hq3 & Hq3').
    destruct (floor_scaled q0 1000 Hb0 Hq0 Hq0' ltac:(lia) ltac:(vm_compute; reflexivity))
      as (z0 & Hz0 & Hr0).
    destruct (floor_scaled q1 100000 Hb1 Hq1 Hq1' ltac:(lia)
                ltac:(vm_compute; reflexivity)) as (z1 & Hz1 & Hr1).
    destruct (floor_scaled q2 5000 Hb2 Hq2 Hq2' ltac:(lia) ltac:(vm_compute; reflexivity))
      as (z2 & Hz2 & Hr2).
    change (Js.Fin 1000) with (Js.Fin (inject_Z 1000)).
    change (Js.Fin 100000) with (Js.Fin (inject_Z 100000)).
    change (Js.Fin 5000) with (Js.Fin (inject_Z 5000)).
    rewrite Hz0, Hz1, Hz2.
    change (Js.Fin 100) with (Js.Fin (inject_Z 100)).
    change (Js.Fin 10000) with (Js.Fin (inject_Z 10000)).
    change (Js.Fin 500) with (Js.Fin (inject_Z 500)).
    rewrite !add_integers by lia.
    exists (z0 + 100)%Z, (z1 + 10000)%Z, (z2 + 500)%Z.
    repeat (split; [first [reflexivity | lia]|]).
    assert (H3 : exists c, Js.literal 0.3 = Js.Fin c /\ (0 <= c)%Q)
      by (eexists; split; [vm_compute; reflexivity|vm_compute; discriminate]).
    assert (H6 : exists c, Js.literal 0.6 = Js.Fin c)
      by (eexists; vm_compute; reflexivity).
    assert (Hlow : Js.leb (Js.literal 0.6)
                     (Js.add (Js.mul (Js.Fin 0) (Js.literal 0.3)) (Js.literal 0.6))
                   = true) by (vm_compute; reflexivity).
    assert (Hhigh : Js.ltb
                      (Js.add (Js.mul (Js.Fin (9007199254740991 # 9007199254740992))
                                 (Js.literal 0.3)) (Js.literal 0.6))
                      (Js.literal 0.9)
                    = true) by (vm_compute; reflexivity).
    destruct H3 as (c3 & Hc3 & Hpos). destruct H6 as (c6 & Hc6).
    pose proof (below_one_greatest q3 Hb3 Hq3 Hq3') as Hmax.
    pose proof (mul_mono 0 q3 c3 Hpos Hq3) as Hlower.
    pose proof (mul_mono q3 _ c3 Hpos Hmax) as Hupper.
    rewrite <- Hc3 in Hlower, Hupper.
    apply (add_mono _ _ c6) in Hlower. apply (add_mono _ _ c6) in Hupper.
    rewrite <- Hc6 in Hlower, Hupper.
    split.
    + eapply leb_trans; [exact Hlow|exact Hlower].
    + eapply leb_ltb_trans; [exact Hupper|exact Hhigh]. }
  unfold calculateCustomerSegments, segments. cbn [length seq combine map].
  repeat split. repeat constructor; apply Hsegment.
Qed.

Lemma customer_segments_ranges_witness :
  (forall k : nat, exists q : Q,
     (fun _ : nat => Js.literal 0.5) k = Js.Fin q /\ Js.binary64 q
     /\ (0 <= q)%Q /\ (q < 1)%Q)
  /\ map cs_name (calculateCustomerSegments (fun _ => Js.literal 0.5)
                    Fixtures.mockSalesData)
     = ["High Value"; "Regular"; "New Customer"; "At Risk"].
Proof.
  assert (Hrandom : forall k : nat, exists q : Q,
             (fun _ : nat => Js.literal 0.5) k = Js.Fin q /\ Js.binary64 q
             /\ (0 <= q)%Q /\ (q < 1)%Q).
  { intros k. exists (1 # 2)%Q. split; [vm_compute; reflexivity|].
    split; [vm_compute; reflexivity|]. split; lra. }
  split; [exact Hrandom|].
  exact (proj1 (customer_segments_ranges (fun _ => Js.literal 0.5) Fixtures.mockSalesData
                  Hrandom)).
Defined.

(** ** The import dialog *)

(** X26.  processFile turns away a file whose name does not end in .csv,
    whatever the case of the letters, and a file of more than 10 MB: it
    shows one message for 3 seconds and changes neither the signals of the
    component nor the service. *)
Theorem processFile_rejects momentParse clock format arraySort readFile file c svc :
  Js.endsWith (Js.toLowerCase (DataImportComponent.file_name file)) ".csv" = false
  \/ (DataImportComponent.maxFileSize < DataImportComponent.file_size file)%N ->
  exists message,
    DataImportComponent.processFile momentParse clock format arraySort readFile
      file (c, svc)
    = (DataImportComponent.open c message 3000, svc).
Proof.
  intros Hreject. unfold DataImportComponent.processFile.
  destruct (Js.endsWith _ ".csv") eqn:Hcsv; cbn [negb]; [|by eexists].
  destruct Hreject as [Hname | Hsize]; [discriminate|].
  apply N.ltb_lt in Hsize. rewrite Hsize. by eexists.
Qed.

Lemma processFile_rejects_witness :
  let file := {| DataImportComponent.file_name := "sales.csv.txt";
                 DataImportComponent.file_size := 120 |} in
  let c := {| DataImportComponent.isDragOver := false;
              DataImportComponent.isUploading := false;
              DataImportComponent.uploadedFileName := None;
              DataImportComponent.importStats := None;
              DataImportComponent.snackBar := [] |} in
  (Js.endsWith (Js.toLowerCase (DataImportComponent.file_name file)) ".csv" = false
   \/ (DataImportComponent.maxFileSize < DataImportComponent.file_size file)%N)
  /\ exists message,
       DataImportComponent.processFile IsoDate.momentParse IsoDate.clock IsoDate.format
         (@Fixtures.sort Moment) (fun _ => None) file (c, construct IsoDate.momentParse
                                                         IsoDate.clock
                                                         (fun _ => Js.Next EmptyString) 0)
       = (DataImportComponent.open c message 3000,
          construct IsoDate.momentParse IsoDate.clock (fun _ => Js.Next EmptyString) 0).
Proof.
  intros file c.
  assert (Hreject :
            Js.endsWith (Js.toLowerCase (DataImportComponent.file_name file)) ".csv" = false
            \/ (DataImportComponent.maxFileSize < DataImportComponent.file_size file)%N)
    by (left; reflexivity).
  split; [exact Hreject|].
  exact (processFile_rejects IsoDate.momentParse IsoDate.clock IsoDate.format
           (@Fixtures.sort Moment) (fun _ => None) file c _ Hreject).
Defined.

(** X27.  On a file it accepts, processFile ends with isUploading false.
    When the file is read and parsed, the service holds the parsed records,
    the component shows the file name, the statistics of the records and a
    message with their number; when reading or parsing fails, the service
    is as before, the file name is cleared, the statistics of an earlier
    import stay, and the message is the one of a failed import. *)
Theorem processFile_accepted momentParse clock format arraySort readFile file c svc :
  Js.endsWith (Js.toLowerCase (DataImportComponent.file_name file)) ".csv" = true ->
  (DataImportComponent.file_size file <= DataImportComponent.maxFileSize)%N ->
  let after :=
    DataImportComponent.processFile momentParse clock format arraySort readFile
      file (c, svc) in
  DataImportComponent.isUploading (fst after) = false
  /\ match parseUploadedFile momentParse clock
             (readFile (DataImportComponent.file_name file)) with
     | Js.Resolved records =>
         salesDataSubject (snd after) = records
         /\ filtersSubject (snd after) = filtersSubject svc
         /\ DataImportComponent.uploadedFileName (fst after)
            = Some (DataImportComponent.file_name file)
         /\ DataImportComponent.importStats (fst after)
            = Some (DataImportComponent.calculateImportStats format arraySort records)
         /\ DataImportComponent.snackBar (fst after)
            = DataImportComponent.snackBar c
              ++ [(("Successfully imported " ++ Js.of_index (length records)
                    ++ " records")%string, 5000)]
     | Js.Rejected _ =>
         snd after = svc
         /\ DataImportComponent.uploadedFileName (fst after) = None
         /\ DataImportComponent.importStats (fst after) = DataImportComponent.importStats c
         /\ DataImportComponent.snackBar (fst after)
            = DataImportComponent.snackBar c
              ++ [("Error importing CSV file. Please check the format.", 5000)]
     end.
Proof.
  intros Hcsv Hsize after. subst after. unfold DataImportComponent.processFile.
  rewrite Hcsv. cbn [negb].
  assert (Hfits : (DataImportComponent.maxFileSize <? DataImportComponent.file_size file)%N
                  = false) by (apply N.ltb_ge; exact Hsize).
  rewrite Hfits. unfold importSalesDataFromFile.
  destruct (parseUploadedFile momentParse clock _) as [records | e];
    cbn; repeat split; reflexivity.
Qed.

Lemma processFile_accepted_witness :
  let file := {| DataImportComponent.file_name := "SALES.CSV";
                 DataImportComponent.file_size := 120 |} in
  let c := {| DataImportComponent.isDragOver := false;
              DataImportComponent.isUploading := false;
              DataImportComponent.uploadedFileName := None;
              DataImportComponent.importStats := None;
              DataImportComponent.snackBar := [] |} in
  let svc := construct IsoDate.momentParse IsoDate.clock (fun _ => Js.Next EmptyString) 0 in
  Js.endsWith (Js.toLowerCase (DataImportComponent.file_name file)) ".csv" = true
  /\ (DataImportComponent.file_size file <= DataImportComponent.maxFileSize)%N
  /\ DataImportComponent.isUploading
       (fst (DataImportComponent.processFile IsoDate.momentParse IsoDate.clock
               IsoDate.format (@Fixtures.sort Moment) (fun _ => None) file (c, svc)))
     = false.
Proof.
  intros file c svc.
  assert (Hcsv : Js.endsWith (Js.toLowerCase (DataImportComponent.file_name file)) ".csv"
                 = true) by reflexivity.
  assert (Hsize : (DataImportComponent.file_size file <= DataImportComponent.maxFileSize)%N)
    by (vm_compute; discriminate).
  split; [exact Hcsv|]. split; [exact Hsize|].
  exact (proj1 (processFile_accepted IsoDate.momentParse IsoDate.clock IsoDate.format
                  (@Fixtures.sort Moment) (fun _ => None) file c svc Hcsv Hsize)).
Defined.

(** X28.  When the sample file cannot be fetched or parsed, loadSampleData
    shows its error message and leaves isUploading true: the complete
    callback, which alone resets it, does not run after an error.  The
    service, the file name and the statistics are as before. *)
Theorem loadSampleData_error_keeps_uploading momentParse clock format arraySort http
    c svc e :
  loadSalesDataFromCsv momentParse clock (http "assets/sample-sales-data.csv")
  = Js.ErrorNotification e ->
  let after :=
    DataImportComponent.loadSampleData momentParse clock format arraySort http (c, svc) in
  DataImportComponent.isUploading (fst after) = true
  /\ snd after = svc
  /\ DataImportComponent.uploadedFileName (fst after)
     = DataImportComponent.uploadedFileName c
  /\ DataImportComponent.importStats (fst after) = DataImportComponent.importStats c
  /\ DataImportComponent.snackBar (fst after)
     = DataImportComponent.snackBar c ++ [("Error loading sample data", 3000)].
Proof.
  intros Herror after. subst after.
  unfold DataImportComponent.loadSampleData, importSalesDataFromCsv.
  rewrite Herror. cbn. by repeat split.
Qed.

Lemma loadSampleData_error_keeps_uploading_witness :
  let http := fun _ : string => @Js.ErrorNotification string (Js.Error "404") in
  let c := {| DataImportComponent.isDragOver := false;
              DataImportComponent.isUploading := false;
              DataImportComponent.uploadedFileName := None;
              DataImportComponent.importStats := None;
              DataImportComponent.snackBar := [] |} in
  let svc := construct IsoDate.momentParse IsoDate.clock http 0 in
  loadSalesDataFromCsv IsoDate.momentParse IsoDate.clock
    (http "assets/sample-sales-data.csv")
  = Js.ErrorNotification (Js.Error "404")
  /\ DataImportComponent.isUploading
       (fst (DataImportComponent.loadSampleData IsoDate.momentParse IsoDate.clock
               IsoDate.format (@Fixtures.sort Moment) http (c, svc)))
     = true.
Proof.
  intros http c svc.
  assert (Herror : loadSalesDataFromCsv IsoDate.momentParse IsoDate.clock
                     (http "assets/sample-sales-data.csv")
                   = Js.ErrorNotification (Js.Error "404")) by reflexivity.
  split; [exact Herror|].
  exact (proj1 (loadSampleData_error_keeps_uploading IsoDate.momentParse IsoDate.clock
                  IsoDate.format (@Fixtures.sort Moment) http c svc _ Herror)).
Defined.

Lemma add_compat a a' b b' :
  Js.num_eq a a' -> Js.num_eq b b' -> Js.num_eq (Js.add a b) (Js.add a' b').
Proof.
  destruct a as [|x| |], a' as [|x'| |], b as [|y| |], b' as [|y'| |];
    simpl; try tauto.
  intros Ha Hb. rewrite (round_comp (x + y) (x' + y')) by (by rewrite Ha, Hb).
  apply num_eq_refl.
Qed.

Lemma or_else_zero v : v <> Js.NaN -> Js.num_eq (Js.or_else v Js.zero) v.
Proof.
  intros Hv. unfold Js.or_else, Js.truthy. destruct v as [|x| |]; try congruence;
    try apply num_eq_refl.
  destruct (Qeq_bool x 0) eqn:Hzero; cbn [negb]; [|apply num_eq_refl].
  apply Qeq_bool_iff in Hzero. simpl. by symmetry.
Qed.

Lemma import_revenue (salesData : list SalesData) : forall a a',
  Forall (fun r => revenue r <> Js.NaN) salesData -> Js.num_eq a a' ->
  Js.num_eq
    (fold_left (fun sum item => Js.add sum (Js.or_else (revenue item) Js.zero)) salesData a)
    (fold_left (fun sum item => Js.add sum (revenue item)) salesData a').
Proof.
  induction salesData as [|r salesData IH]; intros a a' Hall Ha; [exact Ha|].
  apply Forall_cons_iff in Hall as [Hr Hall]. simpl. apply IH; [exact Hall|].
  apply add_compat; [exact Ha|]. by apply or_else_zero.
Qed.

(** X29.  On records whose revenue is a number, the statistics of the import
    dialog agree with the dashboard: the records imported are the total
    orders, the total revenue is the total revenue of the dashboard metrics
    as a value, and the unique products are as many as the aggregates of
    calculateProductMetrics. *)
Theorem import_stats_agree_with_dashboard format arraySort random salesData :
  Forall (fun r => revenue r <> Js.NaN) salesData ->
  let stats := DataImportComponent.calculateImportStats format arraySort salesData in
  let metrics := calculateDashboardMetrics salesData in
  DataImportComponent.recordsImported stats = totalOrders metrics
  /\ Js.num_eq (DataImportComponent.is_totalRevenue stats) (totalRevenue metrics)
  /\ DataImportComponent.uniqueProducts stats
     = length (calculateProductMetrics random salesData).
Proof.
  intros Hall stats metrics. subst stats metrics.
  rewrite <- (length_map pm_productId (calculateProductMetrics random salesData)).
  rewrite calculateProductMetrics_ids.
  destruct salesData as [|r salesData]; [repeat split; reflexivity|].
  unfold DataImportComponent.calculateImportStats, calculateDashboardMetrics.
  cbn [DataImportComponent.recordsImported DataImportComponent.is_totalRevenue
       DataImportComponent.uniqueProducts totalOrders totalRevenue].
  repeat split. apply import_revenue; [exact Hall|apply num_eq_refl].
Qed.

Lemma import_stats_agree_with_dashboard_witness :
  Forall (fun r => revenue r <> Js.NaN) Fixtures.mockSalesData
  /\ DataImportComponent.recordsImported
       (DataImportComponent.calculateImportStats IsoDate.format (@Fixtures.sort Moment)
          Fixtures.mockSalesData)
     = 4%nat.
Proof.
  assert (Hall : Forall (fun r => revenue r <> Js.NaN) Fixtures.mockSalesData)
    by (repeat constructor; discriminate).
  split; [exact Hall|].
  exact (proj1 (import_stats_agree_with_dashboard IsoDate.format (@Fixtures.sort Moment)
                  (fun _ => Js.literal 0.5) Fixtures.mockSalesData Hall)).
Defined.
